(** * Receipt parser (src/services/parser.service.ts): a shallow embedding

    [ReceiptParser.parse] maps the text recognised by OCR to a record of
    optional fields.  The embedding follows the TypeScript source line by
    line:

    - a JavaScript string is the list of its UTF-16 code units;
    - a JavaScript number is an IEEE 754 binary64 value ([spec_float] with
      [prec = 53] and [emax = 1024]), with [parseFloat] and [toFixed]
      computed exactly;
    - a regular expression is kept as its source text, read by [re] into a
      syntax tree and run by a backtracking matcher that follows the
      ECMAScript pattern semantics (leftmost match, greedy and lazy
      quantifiers, capture groups, lookahead, word boundaries, the [i]
      flag);
    - the record is threaded through the extraction and the eight
      post-processing steps in the order of the source. *)

From Stdlib Require Import ZArith NArith List String Ascii Bool Lia QArith Qabs.
From Stdlib Require Import Floats.SpecFloat.
From Stdlib Require Import Sorted Permutation.
Import ListNotations.

Close Scope Q_scope.
Open Scope string_scope.
Open Scope list_scope.

(** ** Strings: lists of UTF-16 code units *)

Module Str.

Definition char := N.
Definition str := list char.

Definition bytes_of (s : string) : list N :=
  List.map (fun a => N_of_ascii a) (list_ascii_of_string s).

(** Rocq string literals are UTF-8 byte strings; [decode] turns them into
    the code units a JavaScript engine sees for the same source text. *)
Fixpoint decode (bs : list N) : str :=
  match bs with
  | [] => []
  | b :: r =>
      if (b <? 128)%N then b :: decode r
      else if (b <? 224)%N then
        match r with
        | c :: r' => ((b - 192) * 64 + (c - 128))%N :: decode r'
        | [] => [b]
        end
      else if (b <? 240)%N then
        match r with
        | c :: d :: r' =>
            ((b - 224) * 4096 + (c - 128) * 64 + (d - 128))%N :: decode r'
        | _ => [b]
        end
      else
        match r with
        | c :: d :: e :: r' =>
            let cp := ((b - 240) * 262144 + (c - 128) * 4096
                       + (d - 128) * 64 + (e - 128) - 65536)%N in
            (55296 + cp / 1024)%N :: (56320 + cp mod 1024)%N :: decode r'
        | _ => [b]
        end
  end.

Definition js (s : string) : str := decode (bytes_of s).

Definition LF : char := 10%N.

(** [unlines] joins the lines of a text with the line feed character. *)
Fixpoint unlines (ls : list string) : str :=
  match ls with
  | [] => []
  | [l] => js l
  | l :: ls' => js l ++ LF :: unlines ls'
  end.

Definition eqb (a b : str) : bool :=
  if list_eq_dec N.eq_dec a b then true else false.

Definition is_digit (c : char) : bool := ((48 <=? c) && (c <=? 57))%N.

(** WhiteSpace and LineTerminator of ECMAScript: the set of [\s] and of
    [String.prototype.trim]. *)
Definition is_space (c : char) : bool :=
  ((9 <=? c) && (c <=? 13) || (c =? 32) || (c =? 160) || (c =? 5760)
   || (8192 <=? c) && (c <=? 8202) || (c =? 8232) || (c =? 8233)
   || (c =? 8239) || (c =? 8287) || (c =? 12288) || (c =? 65279))%N.

Definition is_word (c : char) : bool :=
  ((48 <=? c) && (c <=? 57) || (65 <=? c) && (c <=? 90)
   || (97 <=? c) && (c <=? 122) || (c =? 95))%N.

Definition is_line_terminator (c : char) : bool :=
  ((c =? 10) || (c =? 13) || (c =? 8232) || (c =? 8233))%N.

Fixpoint trimStart (s : str) : str :=
  match s with
  | c :: r => if is_space c then trimStart r else s
  | [] => []
  end.

Definition trimEnd (s : str) : str := rev (trimStart (rev s)).

Definition trim (s : str) : str := trimEnd (trimStart s).

(** [s.split('\n')] *)
Fixpoint split_lines_aux (cur : str) (s : str) : list str :=
  match s with
  | [] => [rev cur]
  | c :: r =>
      if (c =? LF)%N then rev cur :: split_lines_aux [] r
      else split_lines_aux (c :: cur) r
  end.

Definition split_lines (s : str) : list str := split_lines_aux [] s.

(** [s.indexOf(c) !== -1] *)
Definition contains (c : char) (s : str) : bool :=
  existsb (fun x => (x =? c)%N) s.

End Str.

Import Str.

(** ** Numbers: IEEE 754 binary64 *)

Module Num.

Definition number := spec_float.

Definition prec : Z := 53.
Definition emax : Z := 1024.

Definition NaN : number := S754_nan.
Definition Infinity : number := S754_infinity false.

Definition add : number -> number -> number := SFadd prec emax.
Definition sub : number -> number -> number := SFsub prec emax.
Definition mul : number -> number -> number := SFmul prec emax.
Definition div : number -> number -> number := SFdiv prec emax.
Definition abs : number -> number := SFabs.
Definition ltb : number -> number -> bool := SFltb.
Definition leb : number -> number -> bool := SFleb.
Definition gtb (a b : number) : bool := SFltb b a.
Definition geb (a b : number) : bool := SFleb b a.

Definition isNaN (x : number) : bool :=
  match x with S754_nan => true | _ => false end.

(** ToBoolean on a number: [0], [-0] and [NaN] are falsy. *)
Definition truthy (x : number) : bool :=
  match x with
  | S754_zero _ | S754_nan => false
  | _ => true
  end.

(** The number nearest to [m * 10^e] (ties to even): the value denoted by
    a decimal literal, as in [StringNumericValue]. *)
Definition of_decimal (neg : bool) (m : Z) (e : Z) : number :=
  match m with
  | Z0 => S754_zero neg
  | Zneg _ => S754_nan
  | Zpos p =>
      match e with
      | Zneg k =>
          let '(q, e', l) :=
            SFdiv_core_binary prec emax (Zpos p) 0 (Z.pow_pos 10 k) 0 in
          binary_round_aux prec emax neg q e' l
      | _ =>
          match (Zpos p * 10 ^ e)%Z with
          | Zpos v => binary_round prec emax neg v 0
          | _ => S754_nan
          end
      end
  end.

(** Decimal literal with a sign taken from the mantissa: [dec 123456 (-2)]
    is the number written [1234.56]. *)
Definition dec (m : Z) (e : Z) : number :=
  of_decimal (m <? 0)%Z (Z.abs m) e.

Definition of_Z (z : Z) : number := dec z 0.

(** The exact rational value of a finite number. *)
Definition to_Q (x : number) : option Q :=
  match x with
  | S754_zero _ => Some 0%Q
  | S754_finite s m e =>
      let v := match e with
               | Zneg k => Qmake (Zpos m) (Pos.pow 2 k)
               | _ => inject_Z (Zpos m * 2 ^ e)
               end in
      Some (if s then Qopp v else v)
  | _ => None
  end.

(** *** [parseFloat]

    The longest prefix of the trimmed text that is a [StrDecimalLiteral]
    (sign, [Infinity], digits, fraction, exponent) gives the value; no such
    prefix gives [NaN]. *)

Fixpoint digits (s : str) (acc : Z) (n : Z) : Z * Z * str :=
  match s with
  | c :: r =>
      if is_digit c then digits r (acc * 10 + (Z.of_N c - 48))%Z (n + 1)%Z
      else (acc, n, s)
  | [] => (acc, n, s)
  end.

Fixpoint starts_with (p s : str) : bool :=
  match p, s with
  | [], _ => true
  | a :: p', b :: s' => (a =? b)%N && starts_with p' s'
  | _ :: _, [] => false
  end.

Definition exponent_part (s : str) : Z :=
  match s with
  | c :: r =>
      if ((c =? 101) || (c =? 69))%N then
        let '(neg, r') :=
          match r with
          | d :: r1 =>
              if (d =? 45)%N then (true, r1)
              else if (d =? 43)%N then (false, r1) else (false, r)
          | [] => (false, r)
          end in
        let '(v, n, _) := digits r' 0%Z 0%Z in
        if (n =? 0)%Z then 0%Z else if neg then (- v)%Z else v
      else 0%Z
  | [] => 0%Z
  end.

Definition parseFloat (input : str) : number :=
  let s := trimStart input in
  let '(neg, s) :=
    match s with
    | c :: r =>
        if (c =? 45)%N then (true, r)
        else if (c =? 43)%N then (false, r) else (false, s)
    | [] => (false, s)
    end in
  if starts_with (js "Infinity") s then S754_infinity neg
  else
    let '(iv, ic, r1) := digits s 0%Z 0%Z in
    let '(fv, fc, r2) :=
      match r1 with
      | c :: r =>
          if (c =? 46)%N then
            let '(v, n, r') := digits r 0%Z 0%Z in
            if ((ic =? 0) && (n =? 0))%Z then (0%Z, 0%Z, r1) else (v, n, r')
          else (0%Z, 0%Z, r1)
      | [] => (0%Z, 0%Z, r1)
      end in
    if ((ic =? 0) && (fc =? 0))%Z then NaN
    else of_decimal neg (iv * 10 ^ fc + fv)%Z (exponent_part r2 - fc)%Z.

(** *** [Number.prototype.toFixed] and [Number::toString] *)

Fixpoint digits_of_aux (fuel : nat) (n : Z) (acc : str) : str :=
  match fuel with
  | O => acc
  | S f =>
      let acc' := (Z.to_N (n mod 10) + 48)%N :: acc in
      if (n <? 10)%Z then acc' else digits_of_aux f (n / 10)%Z acc'
  end.

(** Decimal digits of a non-negative integer. *)
Definition digits_of (n : Z) : str :=
  digits_of_aux (S (Z.to_nat (Z.log2 n))) n [].

(** The exact value of a finite number times [10^2], rounded to the
    nearest integer, the larger one on a tie: the [n] of [toFixed]. *)
Definition scaled_round (m : positive) (e : Z) : Z :=
  match e with
  | Zneg k => ((2 * (Zpos m * 100) + Z.pow_pos 2 k) / (2 * Z.pow_pos 2 k))%Z
  | _ => (Zpos m * 100 * 2 ^ e)%Z
  end.

Definition integer_part (m : positive) (e : Z) : Z :=
  match e with
  | Zneg k => (Zpos m / Z.pow_pos 2 k)%Z
  | _ => (Zpos m * 2 ^ e)%Z
  end.

Definition pad3 (d : str) : str :=
  match d with
  | [] => js "000"
  | [a] => 48%N :: 48%N :: d
  | [a; b] => 48%N :: d
  | _ => d
  end.

Definition insert_point (d : str) : str :=
  let k := (List.length d - 2)%nat in
  firstn k d ++ 46%N :: skipn k d.

(** Shortest decimal digits [s] (with [k] digits) such that
    [s * 10^(nd - k)] reads back as [x]; the candidate closest to [x] is
    taken, the even one on a tie.  Used for integers of at least 22
    digits. *)
Fixpoint shortest (fuel : nat) (k : Z) (x : number) (X nd : Z) : Z * Z :=
  match fuel with
  | O => (X, nd)
  | S f =>
      let q := (10 ^ (nd - k))%Z in
      let lo := (X / q)%Z in
      let hi := (lo + 1)%Z in
      let ok s := match SFcompare (of_decimal false s (nd - k)) x with
                  | Some Eq => true
                  | _ => false
                  end in
      let pick s := if (s =? 10 ^ k)%Z then (1%Z, (nd + 1)%Z) else (s, nd) in
      match ok lo, ok hi with
      | true, true =>
          let dl := (X - lo * q)%Z in
          let dh := (hi * q - X)%Z in
          if (dl <? dh)%Z then pick lo
          else if (dh <? dl)%Z then pick hi
          else if Z.even lo then pick lo else pick hi
      | true, false => pick lo
      | false, true => pick hi
      | false, false => shortest f (k + 1)%Z x X nd
      end
  end.

Fixpoint strip_zeros (fuel : nat) (s : Z) : Z :=
  match fuel with
  | O => s
  | S f => if ((0 <? s) && (s mod 10 =? 0))%Z then strip_zeros f (s / 10)%Z else s
  end.

(** [Number::toString] on a finite number of value at least [10^21]. *)
Definition toString_large (x : number) (X : Z) : str :=
  let nd := Z.of_nat (List.length (digits_of X)) in
  let '(s, n) := shortest 17 1%Z x X nd in
  let d := digits_of (strip_zeros 17 s) in
  let e := js "e+" ++ digits_of (n - 1)%Z in
  match d with
  | [a] => a :: e
  | a :: r => a :: 46%N :: r ++ e
  | [] => e
  end.

Definition toFixed2 (x : number) : str :=
  match x with
  | S754_nan => js "NaN"
  | S754_infinity s => if s then js "-Infinity" else js "Infinity"
  | S754_zero _ => js "0.00"
  | S754_finite s m e =>
      let sign := if s then js "-" else [] in
      if (10 ^ 21 <=? integer_part m e)%Z then
        sign ++ toString_large (S754_finite false m e) (integer_part m e)
      else
        sign ++ insert_point (pad3 (digits_of (scaled_round m e)))
  end.

(** [parseFloat(x.toFixed(2))], the rounding used by every derivation. *)
Definition round2 (x : number) : number := parseFloat (toFixed2 x).

End Num.

Import Num.

(** ** Regular expressions

    The syntax tree of a pattern, a reader for the source text of the
    patterns of parser.service.ts, and the backtracking matcher of the
    ECMAScript specification in continuation-passing style. *)

Module Regex.

Inductive citem :=
| CChar (c : char)
| CRange (lo hi : char)
| CDigit (neg : bool)
| CSpace (neg : bool)
| CWord (neg : bool).

Inductive node :=
| Empty
| Chr (c : char)
| Dot
| Cls (neg : bool) (items : list citem)
| Seq (a b : node)
| Alt (a b : node)
| Rep (r : node) (min : nat) (max : option nat) (greedy : bool)
| Group (i : nat) (r : node)
| Look (positive : bool) (r : node)
| Boundary (neg : bool)
| Bol
| Eol
| Fail.

(** *** Reading a pattern *)

Definition ch (a : ascii) : char := N_of_ascii a.

Definition isc (a : ascii) (c : char) : bool := (c =? ch a)%N.

Notation "x <- e ;; k" :=
  (match e with Some x => k | None => None end)
  (at level 61, e at next level, right associativity).
Notation "' p <- e ;; k" :=
  (match e with Some p => k | None => None end)
  (at level 61, p pattern, e at next level, right associativity).

Definition hex_val (c : char) : option N :=
  if is_digit c then Some (c - 48)%N
  else if ((97 <=? c) && (c <=? 102))%N then Some (c - 87)%N
  else if ((65 <=? c) && (c <=? 70))%N then Some (c - 55)%N
  else None.

Fixpoint hex (n : nat) (s : str) (acc : N) : option (N * str) :=
  match n with
  | O => Some (acc, s)
  | S n' =>
      match s with
      | c :: r => v <- hex_val c ;; hex n' r (acc * 16 + v)%N
      | [] => None
      end
  end.

(** The character or class named after a backslash; [in_class] selects
    the reading of [\b] (backspace inside a class). *)
Definition escape (s : str) : option (citem * str) :=
  match s with
  | [] => None
  | c :: r =>
      if isc "d" c then Some (CDigit false, r)
      else if isc "D" c then Some (CDigit true, r)
      else if isc "s" c then Some (CSpace false, r)
      else if isc "S" c then Some (CSpace true, r)
      else if isc "w" c then Some (CWord false, r)
      else if isc "W" c then Some (CWord true, r)
      else if isc "n" c then Some (CChar 10%N, r)
      else if isc "r" c then Some (CChar 13%N, r)
      else if isc "t" c then Some (CChar 9%N, r)
      else if isc "v" c then Some (CChar 11%N, r)
      else if isc "f" c then Some (CChar 12%N, r)
      else if isc "b" c then Some (CChar 8%N, r)
      else if isc "0" c then Some (CChar 0%N, r)
      else if isc "u" c then '(v, r') <- hex 4 r 0%N ;; Some (CChar v, r')
      else if isc "x" c then '(v, r') <- hex 2 r 0%N ;; Some (CChar v, r')
      else if is_digit c then None
      else Some (CChar c, r)
  end.

Definition class_atom (s : str) : option (citem * str) :=
  match s with
  | [] => None
  | c :: r => if isc "\" c then escape r else Some (CChar c, r)
  end.

Fixpoint class_items (fuel : nat) (s : str) (acc : list citem)
  : option (list citem * str) :=
  match fuel with
  | O => None
  | S f =>
      match s with
      | [] => None
      | c :: r =>
          if isc "]" c then Some (rev acc, r)
          else
            '(a, r1) <- class_atom s ;;
            match a, r1 with
            | CChar lo, d :: (c2 :: _) as r2 =>
                if isc "-" d && negb (isc "]" c2) then
                  '(b, r3) <- class_atom r2 ;;
                  match b with
                  | CChar hi => class_items f r3 (CRange lo hi :: acc)
                  | _ => class_items f r3 (b :: CChar d :: a :: acc)
                  end
                else class_items f r1 (a :: acc)
            | _, _ => class_items f r1 (a :: acc)
            end
      end
  end.

Definition number_of (s : str) : option (nat * str) :=
  let '(v, n, r) := Num.digits s 0%Z 0%Z in
  if (n =? 0)%Z then None else Some (Z.to_nat v, r).

(** The quantifier after an atom: [*], [+], [?], [{n}], [{n,}], [{n,m}],
    each made lazy by a following [?]. *)
Definition quantifier (a : node) (s : str) : option (node * str) :=
  let lazy mn mx r :=
    match r with
    | c :: r' => if isc "?" c then (Rep a mn mx false, r')
                 else (Rep a mn mx true, r)
    | [] => (Rep a mn mx true, r)
    end in
  match s with
  | [] => Some (a, s)
  | c :: r =>
      if isc "*" c then Some (lazy 0%nat None r)
      else if isc "+" c then Some (lazy 1%nat None r)
      else if isc "?" c then Some (lazy 0%nat (Some 1%nat) r)
      else if isc "{" c then
        '(mn, r1) <- number_of r ;;
        match r1 with
        | c1 :: r2 =>
            if isc "}" c1 then Some (lazy mn (Some mn) r2)
            else if isc "," c1 then
              match r2 with
              | c2 :: r3 =>
                  if isc "}" c2 then Some (lazy mn None r3)
                  else
                    '(mx, r4) <- number_of r2 ;;
                    match r4 with
                    | c4 :: r5 =>
                        if isc "}" c4 then Some (lazy mn (Some mx) r5) else None
                    | [] => None
                    end
              | [] => None
              end
            else None
        | [] => None
        end
      else Some (a, s)
  end.

Definition close (x : option (node * str * nat)) (f : node -> node)
  : option (node * str * nat) :=
  '(a, r, g) <- x ;;
  match r with
  | c :: r' => if isc ")" c then Some (f a, r', g) else None
  | [] => None
  end.

(** Disjunction, alternative and term of the pattern grammar; [g] is the
    number of capture groups opened so far, so that groups are numbered by
    their opening parenthesis from left to right. *)
Fixpoint disjunction (fuel : nat) (s : str) (g : nat)
  : option (node * str * nat) :=
  match fuel with
  | O => None
  | S f =>
      '(a, r, g1) <- alternative f s g ;;
      match r with
      | c :: r' =>
          if isc "|" c then
            '(b, r2, g2) <- disjunction f r' g1 ;; Some (Alt a b, r2, g2)
          else Some (a, r, g1)
      | [] => Some (a, r, g1)
      end
  end
with alternative (fuel : nat) (s : str) (g : nat)
  : option (node * str * nat) :=
  match fuel with
  | O => None
  | S f =>
      match s with
      | [] => Some (Empty, s, g)
      | c :: _ =>
          if isc "|" c || isc ")" c then Some (Empty, s, g)
          else
            '(a, r, g1) <- term f s g ;;
            '(b, r2, g2) <- alternative f r g1 ;;
            Some (match b with Empty => a | _ => Seq a b end, r2, g2)
      end
  end
with term (fuel : nat) (s : str) (g : nat) : option (node * str * nat) :=
  match fuel with
  | O => None
  | S f =>
      match s with
      | [] => None
      | c :: r =>
          '(a, r1, g1) <-
            (if isc "(" c then
               match r with
               | c1 :: c2 :: r' =>
                   if isc "?" c1 && isc ":" c2 then
                     close (disjunction f r' g) (fun a => a)
                   else if isc "?" c1 && isc "=" c2 then
                     close (disjunction f r' g) (Look true)
                   else if isc "?" c1 && isc "!" c2 then
                     close (disjunction f r' g) (Look false)
                   else if isc "?" c1 then None
                   else close (disjunction f r (S g)) (Group (S g))
               | _ => close (disjunction f r (S g)) (Group (S g))
               end
             else if isc "[" c then
               match r with
               | c1 :: r' =>
                   if isc "^" c1 then
                     '(items, r2) <- class_items (S (List.length r')) r' [] ;;
                     Some (Cls true items, r2, g)
                   else
                     '(items, r2) <- class_items (S (List.length r)) r [] ;;
                     Some (Cls false items, r2, g)
               | [] => None
               end
             else if isc "\" c then
               match r with
               | c1 :: r' =>
                   if isc "b" c1 then Some (Boundary false, r', g)
                   else if isc "B" c1 then Some (Boundary true, r', g)
                   else
                     '(a, r2) <- escape r ;;
                     Some (match a with
                           | CChar x => Chr x
                           | _ => Cls false [a]
                           end, r2, g)
               | [] => None
               end
             else if isc "." c then Some (Dot, r, g)
             else if isc "^" c then Some (Bol, r, g)
             else if isc "$" c then Some (Eol, r, g)
             else if isc "*" c || isc "+" c || isc "?" c || isc "{" c then None
             else Some (Chr c, r, g)) ;;
          '(q, r2) <- quantifier a r1 ;;
          Some (q, r2, g1)
      end
  end.

Definition read (src : string) : option node :=
  let s := js src in
  '(a, r, _) <- disjunction (S (S (List.length s))) s 0%nat ;;
  match r with
  | [] => Some a
  | _ => None
  end.

(** A pattern that cannot be read matches nothing; every pattern of the
    parser is read (lemma [patterns_read]). *)
Definition re (src : string) : node :=
  match read src with
  | Some a => a
  | None => Fail
  end.

(** *** Matching *)

(** The state of a match: the character before the current position (for
    [\b] and [^]), the text from the current position on and its length,
    the position, and the captures made so far. *)
Record mstate := {
  prev : option char;
  rest : str;
  left : nat;
  pos : N;
  caps : list (nat * str)
}.

(** [Canonicalize] under the [i] flag maps a character to its upper case.
    The table covers ASCII and Latin-1, which holds every letter the
    patterns of the parser name; no other code unit has one of those
    upper-case letters as its canonical form. *)
Definition upper (c : char) : char :=
  if ((97 <=? c) && (c <=? 122))%N then (c - 32)%N
  else if ((224 <=? c) && (c <=? 254) && negb (c =? 247))%N then (c - 32)%N
  else c.

Definition lower (c : char) : char :=
  if ((65 <=? c) && (c <=? 90))%N then (c + 32)%N
  else if ((192 <=? c) && (c <=? 222) && negb (c =? 215))%N then (c + 32)%N
  else c.

Definition item_has (it : citem) (c : char) : bool :=
  match it with
  | CChar x => (c =? x)%N
  | CRange lo hi => ((lo <=? c) && (c <=? hi))%N
  | CDigit neg => xorb neg (is_digit c)
  | CSpace neg => xorb neg (is_space c)
  | CWord neg => xorb neg (is_word c)
  end.

Definition cls_has (icase : bool) (items : list citem) (c : char) : bool :=
  existsb (fun it =>
             item_has it c
             || (icase && (item_has it (upper c) || item_has it (lower c))))
          items.

Definition advance (st : mstate) : mstate :=
  match rest st with
  | c :: r =>
      {| prev := Some c; rest := r; left := Nat.pred (left st);
         pos := N.succ (pos st); caps := caps st |}
  | [] => st
  end.

Fixpoint groups_of (r : node) : list nat :=
  match r with
  | Seq a b | Alt a b => groups_of a ++ groups_of b
  | Rep a _ _ _ | Look _ a => groups_of a
  | Group i a => i :: groups_of a
  | _ => []
  end.

Definition set_cap (i : nat) (v : str) (st : mstate) : mstate :=
  {| prev := prev st; rest := rest st; left := left st; pos := pos st;
     caps := (i, v) :: filter (fun p => negb (fst p =? i)%nat) (caps st) |}.

Definition clear_caps (gs : list nat) (st : mstate) : mstate :=
  {| prev := prev st; rest := rest st; left := left st; pos := pos st;
     caps := filter (fun p => negb (existsb (Nat.eqb (fst p)) gs)) (caps st) |}.

Definition is_word_opt (c : option char) : bool :=
  match c with
  | Some x => is_word x
  | None => false
  end.

(** The RepeatMatcher of the specification, over the matcher [m] of the
    repeated term: an iteration runs [m] with the captures of the term
    cleared; once the minimum is reached an iteration that consumes
    nothing is rejected, so the number of iterations is bounded by the
    minimum plus the length of the text left, which is the fuel [run]
    gives to the loop. *)
Fixpoint rep_loop (m : mstate -> (mstate -> option mstate) -> option mstate)
  (gs : list nat) (greedy : bool) (fuel : nat) (mn : nat) (mx : option nat)
  (st : mstate) (k : mstate -> option mstate) {struct fuel} : option mstate :=
  match fuel with
  | O => None
  | S f =>
      match mx with
      | Some O => k st
      | _ =>
          let iter (_ : unit) :=
            m (clear_caps gs st)
              (fun st' =>
                 if (mn =? 0)%nat && (pos st' =? pos st)%N then None
                 else rep_loop m gs greedy f (Nat.pred mn)
                               (option_map Nat.pred mx) st' k) in
          if (0 <? mn)%nat then iter tt
          else if greedy then
            match iter tt with
            | Some res => Some res
            | None => k st
            end
          else
            match k st with
            | Some res => Some res
            | None => iter tt
            end
      end
  end.

Section Run.

Variable icase : bool.

Definition canon (c : char) : char := if icase then upper c else c.

(** [run r st k]: match [r] at [st] and hand the state after it to the
    continuation [k]; a failure of [k] makes [r] try its next choice. *)
Fixpoint run (r : node) (st : mstate) (k : mstate -> option mstate)
  {struct r} : option mstate :=
  match r with
  | Empty => k st
  | Fail => None
  | Chr c =>
      match rest st with
      | x :: _ => if (canon x =? canon c)%N then k (advance st) else None
      | [] => None
      end
  | Dot =>
      match rest st with
      | x :: _ => if is_line_terminator x then None else k (advance st)
      | [] => None
      end
  | Cls neg items =>
      match rest st with
      | x :: _ => if xorb neg (cls_has icase items x) then k (advance st) else None
      | [] => None
      end
  | Seq a b => run a st (fun st' => run b st' k)
  | Alt a b =>
      match run a st k with
      | Some res => Some res
      | None => run b st k
      end
  | Group i a =>
      run a st (fun st' =>
                  k (set_cap i (firstn (N.to_nat (pos st' - pos st)) (rest st)) st'))
  | Look positive a =>
      match run a st (fun st' => Some st') with
      | Some st' =>
          if positive then
            k {| prev := prev st; rest := rest st; left := left st;
                 pos := pos st; caps := caps st' |}
          else None
      | None => if positive then None else k st
      end
  | Boundary neg =>
      let a := is_word_opt (prev st) in
      let b := is_word_opt (hd_error (rest st)) in
      if xorb neg (xorb a b) then k st else None
  | Bol => match prev st with None => k st | Some _ => None end
  | Eol => match rest st with [] => k st | _ :: _ => None end
  | Rep a mn mx greedy =>
      rep_loop (run a) (groups_of a) greedy
               (mn + S (left st))%nat mn mx st k
  end.

End Run.

(** *** Regular expression objects and the string methods that use them *)

Record regexp := { pattern : node; ignoreCase : bool }.

Definition rx (src : string) : regexp := {| pattern := re src; ignoreCase := false |}.
Definition rxi (src : string) : regexp := {| pattern := re src; ignoreCase := true |}.

(** A match: its start, its end, the matched text and the captures. *)
Record mres := {
  index : N;
  lastIndex : N;
  matched : str;
  groups : list (nat * str)
}.

(** A match that starts at position [i], where [s] is the text from [i]
    on, [n] its length and [p] the character before it. *)
Definition match_here (r : regexp) (p : option char) (s : str) (n : nat)
  (i : N) : option mres :=
  match run (ignoreCase r) (pattern r)
            {| prev := p; rest := s; left := n; pos := i; caps := [] |}
            (fun st => Some st) with
  | Some st =>
      Some {| index := i; lastIndex := pos st;
              matched := firstn (N.to_nat (pos st - i)) s; groups := caps st |}
  | None => None
  end.

(** The leftmost match at or after position [i]. *)
Fixpoint search (r : regexp) (p : option char) (s : str) (n : nat) (i : N)
  : option mres :=
  match match_here r p s n i with
  | Some m => Some m
  | None =>
      match s with
      | [] => None
      | c :: s' => search r (Some c) s' (Nat.pred n) (N.succ i)
      end
  end.

(** [s.match(r)] and [r.exec(s)] for a pattern without the [g] flag. *)
Definition exec (r : regexp) (s : str) : option mres :=
  search r None s (List.length s) 0%N.

(** [r.test(s)] *)
Definition test (r : regexp) (s : str) : bool :=
  match exec r s with
  | Some _ => true
  | None => false
  end.

(** [m[i]]: [None] is [undefined]. *)
Definition group (m : mres) (i : nat) : option str :=
  match find (fun p => (fst p =? i)%nat) (groups m) with
  | Some p => Some (snd p)
  | None => None
  end.

(** ToBoolean on [m[i]]: a capture that took part and is not empty. *)
Definition group_truthy (m : mres) (i : nat) : option str :=
  match group m i with
  | Some (c :: r) => Some (c :: r)
  | _ => None
  end.

(** Successive matches of a pattern with the [g] flag: the search resumes
    at the end of the previous match, one position further after an empty
    match. *)
Fixpoint exec_all (fuel : nat) (r : regexp) (p : option char) (s : str)
  (i : N) : list mres :=
  match fuel with
  | O => []
  | S f =>
      match search r p s (List.length s) i with
      | None => []
      | Some m =>
          let e := if (lastIndex m =? index m)%N then N.succ (lastIndex m)
                   else lastIndex m in
          let d := N.to_nat (e - i) in
          if (List.length s <? d)%nat then [m]
          else
            let p' := match rev (firstn d s) with
                      | c :: _ => Some c
                      | [] => p
                      end in
            m :: exec_all f r p' (skipn d s) e
      end
  end.

(** [s.replace(r, repl)] for a pattern with the [g] flag and a replacement
    text without [$] patterns: every match, found on the original text,
    is replaced. *)
Fixpoint splice (ms : list mres) (s : str) (i : N) (repl : str) : str :=
  match ms with
  | [] => s
  | m :: ms' =>
      firstn (N.to_nat (index m - i)) s ++ repl
        ++ splice ms' (skipn (N.to_nat (lastIndex m - i)) s) (lastIndex m) repl
  end.

Definition matches_g (r : regexp) (s : str) : list mres :=
  exec_all (S (S (List.length s))) r None s 0%N.

Definition replace_all (r : regexp) (repl : str) (s : str) : str :=
  splice (matches_g r s) s 0%N repl.

End Regex.
Import Regex.

(** ** The parser *)

Record ReceiptData := {
  rawText : str;
  amount : option number;
  subtotalAmount : option number;
  taxAmount : option number;
  taxPercentage : option number;
  invoiceNumber : option str;
  date : option str;
  vendorName : option str
}.

Definition set_amount (v : number) (d : ReceiptData) : ReceiptData :=
  {| rawText := rawText d; amount := Some v;
     subtotalAmount := subtotalAmount d; taxAmount := taxAmount d;
     taxPercentage := taxPercentage d; invoiceNumber := invoiceNumber d;
     date := date d; vendorName := vendorName d |}.

Definition set_subtotalAmount (v : number) (d : ReceiptData) : ReceiptData :=
  {| rawText := rawText d; amount := amount d;
     subtotalAmount := Some v; taxAmount := taxAmount d;
     taxPercentage := taxPercentage d; invoiceNumber := invoiceNumber d;
     date := date d; vendorName := vendorName d |}.

Definition set_taxAmount (v : number) (d : ReceiptData) : ReceiptData :=
  {| rawText := rawText d; amount := amount d;
     subtotalAmount := subtotalAmount d; taxAmount := Some v;
     taxPercentage := taxPercentage d; invoiceNumber := invoiceNumber d;
     date := date d; vendorName := vendorName d |}.

Definition set_taxPercentage (v : number) (d : ReceiptData) : ReceiptData :=
  {| rawText := rawText d; amount := amount d;
     subtotalAmount := subtotalAmount d; taxAmount := taxAmount d;
     taxPercentage := Some v; invoiceNumber := invoiceNumber d;
     date := date d; vendorName := vendorName d |}.

Definition set_invoiceNumber (v : str) (d : ReceiptData) : ReceiptData :=
  {| rawText := rawText d; amount := amount d;
     subtotalAmount := subtotalAmount d; taxAmount := taxAmount d;
     taxPercentage := taxPercentage d; invoiceNumber := Some v;
     date := date d; vendorName := vendorName d |}.

Definition set_date (v : str) (d : ReceiptData) : ReceiptData :=
  {| rawText := rawText d; amount := amount d;
     subtotalAmount := subtotalAmount d; taxAmount := taxAmount d;
     taxPercentage := taxPercentage d; invoiceNumber := invoiceNumber d;
     date := Some v; vendorName := vendorName d |}.

Definition set_vendorName (v : str) (d : ReceiptData) : ReceiptData :=
  {| rawText := rawText d; amount := amount d;
     subtotalAmount := subtotalAmount d; taxAmount := taxAmount d;
     taxPercentage := taxPercentage d; invoiceNumber := invoiceNumber d;
     date := date d; vendorName := Some v |}.

(** ToBoolean on an optional number: [undefined], [0] and [NaN] are
    falsy. *)
Definition present (o : option number) : bool :=
  match o with
  | Some x => truthy x
  | None => false
  end.

(** ToBoolean on an optional string: [undefined] and the empty string are
    falsy. *)
Definition present_str (o : option str) : bool :=
  match o with
  | Some (_ :: _) => true
  | _ => false
  end.

Definition zero : number := S754_zero false.

(** [/,/g] and [/\./g] *)
Definition commaPattern : regexp := rx ",".
Definition dotPattern : regexp := rx "\.".

(** [s.replace(/,/g, '')] *)
Definition strip_commas (s : str) : str := replace_all commaPattern [] s.

(** *** normalize (lines 17-29) *)

(** The chain of [replace] calls, each with its replacement text. *)
Definition normalizeSteps : list (regexp * str) := [
  (rx "\r", [LF]);
  (rx "\bO(?=\d)", js "0");
  (rx "\bI(?=\d)", js "1");
  (rx "\bS(?=\d)", js "5");
  (rx "[\u00A0\t]+", js " ");
  (rx "\u2013|\u2014", js "-");
  (rx "\s+\n", [LF]);
  (rx "\n{2,}", [LF])
].

Definition normalize (txt : str) : str :=
  trim (fold_left (fun t step => replace_all (fst step) (snd step) t)
                  normalizeSteps txt).

(** *** parseCurrency (lines 34-67) *)
Definition symbolPattern : regexp := rx "[^0-9,\.\-]".
Definition dotThousandsPattern1 : regexp := rx "\d+\.\d{3},\d{2}$".
Definition dotThousandsPattern2 : regexp := rx "\d{1,3}(?:\.\d{3})+,\d{2}$".
Definition commaDecimalPattern : regexp := rx "\d+,\d{1,2}$".

Definition parseCurrency (str0 : str) : number :=
  match str0 with
  | [] => NaN
  | _ =>
      let s := trim str0 in
      let s := replace_all symbolPattern [] s in
      let hasDot := contains (ch ".") s in
      let hasComma := contains (ch ",") s in
      let s :=
        if hasDot && hasComma then
          if test dotThousandsPattern1 s || test dotThousandsPattern2 s
          then replace_all commaPattern (js ".") (replace_all dotPattern [] s)
          else replace_all commaPattern [] s
        else if hasComma && negb hasDot then
          if test commaDecimalPattern s
          then replace_all commaPattern (js ".") s
          else replace_all commaPattern [] s
        else replace_all commaPattern [] s in
      let v := parseFloat s in
      if isNaN v then NaN else v
  end.

(** *** Money candidates (lines 70-83) *)
Definition moneyPattern : regexp :=
  rxi "(?:\$|USD|EUR|€|GBP|£)?\s*([0-9]{1,3}(?:[.,\s][0-9]{3})*(?:[.,][0-9]{1,2})?)".

(** The [exec] loop of lines 73-80.  [moneyPattern] needs at least one
    digit, so no match is empty and [lastIndex] always advances. *)
Definition moneyMatches (raw : str) : list number :=
  flat_map
    (fun m =>
       match group_truthy m 1 with
       | Some g =>
           let val := parseFloat (strip_commas g) in
           if isNaN val then [] else [val]
       | None => []
       end)
    (matches_g moneyPattern raw).

(** [sort((a, b) => b - a)]: [x] stays before [y] unless [y - x > 0]. *)
Fixpoint insert_desc (x : number) (l : list number) : list number :=
  match l with
  | [] => [x]
  | y :: l' =>
      if gtb (sub y x) zero then y :: insert_desc x l' else x :: l
  end.

Definition sort_desc (l : list number) : list number :=
  fold_right insert_desc [] l.

Definition sortedAmounts (raw : str) : list number :=
  sort_desc (moneyMatches raw).

Definition maxAmount (raw : str) : option number := hd_error (sortedAmounts raw).

(** *** Totals section (lines 87-92) *)
Definition desglosePattern : regexp :=
  rxi "(desglose\s+itbms|valor\s+total|totals?|amounts?\s+breakdown)([\s\S]*)".

Definition totalsSectionPattern : regexp :=
  rxi "(valor\s+total|total\s+pagado|desglose|totals?|amount\s+paid)([\s\S]*?)(?:forma\s+de\s+pago|payment\s+method|p[aá]gina|page|$)".

Definition extractionText (text : str) : str :=
  let totalsSection :=
    match exec desglosePattern text with
    | Some m => match group m 2 with Some g => g | None => [] end
    | None => text
    end in
  match exec totalsSectionPattern text with
  | Some m => match group m 2 with Some g => g | None => [] end
  | None => totalsSection
  end.

(** *** 1. Subtotal (lines 95-115) *)
Definition subtotalPatterns : list regexp := [
  rxi "monto\s+gravado\s+(?:itbms|tbws)[^\d]*([\d,\.]+)?";
  rxi "monto\s*base[^\d]*([\d,\.]+)?";
  rxi "sub[\s-]?total[:\s]*\$?\s*([\d,\.]+)?";
  rxi "subtotal[:\s]*\$?\s*([\d,\.]+)?";
  rxi "importe\s*base[:\s]*\$?\s*([\d,\.]+)?";
  rxi "base\s*imponible[:\s]*\$?\s*([\d,\.]+)?";
  rxi "amount\s*before\s*tax[:\s]*\$?\s*([\d,\.]+)?";
  rxi "amount\s*net[:\s]*\$?\s*([\d,\.]+)?"
].

Fixpoint extract_subtotal (ps : list regexp) (txt : str) (d : ReceiptData)
  : ReceiptData :=
  match ps with
  | [] => d
  | p :: ps' =>
      match exec p txt with
      | Some m =>
          match group_truthy m 1 with
          | Some g =>
              let value := parseFloat (strip_commas g) in
              if gtb value zero then set_subtotalAmount value d
              else extract_subtotal ps' txt d
          | None => extract_subtotal ps' txt d
          end
      | None => extract_subtotal ps' txt d
      end
  end.

(** *** 2. Tax percentage (lines 118-139) *)
Definition taxPercentPatterns : list regexp := [
  rxi "(\d{1,2}(?:\.\d+)?)\s*%\s*(?:tax|impuesto|iva|itbms|vat|gst)?";
  rxi "(?:tax|impuesto|iva|itbms|vat|gst)[:\s]*(\d{1,2}(?:\.\d+)?)\s*%";
  rxi "rate[:\s]*(\d{1,2}(?:\.\d+)?)\s*%";
  rxi "(\d{1,2}(?:\.\d+)?)\s*%"
].

Fixpoint extract_taxPercentage (ps : list regexp) (txt : str)
  (d : ReceiptData) : ReceiptData :=
  match ps with
  | [] => d
  | p :: ps' =>
      match exec p txt with
      | Some m =>
          let percentValue :=
            match group_truthy m 2 with
            | Some g => Some g
            | None => group_truthy m 1
            end in
          match percentValue with
          | Some g =>
              let percent := parseFloat g in
              if geb percent zero && leb percent (dec 25 0)
              then set_taxPercentage percent d
              else extract_taxPercentage ps' txt d
          | None => extract_taxPercentage ps' txt d
          end
      | None => extract_taxPercentage ps' txt d
      end
  end.

(** *** 3. Tax amount (lines 142-179) *)
Definition taxAmountPatterns : list regexp := [
  rxi "([\\d,]+\\.\\d{2})\\s+total\\s+([\\d,]+\\.?\\d*)";
  rx "([\d,]+\.?\d*)\s*\|\s*(\d+)\s*\|\s*([\d,]+\.?\d*)";
  rxi "total\s+impuesto[^\d]*([\d,]+\.?\d*)";
  rxi "toul\s+impusstel[^\d]*([\d,]+\.?\d*)";
  rxi "total\s+tax[^\d]*([\d,]+\.?\d*)";
  rxi "(?:itbms|impuesto|iva|vat|sales\s+tax|gst)(?!.*unitario)[^\d]*(\d{1,3}(?:[.,]\d{3})*(?:[.,]\d{1,2})?)(?:\s|$)";
  rxi "tax[:\s]*([\d,\.]+)\s*(?:amount)?"
].

(** The candidate of lines 158-168; [None] is [null]. *)
Definition taxValue_of (m : mres) : option number :=
  match group_truthy m 3 with
  | Some g3 => Some (parseFloat (strip_commas g3))
  | None =>
      match group_truthy m 2, group_truthy m 1 with
      | Some g2, Some g1 =>
          let val1 := parseFloat (strip_commas g1) in
          let val2 := parseFloat (strip_commas g2) in
          if ltb val1 val2 then Some val1 else None
      | _, Some g1 => Some (parseFloat (strip_commas g1))
      | _, None => None
      end
  end.

(** The guard of lines 170-172. *)
Definition taxValue_accepted (taxValue : number) (d : ReceiptData) : bool :=
  geb taxValue zero
  && (negb (present (amount d))
      || match amount d with Some a => ltb taxValue a | None => false end)
  && (negb (present (subtotalAmount d))
      || match subtotalAmount d with Some s => ltb taxValue s | None => false end).

Fixpoint extract_taxAmount (ps : list regexp) (txt : str) (d : ReceiptData)
  : ReceiptData :=
  match ps with
  | [] => d
  | p :: ps' =>
      match exec p txt with
      | Some m =>
          match taxValue_of m with
          | Some taxValue =>
              if taxValue_accepted taxValue d then set_taxAmount taxValue d
              else extract_taxAmount ps' txt d
          | None => extract_taxAmount ps' txt d
          end
      | None => extract_taxAmount ps' txt d
      end
  end.

(** *** 4. Total (lines 182-212) *)
Definition totalPatterns : list regexp := [
  rxi "total\s+pagado[:\s]*\$?\s*([\d,\.]+)";
  rxi "valor\s+total[:\s]*\$?\s*([\d,\.]+)";
  rxi "total(?:\s+a\s+pagar)?[:\s]*\$?\s*([\d,\.]+)";
  rxi "total\s+general[:\s]*\$?\s*([\d,\.]+)";
  rxi "importe\s+total[:\s]*\$?\s*([\d,\.]+)";
  rxi "gran\s+total[:\s]*\$?\s*([\d,\.]+)";
  rxi "amount\s+paid[:\s]*\$?\s*([\d,\.]+)";
  rxi "total[:\s]*\$?\s*([\d,\.]+)"
].

Fixpoint extract_total (ps : list regexp) (raw : str) (d : ReceiptData)
  : ReceiptData :=
  match ps with
  | [] => d
  | p :: ps' =>
      match exec p raw with
      | Some m =>
          match group_truthy m 1 with
          | Some g =>
              let parsed := parseCurrency g in
              if negb (isNaN parsed) then set_amount parsed d
              else extract_total ps' raw d
          | None => extract_total ps' raw d
          end
      | None => extract_total ps' raw d
      end
  end.

(** Lines 205-207: the largest money candidate when no total was found. *)
Definition total_fallback (mx : option number) (d : ReceiptData) : ReceiptData :=
  match mx with
  | Some v => if negb (present (amount d)) && truthy v then set_amount v d else d
  | None => d
  end.

(** Lines 210-212. *)
Definition total_clean (d : ReceiptData) : ReceiptData :=
  match amount d with
  | Some a => if truthy a then set_amount (round2 a) d else d
  | None => d
  end.

(** *** 5. Date (lines 215-227) *)
Definition labeledDatePattern : regexp :=
  rxi "(?:fecha|date|fecha\s+de)[^\dA-Za-z]*(\d{1,2}[\/\-]\d{1,2}[\/\-]\d{2,4}|\d{4}[\/\-]\d{1,2}[\/\-]\d{1,2})".

Definition monthNames : string :=
  "(?:enero|febrero|marzo|abril|mayo|junio|julio|agosto|septiembre|octubre|noviembre|diciembre|jan|feb|mar|apr|may|jun|jul|aug|sep|oct|nov|dec|january|february|march|april|may|june|july|august|september|october|november|december)".

(** The pattern built by [new RegExp(..., 'i')]; the doubled backslashes of
    the string literal are single ones in the pattern. *)
Definition datePattern : regexp :=
  rxi (String.append "(\d{1,2}[\/\-]\d{1,2}[\/\-]\d{2,4})|(?:(?:"
         (String.append monthNames ")\s+\d{1,2},?\s+\d{4})")).

Definition extract_date (text : str) (d : ReceiptData) : ReceiptData :=
  match exec labeledDatePattern text with
  | Some m =>
      match group_truthy m 1 with
      | Some g => set_date g d
      | None =>
          match exec datePattern text with
          | Some m' => set_date (matched m') d
          | None => d
          end
      end
  | None =>
      match exec datePattern text with
      | Some m' => set_date (matched m') d
      | None => d
      end
  end.

(** *** 6. Vendor name (lines 230-263) *)
Definition vendorPatterns : list regexp := [
  rxi "(?:emisor|raz[oó]n\s+social|rnc|nit)[:\s]*([^\n]+)";
  rxi "(?:vendor|vendedor|supplier|supplier\s+name|nombre)[:\s]*([^\n]+)";
  rxi "(?:empresa|company|business)[:\s]*([^\n]+)";
  rxi "(?:nombre\s+comercial|trade\s+name)[:\s]*([^\n]+)"
].

Fixpoint extract_vendor (ps : list regexp) (raw : str) (d : ReceiptData)
  : ReceiptData :=
  match ps with
  | [] => d
  | p :: ps' =>
      match exec p raw with
      | Some m =>
          match group_truthy m 1 with
          | Some g => set_vendorName (trim g) d
          | None => extract_vendor ps' raw d
          end
      | None => extract_vendor ps' raw d
      end
  end.

Definition digitPattern : regexp := rx "\d".
Definition letterPattern : regexp := rx "[A-Za-z]".

Definition skipPatterns : list regexp := [
  rxi "factura"; rxi "invoice"; rxi "receipt"; rxi "comprobante";
  rxi "fecha"; rxi "date"; rxi "folio"; rxi "pag[ia]na"; rxi "http";
  rx "^\d+$"; rx "^[A-Z]$"; rxi "ticket"
].

Fixpoint first_vendor_line (lines : list str) (d : ReceiptData) : ReceiptData :=
  match lines with
  | [] => d
  | line :: lines' =>
      if (List.length line <? 3)%nat || existsb (fun p => test p line) skipPatterns
      then first_vendor_line lines' d
      else if test digitPattern line && test letterPattern line
              && (List.length line <? 6)%nat
      then first_vendor_line lines' d
      else set_vendorName line d
  end.

Definition vendor_fallback (text : str) (d : ReceiptData) : ReceiptData :=
  if negb (present_str (vendorName d)) then
    let lines :=
      filter (fun l => (0 <? List.length l)%nat)
             (List.map trim (split_lines text)) in
    first_vendor_line lines d
  else d.

(** *** 7. Invoice number (lines 266-290) *)
Definition invoicePatterns : list regexp := [
  rxi "n[uú]mero[:\s]*([0-9A-Z-]{3,})";
  rxi "invoice\s*(?:no\.?|n[uú]m\.?|#)?[:\s]*([0-9A-Z-]{3,})";
  rxi "inv\.?\s*#[:\s]*([0-9A-Z-]{3,})";
  rxi "receipt\s*#[:\s]*([0-9A-Z-]{3,})";
  rxi "order\s*#[:\s]*([0-9A-Z-]{3,})";
  rxi "folio[:\s#]*([0-9A-Z-]{3,})";
  rxi "serie[:\s#]*([0-9A-Z-]{3,})";
  rxi "consecutivo[:\s#]*([0-9A-Z-]{3,})"
].

Definition dateShapedPattern : regexp := rx "^\d{1,2}[/-]\d{1,2}[/-]\d{2,4}$".
Definition genericWordPattern : regexp := rxi "^(electronica|interna|auxiliar)$".
Definition cionPattern : regexp := rxi "cion$".

Fixpoint extract_invoice (ps : list regexp) (raw : str) (d : ReceiptData)
  : ReceiptData :=
  match ps with
  | [] => d
  | p :: ps' =>
      match exec p raw with
      | Some m =>
          match group_truthy m 1 with
          | Some g =>
              let candidate := trim g in
              if negb (test dateShapedPattern candidate)
                 && negb (test genericWordPattern candidate)
                 && negb (test cionPattern candidate)
                 && test digitPattern candidate
              then set_invoiceNumber candidate d
              else extract_invoice ps' raw d
          | None => extract_invoice ps' raw d
          end
      | None => extract_invoice ps' raw d
      end
  end.

(** *** Extraction (lines 12-290), in the order of the source *)
Definition extract (raw : str) : ReceiptData :=
  let data :=
    {| rawText := raw; amount := None; subtotalAmount := None;
       taxAmount := None; taxPercentage := None; invoiceNumber := None;
       date := None; vendorName := None |} in
  let text := normalize raw in
  let txt := extractionText text in
  let data := extract_subtotal subtotalPatterns txt data in
  let data := extract_taxPercentage taxPercentPatterns txt data in
  let data := extract_taxAmount taxAmountPatterns txt data in
  let data := extract_total totalPatterns raw data in
  let data := total_fallback (maxAmount raw) data in
  let data := total_clean data in
  let data := extract_date text data in
  let data := extract_vendor vendorPatterns raw data in
  let data := vendor_fallback text data in
  extract_invoice invoicePatterns raw data.

(** *** Post-processing (lines 302-398) *)

Definition hundred : number := dec 100 0.
Definition one : number := dec 1 0.

Definition zeroTaxPattern : regexp := rxi "(?:itbms|tax|impuesto)[^0-9]*0+\.0+".

Definition zeroTaxMatch (raw : str) : bool := test zeroTaxPattern raw.

(** Paso 1 (lines 303-311) *)
Definition step1 (zeroTax : bool) (d : ReceiptData) : ReceiptData :=
  if present (amount d) && negb (present (taxAmount d))
     && negb (present (taxPercentage d))
  then
    if zeroTax then
      match amount d with
      | Some a => set_subtotalAmount a (set_taxPercentage zero (set_taxAmount zero d))
      | None => d
      end
    else d
  else d.

(** Paso 2 (lines 314-317) *)
Definition step2 (d : ReceiptData) : ReceiptData :=
  match amount d, taxAmount d with
  | Some a, Some t =>
      if negb (present (subtotalAmount d))
      then set_subtotalAmount (round2 (sub a t)) d
      else d
  | _, _ => d
  end.

(** Paso 2.5 (lines 320-330) *)
Definition step2_5 (d : ReceiptData) : ReceiptData :=
  match amount d, taxPercentage d with
  | Some a, Some p =>
      if negb (present (subtotalAmount d)) && truthy a && truthy p then
        let subtotal := div a (add one (div p hundred)) in
        let s := round2 subtotal in
        let d := set_subtotalAmount s d in
        match taxAmount d with
        | None => set_taxAmount (round2 (sub a s)) d
        | Some _ => d
        end
      else d
  | _, _ => d
  end.

(** Paso 3 (lines 333-346) *)
Definition step3 (d : ReceiptData) : ReceiptData :=
  match subtotalAmount d, taxPercentage d with
  | Some s, Some p =>
      if truthy s then
        let calculatedTax := round2 (mul s (div p hundred)) in
        match taxAmount d with
        | Some t =>
            let diff := abs (sub calculatedTax t) in
            if gtb diff (dec 5 (-2)) then set_taxAmount calculatedTax d else d
        | None => set_taxAmount calculatedTax d
        end
      else d
  | _, _ => d
  end.

(** Paso 4 (lines 349-352) *)
Definition step4 (d : ReceiptData) : ReceiptData :=
  match taxAmount d, amount d, subtotalAmount d with
  | None, Some a, Some s =>
      if truthy a && truthy s then set_taxAmount (round2 (sub a s)) d else d
  | _, _, _ => d
  end.

(** Paso 5 (lines 355-358) *)
Definition step5 (d : ReceiptData) : ReceiptData :=
  match taxAmount d, subtotalAmount d with
  | Some t, Some s =>
      if negb (present (taxPercentage d)) && truthy s && gtb s zero
      then set_taxPercentage (round2 (mul (div t s) hundred)) d
      else d
  | _, _ => d
  end.

(** Paso 6 (lines 361-364) *)
Definition step6 (d : ReceiptData) : ReceiptData :=
  match subtotalAmount d, taxAmount d with
  | Some s, Some t =>
      if negb (present (amount d)) && truthy s
      then set_amount (round2 (add s t)) d
      else d
  | _, _ => d
  end.

(** Paso 7 (lines 367-381) *)
Definition step7 (d : ReceiptData) : ReceiptData :=
  match subtotalAmount d, taxAmount d, amount d with
  | Some s, Some t, Some a =>
      if truthy s && truthy a then
        let calculatedTotal := round2 (add s t) in
        let diff := abs (sub calculatedTotal a) in
        if gtb diff (dec 10 (-2)) then
          let t' := round2 (sub a s) in
          let d := set_taxAmount t' d in
          if gtb s zero
          then set_taxPercentage (round2 (mul (div t' s) hundred)) d
          else d
        else d
      else d
  | _, _, _ => d
  end.

(** Paso 8 (lines 384-398) *)
Definition step8 (sorted : list number) (d : ReceiptData) : ReceiptData :=
  match amount d with
  | Some a =>
      if negb (present (subtotalAmount d)) then
        match nth_error sorted 1 with
        | Some second =>
            if ltb second a && gtb second zero then
              let d := set_subtotalAmount second d in
              if negb (present (taxAmount d))
              then set_taxAmount (round2 (sub a second)) d
              else d
            else set_subtotalAmount a d
        | None => set_subtotalAmount a d
        end
      else d
  | None => d
  end.

(** Steps 1 to 7: everything before the last-resort fallback. *)
Definition reconcile (zeroTax : bool) (d : ReceiptData) : ReceiptData :=
  step7 (step6 (step5 (step4 (step3 (step2_5 (step2 (step1 zeroTax d))))))).

Definition postprocess (zeroTax : bool) (sorted : list number)
  (d : ReceiptData) : ReceiptData :=
  step8 sorted (reconcile zeroTax d).

(** *** parse (lines 8-409) *)
Definition parse (raw : str) : ReceiptData :=
  postprocess (zeroTaxMatch raw) (sortedAmounts raw) (extract raw).

(** Every pattern of the parser. *)
Definition all_patterns : list regexp :=
  commaPattern :: dotPattern :: symbolPattern :: dotThousandsPattern1
    :: dotThousandsPattern2 :: commaDecimalPattern :: moneyPattern
    :: desglosePattern :: totalsSectionPattern :: labeledDatePattern
    :: datePattern :: digitPattern :: letterPattern :: dateShapedPattern
    :: genericWordPattern :: cionPattern :: zeroTaxPattern
    :: List.map fst normalizeSteps
    ++ subtotalPatterns ++ taxPercentPatterns ++ taxAmountPatterns
    ++ totalPatterns ++ vendorPatterns ++ skipPatterns ++ invoicePatterns.

Definition not_fail (r : regexp) : bool :=
  match pattern r with
  | Fail => false
  | _ => true
  end.


(** Numbers and matches are evaluated by [vm_compute] only. *)
Arguments dec : simpl never.
Arguments of_decimal : simpl never.
Arguments add : simpl never.
Arguments sub : simpl never.
Arguments mul : simpl never.
Arguments div : simpl never.
Arguments abs : simpl never.
Arguments ltb : simpl never.
Arguments leb : simpl never.
Arguments gtb : simpl never.
Arguments geb : simpl never.
Arguments round2 : simpl never.
Arguments parseFloat : simpl never.
Arguments toFixed2 : simpl never.
Arguments parseCurrency : simpl never.
Arguments hundred : simpl never.
Arguments one : simpl never.
Arguments zero : simpl never.
Arguments exec : simpl never.
Arguments test : simpl never.
Arguments replace_all : simpl never.
Arguments strip_commas : simpl never.
Arguments js : simpl never.
Arguments re : simpl never.
Arguments rx : simpl never.
Arguments rxi : simpl never.

(** ** Inputs of the scenarios *)

(** Scenario A of the specification. *)
Definition scenarioA : str :=
  unlines ["Acme Corp"; "Subtotal: $100.00"; "Tax 7%"; "Total: $107.00"].

(** Scenario B: a zero tax line and a total, no subtotal line. *)
Definition scenarioB : str := unlines ["ITBMS 0.00"; "Total: $50.00"].

(** Scenario C: subtotal 100.00, tax 5.00, total 110.00. *)
Definition scenarioC : str :=
  unlines ["Total: 110.00"; "Subtotal: 100.00"; "Tax: 5.00"].

(** Scenario D: only a total. *)
Definition scenarioD : str := js "Total $88.00".

(** The two-number form after the anchor "Desglose". *)
Definition desgloseText : str := unlines ["Desglose"; "7.00 total 107.00"].


(** A subtotal and a tax of three decimals. *)
Definition roundedSum : str :=
  unlines ["Total: 0.35"; "Subtotal: 0.204"; "Tax: 0.044"].

(** A subtotal that is a tenth of the total. *)
Definition smallSubtotal : str := unlines ["Total: 100.00"; "Subtotal: 10.00"].

(** A total of 309 digits, above the largest finite number, after a totals
    block that holds a tax rate. *)
Definition hugeTotal : str :=
  unlines ["Totals"; "7%"; "Page 1"] ++ LF :: js "Total: " ++ repeat (ch "9") 309.

(** ** The properties of the specification *)

(** What the specification asks of the returned record. *)

(** Reconciliation closure: [|subtotal + tax - total| <= 0.10] on the exact
    values, whenever the three fields are present. *)
Definition closure (d : ReceiptData) : Prop :=
  forall s t a,
    subtotalAmount d = Some s -> taxAmount d = Some t -> amount d = Some a ->
    exists qs qt qa,
      to_Q s = Some qs /\ to_Q t = Some qt /\ to_Q a = Some qa
      /\ (Qabs (qs + qt - qa) <= 1 # 10)%Q.


(** The dot-thousands, comma-decimal shape of a numeric token: a first
    group of one to three digits, one or more groups of three digits each
    after a dot, a comma and two decimals. *)
Definition digit_string (s : str) : Prop :=
  Forall (fun c => is_digit c = true) s.

Definition thousands_group (g : str) : Prop :=
  List.length g = 3%nat /\ digit_string g.

Definition dot_thousands (g0 : str) (gs : list str) (d1 d2 : char) : str :=
  g0 ++ List.concat (List.map (cons (ch ".")) gs) ++ [ch ","; d1; d2].

(** The integer written by a string of digits. *)
Definition digit_step (acc : Z) (c : char) : Z :=
  (acc * 10 + (Z.of_N c - 48))%Z.

Definition decimal_value (s : str) : Z := fold_left digit_step s 0%Z.

(** The characters [parseCurrency] keeps: digits, comma, dot, minus. *)
Definition kept (x : char) : bool :=
  is_digit x || (x =? 44)%N || (x =? 46)%N || (x =? 45)%N.

(** What a global replacement by a one-character pattern does to one
    character. *)
Definition subst1 (P : char -> bool) (repl : str) (x : char) : str :=
  if P x then repl else [x].

(** A state of the matcher without captures. *)
Definition mstate0 (p : option char) (r : str) (n : nat) (i : N) : mstate :=
  {| prev := p; rest := r; left := n; pos := i; caps := [] |}.

(** A pattern that matches exactly the single characters that satisfy
    [P]. *)
Definition one_char (r : regexp) (P : char -> bool) : Prop :=
  forall p s n i,
    match_here r p s n i =
    match s with
    | x :: _ =>
        if P x then
          Some {| index := i; lastIndex := N.succ i; matched := [x]; groups := [] |}
        else None
    | [] => None
    end.

(** A state of the matcher whose text and captures hold only characters
    that satisfy [A]. *)
Definition chars_ok (A : char -> Prop) (st : mstate) : Prop :=
  Forall A (rest st) /\ Forall (fun p => Forall A (snd p)) (caps st).

(** [needs c r]: every match of [r] reads an occurrence of the character
    [c] at or after the position where it starts. *)
Fixpoint needs (c : char) (r : node) : bool :=
  match r with
  | Chr x => (x =? c)%N
  | Seq a b => needs c a || needs c b
  | Alt a b => needs c a && needs c b
  | Rep a mn mx _ =>
      (0 <? mn)%nat
      && negb (match mx with Some O => true | _ => false end)
      && needs c a
  | Group _ a => needs c a
  | Look true a => needs c a
  | _ => false
  end.

Definition backslash : char := 92%N.

(** The characters that [normalize] writes. *)
Definition normalizeWrites : str := List.concat (List.map snd normalizeSteps).

(** The three text fields of a record hold only characters that satisfy
    [A]. *)
Definition labels_ok (A : char -> Prop) (d : ReceiptData) : Prop :=
  (forall v, vendorName d = Some v -> Forall A v)
  /\ (forall v, invoiceNumber d = Some v -> Forall A v)
  /\ (forall v, date d = Some v -> Forall A v).

(** Lines 45-66 of [parseCurrency]: what is done with the text once the
    symbols are removed. *)
Definition parseCleaned (s : str) : number :=
  let hasDot := contains (ch ".") s in
  let hasComma := contains (ch ",") s in
  let s :=
    if hasDot && hasComma then
      if test dotThousandsPattern1 s || test dotThousandsPattern2 s
      then replace_all commaPattern (js ".") (replace_all dotPattern [] s)
      else replace_all commaPattern [] s
    else if hasComma && negb hasDot then
      if test commaDecimalPattern s
      then replace_all commaPattern (js ".") s
      else replace_all commaPattern [] s
    else replace_all commaPattern [] s in
  let v := parseFloat s in
  if isNaN v then NaN else v.

(** An amount with commas between groups of three digits and a decimal
    point, as in [1,234.56]. *)
Definition comma_thousands (g0 : str) (gs : list str) (d1 d2 : char) : str :=
  g0 ++ List.concat (List.map (cons (ch ",")) gs) ++ [ch "."; d1; d2].

(** The matcher stands inside the text [s]. *)
Definition suffix_of (s : str) (st : mstate) : Prop :=
  exists pre, s = pre ++ rest st.

(** An amount with dots between groups of three digits and a decimal comma
    followed by a single digit, as in [1.234,5]. *)
Definition dot_thousands_one (g0 : str) (gs : list str) (d : char) : str :=
  g0 ++ List.concat (List.map (cons (ch ".")) gs) ++ [ch ","; d].

(** The order that the comparator [(a, b) => b - a] asks for: [v] may
    follow [u] when [v - u] is not positive. *)
Definition may_follow (u v : number) : Prop := gtb (sub v u) zero = false.

(** A text with an invoice number. *)
Definition invoiceText : str :=
  unlines ["Acme Corp"; "Invoice #A-1234"; "Total: 10.00"].

(** ** The receipt routes (src/routes/receipts.routes.ts)

    The handlers run against the in-memory map [receipts]; what they get
    from outside (the uploaded file, [randomUUID()], the clock and the OCR
    provider) is passed in. *)
Module Routes.

Record UploadedFile := {
  path : str;
  originalname : str;
  mimetype : str
}.

Record ReceiptResult := {
  id : str;
  filename : str;
  uploadedAt : str;
  data : ReceiptData
}.

(** What a [catch] block may receive: an [AppError] or anything else. *)
Inductive thrown :=
| AppError (statusCode : N) (message : str)
| OtherError.

Inductive body :=
| Receipt (r : ReceiptResult)
| ReceiptList (l : list ReceiptResult)
| ErrorMessage (error : str).

(** [res.status(c).json(b)]; [res.json(b)] answers with status 200. *)
Record response := { status : N; json : body }.

(** The [fileFilter] of the upload (lines 20-27). *)
Definition allowed : list str :=
  [js "image/png"; js "image/jpeg"; js "image/jpg"; js "application/pdf"].

Definition fileFilter (file : UploadedFile) : thrown + bool :=
  if existsb (Str.eqb (mimetype file)) allowed then inr true
  else inl (AppError 400 (js "Only images and PDFs are allowed")).

(** [Map<string, ReceiptResult>]: the entries in insertion order; [set]
    on a key that is present replaces its value in place. *)
Definition store := list (str * ReceiptResult).

Fixpoint map_set (k : str) (v : ReceiptResult) (m : store) : store :=
  match m with
  | [] => [(k, v)]
  | (k', v') :: m' =>
      if Str.eqb k' k then (k', v) :: m' else (k', v') :: map_set k v m'
  end.

Fixpoint map_get (k : str) (m : store) : option ReceiptResult :=
  match m with
  | [] => None
  | (k', v') :: m' => if Str.eqb k' k then Some v' else map_get k m'
  end.

Definition map_values (m : store) : list ReceiptResult := List.map snd m.

(** The [catch] blocks: an [AppError] answers with its own status and
    message, anything else with 500 and the message of the route. *)
Definition answer_error (fallback : str) (e : thrown) : response :=
  match e with
  | AppError c m => {| status := c; json := ErrorMessage m |}
  | OtherError => {| status := 500; json := ErrorMessage fallback |}
  end.

(** POST /api/receipts (lines 44-93).  [ocr] is
    [getOcrProvider('tesseract').extractText]. *)
Definition post (file : option UploadedFile) (uuid now : str)
  (ocr : str -> thrown + str) (receipts : store) : response * store :=
  match file with
  | None =>
      (answer_error (js "Failed to process receipt")
                    (AppError 400 (js "No file uploaded")),
       receipts)
  | Some f =>
      match ocr (path f) with
      | inl e => (answer_error (js "Failed to process receipt") e, receipts)
      | inr rawText =>
          let result :=
            {| id := uuid; filename := originalname f; uploadedAt := now;
               data := parse rawText |} in
          ({| status := 200; json := Receipt result |},
           map_set uuid result receipts)
      end
  end.

(** GET /api/receipts/:id (lines 99-114). *)
Definition get (key : str) (receipts : store) : response :=
  match map_get key receipts with
  | Some receipt => {| status := 200; json := Receipt receipt |}
  | None =>
      answer_error (js "Failed to fetch receipt")
                   (AppError 404 (js "Receipt not found"))
  end.

(** GET /api/receipts (lines 120-130). *)
Definition list_all (receipts : store) : response :=
  {| status := 200; json := ReceiptList (map_values receipts) |}.

(** A run of the server: the uploads it receives, one after the other,
    starting from the empty map.  The two GET routes do not change the
    map. *)
Record upload := {
  file : option UploadedFile;
  uuid : str;
  now : str
}.

Definition serve (ocr : str -> thrown + str) (uploads : list upload) : store :=
  fold_left (fun receipts u => snd (post (file u) (uuid u) (now u) ocr receipts))
            uploads [].

(** [MockOcr.extractText] of the OCR service: the same text for every
    file. *)
Definition mockOcr (imagePath : str) : thrown + str :=
  inr (js "MOCK TEXT: TOTAL $88.00").

(** An upload, for the examples. *)
Definition sampleFile : UploadedFile :=
  {| path := js "uploads/3f2a"; originalname := js "receipt.png";
     mimetype := js "image/png" |}.

Definition sampleUpload : upload :=
  {| file := Some sampleFile; uuid := js "id-1";
     now := js "2024-01-01T00:00:00.000Z" |}.

End Routes.

(** A text without the word total: two prices. *)
Definition pricesText : str := unlines ["Acme Corp"; "12.50"; "3.00"].

(** A receipt whose three amounts agree. *)
Definition consistentText : str :=
  unlines ["Total: 110.00"; "Subtotal: 100.00"; "Tax: 10.00"].

(** A text in which no line feed comes right after a white-space
    character: no line ends with white space and no line is empty. *)
Fixpoint tidy (s : str) : bool :=
  match s with
  | w :: t =>
      match t with
      | c :: _ => negb (is_space w && (c =? LF)%N) && tidy t
      | [] => true
      end
  | [] => true
  end.

(** A text whose leading run of white space has no line feed. *)
Fixpoint quiet (s : str) : bool :=
  match s with
  | c :: t => if is_space c then negb (c =? LF)%N && quiet t else true
  | [] => true
  end.

(** A total with a tax amount, and a total with a tax rate. *)
Definition totalAndTax : str := unlines ["Total: 107.00"; "Tax: 7.00"].
Definition totalAndRate : str := unlines ["Total: 107.00"; "IVA 7%"].


(** ** Reading the patterns and the number literals *)

Lemma patterns_read : forallb not_fail all_patterns = true.
Proof. vm_compute. reflexivity. Qed.

Example dec_1234_56 : dec 123456 (-2) = S754_finite false 5429652300748554 (-42).
Proof. vm_compute. reflexivity. Qed.

Example dec_0_10 : dec 10 (-2) = S754_finite false 7205759403792794 (-56).
Proof. vm_compute. reflexivity. Qed.

Example toFixed2_ties_up : toFixed2 (dec 125 (-3)) = js "0.13".
Proof. vm_compute. reflexivity. Qed.

Example toFixed2_total_cleaning : toFixed2 (dec 199656 (-3)) = js "199.66".
Proof. vm_compute. reflexivity. Qed.

Example toFixed2_large : toFixed2 (dec 123 25) = js "1.23e+27".
Proof. vm_compute. reflexivity. Qed.

Example normalize_ocr_letters :
  normalize (js "  O5 I1 S5 xO5 ") = js "05 11 55 xO5".
Proof. vm_compute. reflexivity. Qed.

(** ** Field preservation through the extraction ladders *)














(** ** Global replacement by a one-character pattern *)

Lemma firstn_prefix (pre : str) x post :
  firstn (List.length pre) (pre ++ x :: post) = pre.
Proof.
  induction pre as [|y pre IH]; [reflexivity|].
  simpl List.length. rewrite <- app_comm_cons, firstn_cons, IH. reflexivity.
Qed.

Lemma firstn_past (pre : str) x post :
  firstn (S (List.length pre)) (pre ++ x :: post) = pre ++ [x].
Proof.
  induction pre as [|y pre IH]; [reflexivity|].
  simpl List.length. rewrite <- !app_comm_cons, firstn_cons, IH. reflexivity.
Qed.

Lemma skipn_past (pre : str) x post :
  skipn (S (List.length pre)) (pre ++ x :: post) = post.
Proof.
  induction pre as [|y pre IH]; [reflexivity|].
  simpl List.length. rewrite <- app_comm_cons, skipn_cons, IH. reflexivity.
Qed.

Lemma exec_all_S f r p s i :
  exec_all (S f) r p s i =
  match search r p s (List.length s) i with
  | None => []
  | Some m =>
      let e := if (lastIndex m =? index m)%N then N.succ (lastIndex m)
               else lastIndex m in
      let d := N.to_nat (e - i) in
      if (List.length s <? d)%nat then [m]
      else
        let p' := match rev (firstn d s) with
                  | c :: _ => Some c
                  | [] => p
                  end in
        m :: exec_all f r p' (skipn d s) e
  end.
Proof. reflexivity. Qed.

Lemma splice_cons m ms s i repl :
  splice (m :: ms) s i repl =
  firstn (N.to_nat (index m - i)) s ++ repl
    ++ splice ms (skipn (N.to_nat (lastIndex m - i)) s) (lastIndex m) repl.
Proof. reflexivity. Qed.

Section OneChar.

Variable r : regexp.
Variable P : char -> bool.
Hypothesis HP : one_char r P.
Variable repl : str.

Lemma search_nil p n i : search r p [] n i = None.
Proof. simpl. rewrite HP. reflexivity. Qed.

Lemma search_cons p x s n i :
  search r p (x :: s) n i =
  if P x then
    Some {| index := i; lastIndex := N.succ i; matched := [x]; groups := [] |}
  else search r (Some x) s (Nat.pred n) (N.succ i).
Proof. simpl. rewrite HP. destruct (P x); reflexivity. Qed.

(** The first match splits the text at the first character in [P]. *)
Lemma search_spec s : forall p n i,
  match search r p s n i with
  | None => flat_map (subst1 P repl) s = s
  | Some m =>
      exists pre x post,
        s = pre ++ x :: post
        /\ flat_map (subst1 P repl) pre = pre
        /\ P x = true
        /\ index m = (i + N.of_nat (List.length pre))%N
        /\ lastIndex m = N.succ (index m)
  end.
Proof.
  induction s as [|x s IH]; intros p n i.
  - rewrite search_nil. reflexivity.
  - rewrite search_cons. destruct (P x) eqn:Hx.
    + exists [], x, s. simpl. repeat split; auto. lia.
    + specialize (IH (Some x) (Nat.pred n) (N.succ i)).
      destruct (search r (Some x) s (Nat.pred n) (N.succ i)) as [m|].
      * destruct IH as (pre & y & post & -> & Hpre & Hy & Hi & Hl).
        exists (x :: pre), y, post. simpl. unfold subst1 at 1. rewrite Hx.
        simpl. rewrite Hpre. repeat split; auto. lia.
      * simpl. unfold subst1 at 1. rewrite Hx. simpl. rewrite IH. reflexivity.
Qed.

Lemma splice_exec_all f : forall s p i,
  (List.length s < f)%nat ->
  splice (exec_all f r p s i) s i repl = flat_map (subst1 P repl) s.
Proof.
  induction f as [|f IH]; intros s p i Hlen; [lia|].
  rewrite exec_all_S.
  pose proof (search_spec s p (List.length s) i) as Hs.
  destruct (search r p s (List.length s) i) as [m|].
  - destruct Hs as (pre & x & post & -> & Hpre & Hx & Hi & Hl).
    assert (He : (lastIndex m =? index m)%N = false) by (apply N.eqb_neq; lia).
    assert (Hd : N.to_nat (lastIndex m - i) = S (List.length pre)) by lia.
    assert (Hlt : (List.length (pre ++ x :: post) <? S (List.length pre))%nat = false).
    { apply Nat.ltb_ge. rewrite length_app. simpl. lia. }
    assert (Hi' : N.to_nat (index m - i) = List.length pre) by lia.
    cbv zeta. rewrite He, Hd, Hlt, splice_cons, Hi', Hd.
    rewrite firstn_prefix, skipn_past, firstn_past, rev_unit.
    rewrite IH.
    + rewrite flat_map_app. simpl. rewrite Hpre. unfold subst1 at 2.
      rewrite Hx. reflexivity.
    + rewrite length_app in Hlen. simpl in Hlen. lia.
  - simpl. symmetry. exact Hs.
Qed.

(** [s.replace(r, repl)] replaces each character in [P] by [repl]. *)
Lemma replace_all_one_char s : replace_all r repl s = flat_map (subst1 P repl) s.
Proof.
  unfold replace_all, matches_g. apply splice_exec_all. lia.
Qed.

End OneChar.

(** The three one-character patterns of [parseCurrency]. *)

Lemma one_char_result i x s :
  Some {| index := i; lastIndex := N.succ i;
          matched := firstn (N.to_nat (N.succ i - i)) (x :: s); groups := [] |}
  = Some {| index := i; lastIndex := N.succ i; matched := [x]; groups := [] |}.
Proof.
  replace (N.to_nat (N.succ i - i)) with 1%nat by lia. reflexivity.
Qed.

Lemma dotPattern_one_char : one_char dotPattern (fun x => (x =? 46)%N).
Proof.
  intros p s n i. unfold match_here.
  change (pattern dotPattern) with (Chr 46%N).
  change (ignoreCase dotPattern) with false.
  destruct s as [|x s]; simpl; [reflexivity|].
  unfold canon. destruct (x =? 46)%N; [apply one_char_result | reflexivity].
Qed.

Lemma commaPattern_one_char : one_char commaPattern (fun x => (x =? 44)%N).
Proof.
  intros p s n i. unfold match_here.
  change (pattern commaPattern) with (Chr 44%N).
  change (ignoreCase commaPattern) with false.
  destruct s as [|x s]; simpl; [reflexivity|].
  unfold canon. destruct (x =? 44)%N; [apply one_char_result | reflexivity].
Qed.

Lemma symbolPattern_one_char : one_char symbolPattern (fun x => negb (kept x)).
Proof.
  intros p s n i. unfold match_here.
  change (pattern symbolPattern)
    with (Cls true [CRange 48%N 57%N; CChar 44%N; CChar 46%N; CChar 45%N]).
  change (ignoreCase symbolPattern) with false.
  destruct s as [|x s]; simpl; [reflexivity|].
  unfold kept, is_digit.
  destruct ((48 <=? x) && (x <=? 57))%N, (x =? 44)%N, (x =? 46)%N, (x =? 45)%N;
    simpl; first [reflexivity | apply one_char_result].
Qed.

(** ** Digits *)

Lemma digit_forall (Q : char -> bool) :
  forallb Q [48; 49; 50; 51; 52; 53; 54; 55; 56; 57]%N = true ->
  forall c, is_digit c = true -> Q c = true.
Proof.
  intros HQ c Hc. unfold is_digit in Hc.
  apply andb_true_iff in Hc. destruct Hc as [H1 H2].
  apply N.leb_le in H1. apply N.leb_le in H2.
  rewrite forallb_forall in HQ. apply HQ. simpl.
  assert (c = 48 \/ c = 49 \/ c = 50 \/ c = 51 \/ c = 52 \/ c = 53
          \/ c = 54 \/ c = 55 \/ c = 56 \/ c = 57)%N as H by lia.
  intuition auto.
Qed.

Lemma digit_not_space c : is_digit c = true -> is_space c = false.
Proof.
  intros H. apply negb_true_iff.
  revert c H. apply digit_forall. reflexivity.
Qed.

Lemma digit_kept c : is_digit c = true -> kept c = true.
Proof. intros H. unfold kept. rewrite H. reflexivity. Qed.

Lemma digit_neq (k : char) c :
  is_digit k = false -> is_digit c = true -> (c =? k)%N = false.
Proof.
  intros Hk Hc. destruct (N.eqb_spec c k) as [->|]; congruence.
Qed.

Lemma digit_string_app a b :
  digit_string a -> digit_string b -> digit_string (a ++ b).
Proof. intros Ha Hb. apply Forall_app. split; assumption. Qed.

Lemma digit_string_concat gs :
  Forall thousands_group gs -> digit_string (List.concat gs).
Proof.
  induction 1 as [|g gs [_ Hg] _ IH]; simpl.
  - constructor.
  - apply digit_string_app; assumption.
Qed.

(** Replacing a character that is not a digit leaves digits alone. *)
Lemma subst1_digits (Q : char -> bool) repl s :
  (forall c, is_digit c = true -> Q c = false) ->
  digit_string s -> flat_map (subst1 Q repl) s = s.
Proof.
  intros HQ. induction 1 as [|c s Hc _ IH]; simpl; [reflexivity|].
  unfold subst1 at 1. rewrite (HQ c Hc). simpl. rewrite IH. reflexivity.
Qed.

(** ** The dot-thousands test of [parseCurrency] *)

(** Steps of the matcher, as equations. *)

(** A match at some suffix gives a match of the search. *)
Lemma search_suffix r s2 :
  (forall p i, match_here r p s2 (List.length s2) i <> None) ->
  forall s1 p i, search r p (s1 ++ s2) (List.length (s1 ++ s2)) i <> None.
Proof.
  intros H s1. induction s1 as [|c s1 IH]; intros p i.
  - simpl app. destruct s2 as [|c s2]; simpl.
    + specialize (H p i). simpl in H.
      destruct (match_here r p [] 0 i); [discriminate | congruence].
    + specialize (H p i). simpl in H.
      destruct (match_here r p (c :: s2) (S (List.length s2)) i);
        [discriminate | congruence].
  - simpl. destruct (match_here r p _ _ i); [discriminate|]. apply IH.
Qed.

Lemma is_digit_dot : is_digit 46%N = false.
Proof. reflexivity. Qed.

Lemma is_digit_comma : is_digit 44%N = false.
Proof. reflexivity. Qed.

Lemma dotThousandsPattern1_node :
  pattern dotThousandsPattern1
  = Seq (Rep (Cls false [CDigit false]) 1 None true)
      (Seq (Chr 46%N)
         (Seq (Rep (Cls false [CDigit false]) 3 (Some 3) true)
            (Seq (Chr 44%N)
               (Seq (Rep (Cls false [CDigit false]) 2 (Some 2) true) Eol)))).
Proof. vm_compute. reflexivity. Qed.

Lemma run_seq ic a b st k :
  run ic (Seq a b) st k = run ic a st (fun st' => run ic b st' k).
Proof. reflexivity. Qed.

Lemma run_chr_hit p c r n i k :
  run false (Chr c) (mstate0 p (c :: r) n i) k
  = k (mstate0 (Some c) r (Nat.pred n) (N.succ i)).
Proof. simpl. unfold canon. rewrite N.eqb_refl. reflexivity. Qed.

Lemma run_digit_hit p x r n i k :
  is_digit x = true ->
  run false (Cls false [CDigit false]) (mstate0 p (x :: r) n i) k
  = k (mstate0 (Some x) r (Nat.pred n) (N.succ i)).
Proof. intros H. simpl. rewrite H. reflexivity. Qed.

Lemma run_digit_miss p x r n i k :
  is_digit x = false ->
  run false (Cls false [CDigit false]) (mstate0 p (x :: r) n i) k = None.
Proof. intros H. simpl. rewrite H. reflexivity. Qed.

Lemma run_eol p n i k : run false Eol (mstate0 p [] n i) k = k (mstate0 p [] n i).
Proof. reflexivity. Qed.

(** [\d+] on one digit followed by a character that is not a digit. *)
Lemma run_digits_one p d x r n i k :
  is_digit d = true -> is_digit x = false ->
  run false (Rep (Cls false [CDigit false]) 1 None true)
      (mstate0 p (d :: x :: r) n i) k
  = k (mstate0 (Some d) (x :: r) (Nat.pred n) (N.succ i)).
Proof.
  intros Hd Hx.
  change (run false (Rep (Cls false [CDigit false]) 1 None true)
              (mstate0 p (d :: x :: r) n i) k)
    with (run false (Cls false [CDigit false]) (mstate0 p (d :: x :: r) n i)
              (fun st' =>
                 match run false (Cls false [CDigit false])
                           (clear_caps [] st')
                           (fun st'' =>
                              if (pos st'' =? pos st')%N then None
                              else rep_loop (run false (Cls false [CDigit false]))
                                            [] true n 0 None st'' k)
                 with
                 | Some res => Some res
                 | None => k st'
                 end)).
  rewrite (run_digit_hit p d (x :: r) n i _ Hd).
  change (clear_caps [] (mstate0 (Some d) (x :: r) (Nat.pred n) (N.succ i)))
    with (mstate0 (Some d) (x :: r) (Nat.pred n) (N.succ i)).
  rewrite (run_digit_miss (Some d) x r (Nat.pred n) (N.succ i) _ Hx).
  reflexivity.
Qed.

(** [\d{2}] and [\d{3}] on digits. *)
Lemma run_digits_two p a b r n i k :
  is_digit a = true -> is_digit b = true ->
  run false (Rep (Cls false [CDigit false]) 2 (Some 2) true)
      (mstate0 p (a :: b :: r) n i) k
  = k (mstate0 (Some b) r (Nat.pred (Nat.pred n)) (N.succ (N.succ i))).
Proof.
  intros Ha Hb.
  change (run false (Rep (Cls false [CDigit false]) 2 (Some 2) true)
              (mstate0 p (a :: b :: r) n i) k)
    with (run false (Cls false [CDigit false]) (mstate0 p (a :: b :: r) n i)
              (fun st' =>
                 run false (Cls false [CDigit false]) (clear_caps [] st')
                     (fun st'' =>
                        rep_loop (run false (Cls false [CDigit false]))
                                 [] true (S n) 0 (Some 0) st'' k))).
  rewrite (run_digit_hit p a (b :: r) n i _ Ha).
  change (clear_caps [] (mstate0 (Some a) (b :: r) (Nat.pred n) (N.succ i)))
    with (mstate0 (Some a) (b :: r) (Nat.pred n) (N.succ i)).
  rewrite (run_digit_hit (Some a) b r (Nat.pred n) (N.succ i) _ Hb).
  reflexivity.
Qed.

Lemma run_digits_three p a b c r n i k :
  is_digit a = true -> is_digit b = true -> is_digit c = true ->
  run false (Rep (Cls false [CDigit false]) 3 (Some 3) true)
      (mstate0 p (a :: b :: c :: r) n i) k
  = k (mstate0 (Some c) r (Nat.pred (Nat.pred (Nat.pred n)))
               (N.succ (N.succ (N.succ i)))).
Proof.
  intros Ha Hb Hc.
  change (run false (Rep (Cls false [CDigit false]) 3 (Some 3) true)
              (mstate0 p (a :: b :: c :: r) n i) k)
    with (run false (Cls false [CDigit false]) (mstate0 p (a :: b :: c :: r) n i)
              (fun st1 =>
                 run false (Cls false [CDigit false]) (clear_caps [] st1)
                     (fun st2 =>
                        run false (Cls false [CDigit false]) (clear_caps [] st2)
                            (fun st3 =>
                               rep_loop (run false (Cls false [CDigit false]))
                                        [] true (S n) 0 (Some 0) st3 k)))).
  rewrite (run_digit_hit p a (b :: c :: r) n i _ Ha).
  change (clear_caps [] (mstate0 (Some a) (b :: c :: r) (Nat.pred n) (N.succ i)))
    with (mstate0 (Some a) (b :: c :: r) (Nat.pred n) (N.succ i)).
  rewrite (run_digit_hit (Some a) b (c :: r) (Nat.pred n) (N.succ i) _ Hb).
  change (clear_caps [] (mstate0 (Some b) (c :: r) (Nat.pred (Nat.pred n))
                                 (N.succ (N.succ i))))
    with (mstate0 (Some b) (c :: r) (Nat.pred (Nat.pred n)) (N.succ (N.succ i))).
  rewrite (run_digit_hit (Some b) c r (Nat.pred (Nat.pred n))
                         (N.succ (N.succ i)) _ Hc).
  reflexivity.
Qed.

(** [\d+\.\d{3},\d{2}$] matches a digit, a dot, three digits, a comma and
    two digits at the end of the text. *)
Lemma dotThousandsPattern1_here p i d a b c x y :
  is_digit d = true -> is_digit a = true -> is_digit b = true ->
  is_digit c = true -> is_digit x = true -> is_digit y = true ->
  match_here dotThousandsPattern1 p [d; 46; a; b; c; 44; x; y]%N 8 i <> None.
Proof.
  intros Hd Ha Hb Hc Hx Hy. unfold match_here.
  rewrite dotThousandsPattern1_node.
  change (ignoreCase dotThousandsPattern1) with false.
  change {| prev := p; rest := [d; 46; a; b; c; 44; x; y]%N; left := 8;
            pos := i; caps := [] |}
    with (mstate0 p [d; 46; a; b; c; 44; x; y]%N 8 i).
  rewrite run_seq, (run_digits_one p d 46%N _ 8 i _ Hd is_digit_dot).
  rewrite run_seq, run_chr_hit.
  rewrite run_seq, (run_digits_three _ a b c _ _ _ _ Ha Hb Hc).
  rewrite run_seq, run_chr_hit.
  rewrite run_seq, (run_digits_two _ x y _ _ _ _ Hx Hy).
  rewrite run_eol. discriminate.
Qed.

(** The text before the last group of a dot-thousands token ends with a
    digit. *)
Lemma groups_end_with_digit g0 gs :
  g0 <> [] -> digit_string g0 -> Forall thousands_group gs ->
  exists pre d,
    g0 ++ List.concat (List.map (cons (ch ".")) gs) = pre ++ [d]
    /\ is_digit d = true.
Proof.
  intros Hne Hg0 Hgs.
  destruct gs as [|g gs _] using rev_ind.
  - simpl. rewrite app_nil_r.
    destruct (exists_last Hne) as (pre & d & ->).
    exists pre, d. split; [reflexivity|].
    apply Forall_app in Hg0. destruct Hg0 as [_ Hd].
    inversion Hd; assumption.
  - apply Forall_app in Hgs. destruct Hgs as [_ Hg].
    inversion Hg as [|g' l [Hlen Hdig] _]; subst.
    destruct g as [|a [|b [|c [|]]]]; try discriminate.
    rewrite map_app, concat_app. simpl.
    exists (g0 ++ List.concat (List.map (cons (ch ".")) gs) ++ [ch "."; a; b]), c.
    split.
    + rewrite <- !app_assoc. reflexivity.
    + inversion Hdig as [|? ? _ H1]; inversion H1 as [|? ? _ H2];
        inversion H2; assumption.
Qed.

(** The token, cut eight characters before its end. *)
Lemma dot_thousands_suffix g0 gs d1 d2 :
  g0 <> [] -> digit_string g0 -> gs <> [] -> Forall thousands_group gs ->
  exists pre d a b c,
    dot_thousands g0 gs d1 d2 = pre ++ [d; 46; a; b; c; 44; d1; d2]%N
    /\ is_digit d = true /\ is_digit a = true /\ is_digit b = true
    /\ is_digit c = true.
Proof.
  intros Hne Hg0 Hgs Hall.
  destruct (exists_last Hgs) as (gs' & g & ->).
  apply Forall_app in Hall. destruct Hall as [Hall' Hg].
  inversion Hg as [|g' l [Hlen Hdig] _]; subst.
  destruct g as [|a [|b [|c [|]]]]; try discriminate.
  destruct (groups_end_with_digit g0 gs' Hne Hg0 Hall') as (pre & d & Heq & Hd).
  exists pre, d, a, b, c.
  inversion Hdig as [|? ? Ha H1]; inversion H1 as [|? ? Hb H2];
    inversion H2 as [|? ? Hc _]; subst.
  repeat split; try assumption.
  unfold dot_thousands. rewrite map_app, concat_app. simpl.
  simpl in Heq. unfold str, char in *.
  rewrite !app_assoc. rewrite Heq.
  rewrite <- !app_assoc. reflexivity.
Qed.

Lemma dotThousandsPattern1_test g0 gs d1 d2 :
  g0 <> [] -> digit_string g0 -> gs <> [] -> Forall thousands_group gs ->
  is_digit d1 = true -> is_digit d2 = true ->
  test dotThousandsPattern1 (dot_thousands g0 gs d1 d2) = true.
Proof.
  intros Hne Hg0 Hgs Hall H1 H2.
  destruct (dot_thousands_suffix g0 gs d1 d2 Hne Hg0 Hgs Hall)
    as (pre & d & a & b & c & -> & Hd & Ha & Hb & Hc).
  unfold test, exec.
  pose proof (search_suffix dotThousandsPattern1 [d; 46; a; b; c; 44; d1; d2]%N
                (fun p i => dotThousandsPattern1_here p i d a b c d1 d2
                              Hd Ha Hb Hc H1 H2)
                pre None 0%N) as Hs.
  destruct (search _ _ _ _ _); [reflexivity | congruence].
Qed.

(** ** Trimming and cleaning a token *)

Lemma trim_id (s : str) c r d r' :
  s = c :: r -> rev s = d :: r' ->
  is_space c = false -> is_space d = false -> trim s = s.
Proof.
  intros Hs Hr Hc Hd. unfold trim, trimEnd.
  assert (H1 : trimStart s = s) by (rewrite Hs; simpl; rewrite Hc; reflexivity).
  rewrite H1, Hr. simpl. rewrite Hd. rewrite <- Hr. apply rev_involutive.
Qed.

Lemma subst1_id (Q : char -> bool) repl s :
  Forall (fun x => Q x = false) s -> flat_map (subst1 Q repl) s = s.
Proof.
  induction 1 as [|x s Hx _ IH]; simpl; [reflexivity|].
  unfold subst1 at 1. rewrite Hx. simpl. rewrite IH. reflexivity.
Qed.

Lemma groups_kept gs :
  Forall thousands_group gs ->
  Forall (fun x => negb (kept x) = false)
         (List.concat (List.map (cons (ch ".")) gs)).
Proof.
  induction 1 as [|g gs [_ Hg] _ IH]; simpl; [constructor|].
  constructor; [reflexivity|].
  apply Forall_app. split; [|exact IH].
  eapply Forall_impl; [|exact Hg].
  intros c Hc. simpl. rewrite (digit_kept c Hc). reflexivity.
Qed.

Lemma dot_thousands_kept g0 gs d1 d2 :
  digit_string g0 -> Forall thousands_group gs ->
  is_digit d1 = true -> is_digit d2 = true ->
  Forall (fun x => negb (kept x) = false) (dot_thousands g0 gs d1 d2).
Proof.
  intros Hg0 Hgs H1 H2. unfold dot_thousands.
  apply Forall_app. split.
  - eapply Forall_impl; [|exact Hg0].
    intros c Hc. simpl. rewrite (digit_kept c Hc). reflexivity.
  - apply Forall_app. split; [apply groups_kept; assumption|].
    repeat constructor; simpl;
      rewrite ?(digit_kept d1 H1), ?(digit_kept d2 H2); reflexivity.
Qed.

(** Dropping the dots of the groups. *)
Lemma groups_without_dots gs :
  Forall thousands_group gs ->
  flat_map (subst1 (fun x => (x =? 46)%N) [])
           (List.concat (List.map (cons (ch ".")) gs))
  = List.concat gs.
Proof.
  induction 1 as [|g gs [_ Hg] _ IH]; simpl; [reflexivity|].
  simpl in IH. unfold str, char in *.
  rewrite flat_map_app, IH.
  rewrite subst1_digits; [reflexivity | | exact Hg].
  intros c Hc. apply digit_neq; [reflexivity | exact Hc].
Qed.

Lemma dot_thousands_without_dots g0 gs d1 d2 :
  digit_string g0 -> Forall thousands_group gs ->
  is_digit d1 = true -> is_digit d2 = true ->
  flat_map (subst1 (fun x => (x =? 46)%N) []) (dot_thousands g0 gs d1 d2)
  = (g0 ++ List.concat gs) ++ [44; d1; d2]%N.
Proof.
  intros Hg0 Hgs H1 H2. unfold dot_thousands.
  rewrite !flat_map_app, groups_without_dots by assumption.
  rewrite subst1_digits; [| |exact Hg0].
  - simpl. unfold subst1.
    rewrite (digit_neq 46%N d1 eq_refl H1), (digit_neq 46%N d2 eq_refl H2).
    simpl. rewrite <- app_assoc. reflexivity.
  - intros c Hc. apply digit_neq; [reflexivity | exact Hc].
Qed.

(** Turning the comma into the decimal point. *)
Lemma comma_to_point (D : str) d1 d2 :
  digit_string D -> is_digit d1 = true -> is_digit d2 = true ->
  flat_map (subst1 (fun x => (x =? 44)%N) (js ".")) (D ++ [44; d1; d2]%N)
  = D ++ [46; d1; d2]%N.
Proof.
  intros HD H1 H2. rewrite flat_map_app.
  rewrite subst1_digits; [| |exact HD].
  - simpl. unfold subst1.
    rewrite (digit_neq 44%N d1 eq_refl H1), (digit_neq 44%N d2 eq_refl H2).
    reflexivity.
  - intros c Hc. apply digit_neq; [reflexivity | exact Hc].
Qed.

(** ** Reading a decimal text *)

Lemma digits_app a : forall r acc n,
  digit_string a ->
  digits (a ++ r) acc n
  = digits r (fold_left digit_step a acc) (n + Z.of_nat (List.length a))%Z.
Proof.
  induction a as [|c a IH]; intros r acc n Ha.
  - simpl. rewrite Z.add_0_r. reflexivity.
  - inversion Ha as [|? ? Hc Ha']; subst.
    simpl app. simpl digits. rewrite Hc. rewrite IH by assumption.
    simpl fold_left. f_equal. simpl List.length. lia.
Qed.

Lemma starts_with_cons a p b s :
  starts_with (a :: p) (b :: s) = (a =? b)%N && starts_with p s.
Proof. reflexivity. Qed.

Lemma js_Infinity : js "Infinity" = [73; 110; 102; 105; 110; 105; 116; 121]%N.
Proof. reflexivity. Qed.

(** The text [D.d1d2], with [D] a non-empty string of digits, reads as the
    number nearest to the integer [D d1 d2] divided by 100. *)
Lemma parseFloat_two_decimals (D : str) d1 d2 :
  D <> [] -> digit_string D -> is_digit d1 = true -> is_digit d2 = true ->
  parseFloat (D ++ [46; d1; d2]%N)
  = of_decimal false (decimal_value (D ++ [d1; d2])) (-2).
Proof.
  intros Hne HD H1 H2.
  destruct D as [|c D]; [congruence|].
  inversion HD as [|? ? Hc HD']; subst.
  unfold parseFloat.
  simpl app. simpl trimStart. rewrite (digit_not_space c Hc).
  rewrite (digit_neq 45%N c eq_refl Hc), (digit_neq 43%N c eq_refl Hc).
  rewrite js_Infinity.
  assert (Hinf : forall X, starts_with [73; 110; 102; 105; 110; 105; 116; 121]%N
                                       (c :: X) = false).
  { intros X. rewrite starts_with_cons, N.eqb_sym,
      (digit_neq 73%N c eq_refl Hc). reflexivity. }
  rewrite Hinf.
  change (c :: D ++ [46; d1; d2]%N) with ((c :: D) ++ [46; d1; d2]%N).
  rewrite digits_app by assumption.
  assert (Hstop : forall acc n,
             digits [46; d1; d2]%N acc n = (acc, n, [46; d1; d2]%N))
    by reflexivity.
  rewrite Hstop. cbv beta iota zeta.
  rewrite N.eqb_refl.
  assert (Hfrac : digits [d1; d2] 0 0
                  = (((0 * 10 + (Z.of_N d1 - 48)) * 10 + (Z.of_N d2 - 48))%Z,
                     2%Z, [])).
  { simpl. rewrite H1, H2. reflexivity. }
  rewrite Hfrac. cbv beta iota zeta.
  rewrite andb_false_r. cbv beta iota zeta.
  rewrite andb_false_r.
  change (exponent_part [] - 2)%Z with (-2)%Z.
  f_equal. unfold decimal_value.
  change (c :: D ++ [d1; d2]) with ((c :: D) ++ [d1; d2]).
  rewrite fold_left_app.
  generalize (fold_left digit_step (c :: D) 0%Z).
  intros v. simpl fold_left. unfold digit_step.
  change (10 ^ 2)%Z with 100%Z. ring.
Qed.

(** ** The dot-thousands branch of [parseCurrency] *)

Lemma parseCurrency_dot_thousands g0 gs d1 d2 :
  g0 <> [] -> digit_string g0 ->
  gs <> [] -> Forall thousands_group gs ->
  is_digit d1 = true -> is_digit d2 = true ->
  parseCurrency (dot_thousands g0 gs d1 d2)
  = of_decimal false (decimal_value (g0 ++ List.concat gs ++ [d1; d2])) (-2).
Proof.
  intros Hne Hg0 Hgs Hall H1 H2.
  assert (Htrim : trim (dot_thousands g0 gs d1 d2) = dot_thousands g0 gs d1 d2).
  { destruct g0 as [|c g0]; [congruence|].
    inversion Hg0 as [|? ? Hc _]; subst.
    eapply trim_id with (c := c) (d := d2).
    - unfold dot_thousands. simpl. reflexivity.
    - unfold dot_thousands. rewrite !rev_app_distr. simpl. reflexivity.
    - apply digit_not_space; assumption.
    - apply digit_not_space; assumption. }
  assert (Hdot : contains (ch ".") (dot_thousands g0 gs d1 d2) = true).
  { unfold contains, dot_thousands. rewrite !existsb_app.
    destruct gs as [|g gs]; [congruence|]. simpl.
    rewrite orb_true_r. reflexivity. }
  assert (Hcomma : contains (ch ",") (dot_thousands g0 gs d1 d2) = true).
  { unfold contains, dot_thousands. rewrite !existsb_app. simpl.
    rewrite !orb_true_r. reflexivity. }
  unfold parseCurrency.
  destruct (dot_thousands g0 gs d1 d2) eqn:Htok.
  { destruct g0; [congruence | discriminate]. }
  rewrite <- Htok in *. clear Htok.
  rewrite Htrim.
  rewrite (replace_all_one_char symbolPattern _ symbolPattern_one_char).
  rewrite subst1_id by (apply dot_thousands_kept; assumption).
  rewrite Hdot, Hcomma. simpl andb. cbv iota.
  rewrite dotThousandsPattern1_test by assumption. simpl orb. cbv iota.
  rewrite (replace_all_one_char dotPattern _ dotPattern_one_char).
  rewrite dot_thousands_without_dots by assumption.
  rewrite (replace_all_one_char commaPattern _ commaPattern_one_char).
  rewrite comma_to_point;
    [| apply digit_string_app; [assumption | apply digit_string_concat; assumption]
     | assumption | assumption].
  rewrite parseFloat_two_decimals;
    [| destruct g0; [congruence | discriminate]
     | apply digit_string_app; [assumption | apply digit_string_concat; assumption]
     | assumption | assumption].
  rewrite <- app_assoc.
  destruct (of_decimal _ _ _); reflexivity.
Qed.

(** ** The post-processing steps *)

Ltac step_cases :=
  repeat match goal with
         | |- context [match ?x with _ => _ end] => destruct x eqn:?
         end; simpl in *; try congruence; auto.

Lemma present_some (o : option number) :
  present o = true -> exists x, o = Some x /\ truthy x = true.
Proof. destruct o as [x|]; simpl; [eauto | discriminate]. Qed.

(** Steps that leave a tax percentage alone once it is known. *)
Lemma step1_keeps_percentage z d p :
  taxPercentage d = Some p -> truthy p = true -> step1 z d = d.
Proof.
  intros Hp Ht. unfold step1, present. rewrite Hp, Ht.
  rewrite andb_false_r. reflexivity.
Qed.








Lemma step8_amount sorted d : amount (step8 sorted d) = amount d.
Proof. unfold step8. step_cases. Qed.

(** Step 8 does nothing when the subtotal is known. *)
Lemma step8_idle sorted d :
  present (subtotalAmount d) = true -> step8 sorted d = d.
Proof.
  intros H. unfold step8. rewrite H. simpl. destruct (amount d); reflexivity.
Qed.

(** Step 8 always leaves a subtotal next to a total. *)
Lemma step8_subtotal sorted d a :
  amount d = Some a -> exists s, subtotalAmount (step8 sorted d) = Some s.
Proof.
  intros Ha. unfold step8. rewrite Ha.
  destruct (present (subtotalAmount d)) eqn:Hs; simpl.
  - apply present_some in Hs. destruct Hs as (x & Hx & _). eauto.
  - destruct sorted as [|x [|second l]]; simpl; eauto.
    destruct (ltb second a && gtb second zero); simpl; eauto.
    destruct (present (taxAmount d)); simpl; eauto.
Qed.



Lemma parse_eq raw :
  parse raw
  = step8 (sortedAmounts raw) (reconcile (zeroTaxMatch raw) (extract raw)).
Proof. reflexivity. Qed.

(** ** The claims *)

(** C1 (code defect).  On scenario A the pattern [total...] of line 185
    matches inside "Subtotal: $100.00", so the total is 100 and not 107;
    the totals section starts after that same "total", so no subtotal is
    extracted and the record is reconciled to subtotal 93, tax 7 and
    rate 7.53.  Only the vendor name is the one the specification
    expects. *)
Theorem scenario_A_result :
  vendorName (parse scenarioA) = Some (js "Acme Corp")
  /\ amount (parse scenarioA) = Some (dec 10000 (-2))
  /\ subtotalAmount (parse scenarioA) = Some (dec 9300 (-2))
  /\ taxAmount (parse scenarioA) = Some (dec 700 (-2))
  /\ taxPercentage (parse scenarioA) = Some (dec 753 (-2))
  /\ amount (parse scenarioA) <> Some (dec 10700 (-2))
  /\ subtotalAmount (parse scenarioA) <> Some (dec 10000 (-2))
  /\ taxPercentage (parse scenarioA) <> Some (dec 7 0).
Proof. vm_compute. repeat split; discriminate. Qed.





(** The bound of the check is on the rounded sum: with subtotal 0.204,
    tax 0.044 and total 0.35 the check passes (0.25 against 0.35) while
    the exact sum is 0.102 away from the total. *)
Lemma closure_is_on_rounded_sum :
  subtotalAmount (parse roundedSum) = Some (dec 204 (-3))
  /\ taxAmount (parse roundedSum) = Some (dec 44 (-3))
  /\ amount (parse roundedSum) = Some (dec 35 (-2))
  /\ ~ closure (parse roundedSum).
Proof.
  assert (Hs : subtotalAmount (parse roundedSum) = Some (dec 204 (-3)))
    by (vm_compute; reflexivity).
  assert (Ht : taxAmount (parse roundedSum) = Some (dec 44 (-3)))
    by (vm_compute; reflexivity).
  assert (Ha : amount (parse roundedSum) = Some (dec 35 (-2)))
    by (vm_compute; reflexivity).
  repeat split; try assumption.
  intros H.
  destruct (H _ _ _ Hs Ht Ha) as (qs & qt & qa & Hqs & Hqt & Hqa & Hle).
  vm_compute in Hqs, Hqt, Hqa.
  injection Hqs as <-. injection Hqt as <-. injection Hqa as <-.
  vm_compute in Hle. apply Hle. reflexivity.
Qed.

(** C3 (code defect).  A total of 309 digits is read as [Infinity];
    step 2.5 derives the subtotal [Infinity] and the tax
    [Infinity - Infinity], and nothing checks the result: the returned
    record holds [NaN] as its tax amount. *)
Theorem nan_reaches_the_record :
  amount (parse hugeTotal) = Some Infinity
  /\ subtotalAmount (parse hugeTotal) = Some Infinity
  /\ taxPercentage (parse hugeTotal) = Some (dec 7 0)
  /\ taxAmount (parse hugeTotal) = Some NaN.
Proof. vm_compute. repeat split; reflexivity. Qed.






(** C5.  Scenario B: the zero tax line is detected by step 1, which sets
    tax amount and rate to 0 and the subtotal to the total. *)
Theorem scenario_B_zero_tax :
  taxAmount (parse scenarioB) = Some zero
  /\ taxPercentage (parse scenarioB) = Some zero
  /\ subtotalAmount (parse scenarioB) = Some (dec 5000 (-2))
  /\ amount (parse scenarioB) = Some (dec 5000 (-2)).
Proof. vm_compute. repeat split; reflexivity. Qed.

(** The post-processing of an extraction that yields subtotal 100.00,
    tax 5.00, total 110.00 and no rate. *)
Lemma postprocess_scenario_C z sorted d :
  subtotalAmount d = Some (dec 10000 (-2)) ->
  taxAmount d = Some (dec 500 (-2)) ->
  amount d = Some (dec 11000 (-2)) ->
  taxPercentage d = None ->
  taxAmount (postprocess z sorted d) = Some (dec 1000 (-2))
  /\ taxPercentage (postprocess z sorted d) = Some (dec 100 (-1))
  /\ subtotalAmount (postprocess z sorted d) = Some (dec 10000 (-2))
  /\ amount (postprocess z sorted d) = Some (dec 11000 (-2)).
Proof.
  destruct d as [raw a s t p inv dt v]. simpl.
  intros -> -> -> ->.
  vm_compute. repeat split; reflexivity.
Qed.

(** C6.  Scenario C: whenever extraction yields subtotal 100.00, tax 5.00,
    total 110.00 and no rate, the returned record has tax 10.00 and rate
    10.0, with subtotal and total unchanged. *)
Theorem scenario_C_discrepancy raw :
  subtotalAmount (extract raw) = Some (dec 10000 (-2)) ->
  taxAmount (extract raw) = Some (dec 500 (-2)) ->
  amount (extract raw) = Some (dec 11000 (-2)) ->
  taxPercentage (extract raw) = None ->
  taxAmount (parse raw) = Some (dec 1000 (-2))
  /\ taxPercentage (parse raw) = Some (dec 100 (-1))
  /\ subtotalAmount (parse raw) = Some (dec 10000 (-2))
  /\ amount (parse raw) = Some (dec 11000 (-2)).
Proof. apply postprocess_scenario_C. Qed.

Lemma scenario_C_discrepancy_witness :
  taxAmount (parse scenarioC) = Some (dec 1000 (-2))
  /\ taxPercentage (parse scenarioC) = Some (dec 100 (-1))
  /\ subtotalAmount (parse scenarioC) = Some (dec 10000 (-2))
  /\ amount (parse scenarioC) = Some (dec 11000 (-2)).
Proof.
  apply (scenario_C_discrepancy scenarioC); vm_compute; reflexivity.
Defined.

(** C7.  The two thousands conventions give the same number and the empty
    text gives [NaN]. *)
Theorem parseCurrency_conventions :
  parseCurrency (js "1.234,56") = dec 123456 (-2)
  /\ parseCurrency (js "1,234.56") = dec 123456 (-2)
  /\ parseCurrency (js "") = NaN.
Proof. vm_compute. repeat split; reflexivity. Qed.

(** C8, as stated, fails in its one-decimal case: both shape tests of
    line 48 ask for two digits after the comma, so "1.234,5" takes the
    other branch, which drops the comma and keeps the dot: the value is
    1.2345 and not 1234.5. *)
Lemma one_decimal_is_not_dot_thousands :
  parseCurrency (js "1.234,5") = dec 12345 (-4)
  /\ parseCurrency (js "1.234,5") <> dec 12345 (-1).
Proof. vm_compute. split; [reflexivity|discriminate]. Qed.

(** C8 (amended).  A token of the dot-thousands shape with two decimals,
    a first group of digits, one or more groups of three digits each
    after a dot, a comma and two digits, is read with the dots dropped
    and the comma as the decimal point: its value is what [parseFloat]
    reads from the digits of the groups, a dot and the two decimals, the
    double nearest to that decimal number. *)
Theorem dot_thousands_two_decimals g0 gs d1 d2 :
  g0 <> [] -> digit_string g0 ->
  gs <> [] -> Forall thousands_group gs ->
  is_digit d1 = true -> is_digit d2 = true ->
  parseCurrency (dot_thousands g0 gs d1 d2)
  = parseFloat ((g0 ++ List.concat gs) ++ [ch "."; d1; d2])
  /\ parseCurrency (dot_thousands g0 gs d1 d2)
     = of_decimal false (decimal_value ((g0 ++ List.concat gs) ++ [d1; d2])) (-2).
Proof.
  intros Hne Hg0 Hgs Hall H1 H2.
  assert (HD : digit_string (g0 ++ List.concat gs)).
  { apply Forall_app. split; [exact Hg0|].
    clear Hgs. induction Hall as [|g l [_ Hg] _ IH]; simpl.
    - constructor.
    - apply Forall_app. split; assumption. }
  assert (HneD : g0 ++ List.concat gs <> []).
  { destruct g0; [congruence|discriminate]. }
  rewrite (parseCurrency_dot_thousands g0 gs d1 d2 Hne Hg0 Hgs Hall H1 H2).
  rewrite (app_assoc g0 (List.concat gs) [d1; d2]).
  split; [|reflexivity].
  symmetry.
  exact (parseFloat_two_decimals (g0 ++ List.concat gs) d1 d2 HneD HD H1 H2).
Qed.

Lemma dot_thousands_two_decimals_witness :
  parseCurrency (dot_thousands (js "12") [js "345"; js "678"] (ch "9") (ch "0"))
  = parseFloat ((js "12" ++ List.concat [js "345"; js "678"])
                ++ [ch "."; ch "9"; ch "0"])
  /\ parseCurrency (dot_thousands (js "12") [js "345"; js "678"] (ch "9") (ch "0"))
     = of_decimal false
         (decimal_value ((js "12" ++ List.concat [js "345"; js "678"])
                         ++ [ch "9"; ch "0"])) (-2).
Proof.
  apply (dot_thousands_two_decimals (js "12") [js "345"; js "678"]
           (ch "9") (ch "0")).
  - discriminate.
  - repeat constructor.
  - discriminate.
  - repeat constructor.
  - reflexivity.
  - reflexivity.
Defined.

(** C9 (code defect).  The first tax-amount pattern is written with
    doubled backslashes, so it asks for backslash characters and not for
    digits and spaces: on the two-number form no tax amount is extracted,
    and the fallback of step 8 then takes 7.00 as the subtotal and 100 as
    the tax. *)
Theorem two_number_form_not_extracted :
  exec (nth 0 taxAmountPatterns commaPattern)
       (extractionText (normalize desgloseText)) = None
  /\ taxAmount (extract desgloseText) = None
  /\ subtotalAmount (parse desgloseText) = Some (dec 700 (-2))
  /\ taxAmount (parse desgloseText) = Some (dec 100 0)
  /\ amount (parse desgloseText) = Some (dec 10700 (-2)).
Proof. vm_compute. repeat split; reflexivity. Qed.

(** C10.  A record with a total has a subtotal, and this is the one: a
    non-zero subtotal left by steps 1 to 7 is returned as it is; in every
    other case step 8 assigns the second largest money candidate when
    that one is positive and below the total, and the total itself
    otherwise. *)
Theorem total_implies_subtotal raw a :
  amount (parse raw) = Some a ->
  (exists s, subtotalAmount (parse raw) = Some s)
  /\ (present (subtotalAmount (reconcile (zeroTaxMatch raw) (extract raw)))
      = true ->
      subtotalAmount (parse raw)
      = subtotalAmount (reconcile (zeroTaxMatch raw) (extract raw)))
  /\ (present (subtotalAmount (reconcile (zeroTaxMatch raw) (extract raw)))
      = false ->
      subtotalAmount (parse raw)
      = match nth_error (sortedAmounts raw) 1 with
        | Some second =>
            if ltb second a && gtb second zero then Some second else Some a
        | None => Some a
        end).
Proof.
  rewrite parse_eq.
  generalize (sortedAmounts raw) (reconcile (zeroTaxMatch raw) (extract raw)).
  intros sorted d Ha. rewrite step8_amount in Ha.
  split; [exact (step8_subtotal sorted d a Ha)|]. split.
  - intros Hp. rewrite (step8_idle sorted d Hp). reflexivity.
  - intros Hp. unfold step8. rewrite Ha, Hp. cbn [negb].
    destruct (nth_error sorted 1) as [second|]; [|reflexivity].
    destruct (ltb second a && gtb second zero); [|reflexivity].
    destruct (negb (present (taxAmount (set_subtotalAmount second d))));
      reflexivity.
Qed.

Lemma total_implies_subtotal_witness :
  (exists s, subtotalAmount (parse desgloseText) = Some s)
  /\ (present (subtotalAmount
                 (reconcile (zeroTaxMatch desgloseText) (extract desgloseText)))
      = true ->
      subtotalAmount (parse desgloseText)
      = subtotalAmount
          (reconcile (zeroTaxMatch desgloseText) (extract desgloseText)))
  /\ (present (subtotalAmount
                 (reconcile (zeroTaxMatch desgloseText) (extract desgloseText)))
      = false ->
      subtotalAmount (parse desgloseText)
      = match nth_error (sortedAmounts desgloseText) 1 with
        | Some second =>
            if ltb second (dec 10700 (-2)) && gtb second zero
            then Some second else Some (dec 10700 (-2))
        | None => Some (dec 10700 (-2))
        end).
Proof.
  apply (total_implies_subtotal desgloseText (dec 10700 (-2))).
  vm_compute. reflexivity.
Defined.

(** * Further properties of the parser *)

(** ** What each extraction stage leaves alone *)

Ltac frame_ladder ps :=
  induction ps as [|p ps IH]; intros; simpl;
  [ repeat split; reflexivity
  | repeat match goal with
           | |- context [match ?x with _ => _ end] => destruct x
           end; simpl; first [apply IH | repeat split; reflexivity] ].

Ltac frame_cases :=
  repeat match goal with
         | |- context [match ?x with _ => _ end] => destruct x
         end; simpl; repeat split; reflexivity.

Lemma extract_subtotal_frame ps txt d :
  rawText (extract_subtotal ps txt d) = rawText d
  /\ amount (extract_subtotal ps txt d) = amount d
  /\ taxAmount (extract_subtotal ps txt d) = taxAmount d
  /\ taxPercentage (extract_subtotal ps txt d) = taxPercentage d
  /\ invoiceNumber (extract_subtotal ps txt d) = invoiceNumber d
  /\ date (extract_subtotal ps txt d) = date d
  /\ vendorName (extract_subtotal ps txt d) = vendorName d.
Proof. revert d. frame_ladder ps. Qed.

Lemma extract_taxPercentage_frame ps txt d :
  rawText (extract_taxPercentage ps txt d) = rawText d
  /\ amount (extract_taxPercentage ps txt d) = amount d
  /\ subtotalAmount (extract_taxPercentage ps txt d) = subtotalAmount d
  /\ taxAmount (extract_taxPercentage ps txt d) = taxAmount d
  /\ invoiceNumber (extract_taxPercentage ps txt d) = invoiceNumber d
  /\ date (extract_taxPercentage ps txt d) = date d
  /\ vendorName (extract_taxPercentage ps txt d) = vendorName d.
Proof. revert d. frame_ladder ps. Qed.

Lemma extract_taxAmount_frame ps txt d :
  rawText (extract_taxAmount ps txt d) = rawText d
  /\ amount (extract_taxAmount ps txt d) = amount d
  /\ subtotalAmount (extract_taxAmount ps txt d) = subtotalAmount d
  /\ taxPercentage (extract_taxAmount ps txt d) = taxPercentage d
  /\ invoiceNumber (extract_taxAmount ps txt d) = invoiceNumber d
  /\ date (extract_taxAmount ps txt d) = date d
  /\ vendorName (extract_taxAmount ps txt d) = vendorName d.
Proof. revert d. frame_ladder ps. Qed.

Lemma extract_total_frame ps raw d :
  rawText (extract_total ps raw d) = rawText d
  /\ subtotalAmount (extract_total ps raw d) = subtotalAmount d
  /\ taxAmount (extract_total ps raw d) = taxAmount d
  /\ taxPercentage (extract_total ps raw d) = taxPercentage d
  /\ invoiceNumber (extract_total ps raw d) = invoiceNumber d
  /\ date (extract_total ps raw d) = date d
  /\ vendorName (extract_total ps raw d) = vendorName d.
Proof. revert d. frame_ladder ps. Qed.

Lemma total_fallback_frame mx d :
  rawText (total_fallback mx d) = rawText d
  /\ subtotalAmount (total_fallback mx d) = subtotalAmount d
  /\ taxAmount (total_fallback mx d) = taxAmount d
  /\ taxPercentage (total_fallback mx d) = taxPercentage d
  /\ invoiceNumber (total_fallback mx d) = invoiceNumber d
  /\ date (total_fallback mx d) = date d
  /\ vendorName (total_fallback mx d) = vendorName d.
Proof. unfold total_fallback. frame_cases. Qed.

Lemma total_clean_frame d :
  rawText (total_clean d) = rawText d
  /\ subtotalAmount (total_clean d) = subtotalAmount d
  /\ taxAmount (total_clean d) = taxAmount d
  /\ taxPercentage (total_clean d) = taxPercentage d
  /\ invoiceNumber (total_clean d) = invoiceNumber d
  /\ date (total_clean d) = date d
  /\ vendorName (total_clean d) = vendorName d.
Proof. unfold total_clean. frame_cases. Qed.

Lemma extract_date_frame text d :
  rawText (extract_date text d) = rawText d
  /\ amount (extract_date text d) = amount d
  /\ subtotalAmount (extract_date text d) = subtotalAmount d
  /\ taxAmount (extract_date text d) = taxAmount d
  /\ taxPercentage (extract_date text d) = taxPercentage d
  /\ invoiceNumber (extract_date text d) = invoiceNumber d
  /\ vendorName (extract_date text d) = vendorName d.
Proof. unfold extract_date. frame_cases. Qed.

Lemma extract_vendor_frame ps raw d :
  rawText (extract_vendor ps raw d) = rawText d
  /\ amount (extract_vendor ps raw d) = amount d
  /\ subtotalAmount (extract_vendor ps raw d) = subtotalAmount d
  /\ taxAmount (extract_vendor ps raw d) = taxAmount d
  /\ taxPercentage (extract_vendor ps raw d) = taxPercentage d
  /\ invoiceNumber (extract_vendor ps raw d) = invoiceNumber d
  /\ date (extract_vendor ps raw d) = date d.
Proof. revert d. frame_ladder ps. Qed.

Lemma first_vendor_line_frame lines d :
  rawText (first_vendor_line lines d) = rawText d
  /\ amount (first_vendor_line lines d) = amount d
  /\ subtotalAmount (first_vendor_line lines d) = subtotalAmount d
  /\ taxAmount (first_vendor_line lines d) = taxAmount d
  /\ taxPercentage (first_vendor_line lines d) = taxPercentage d
  /\ invoiceNumber (first_vendor_line lines d) = invoiceNumber d
  /\ date (first_vendor_line lines d) = date d.
Proof. revert d. frame_ladder lines. Qed.

Lemma vendor_fallback_frame text d :
  rawText (vendor_fallback text d) = rawText d
  /\ amount (vendor_fallback text d) = amount d
  /\ subtotalAmount (vendor_fallback text d) = subtotalAmount d
  /\ taxAmount (vendor_fallback text d) = taxAmount d
  /\ taxPercentage (vendor_fallback text d) = taxPercentage d
  /\ invoiceNumber (vendor_fallback text d) = invoiceNumber d
  /\ date (vendor_fallback text d) = date d.
Proof.
  unfold vendor_fallback. destruct (negb _).
  - apply first_vendor_line_frame.
  - repeat split; reflexivity.
Qed.

Lemma extract_invoice_frame ps raw d :
  rawText (extract_invoice ps raw d) = rawText d
  /\ amount (extract_invoice ps raw d) = amount d
  /\ subtotalAmount (extract_invoice ps raw d) = subtotalAmount d
  /\ taxAmount (extract_invoice ps raw d) = taxAmount d
  /\ taxPercentage (extract_invoice ps raw d) = taxPercentage d
  /\ date (extract_invoice ps raw d) = date d
  /\ vendorName (extract_invoice ps raw d) = vendorName d.
Proof. revert d. frame_ladder ps. Qed.

(** The stages of [extract], named. *)
Lemma extract_eq raw :
  extract raw
  = extract_invoice invoicePatterns raw
      (vendor_fallback (normalize raw)
         (extract_vendor vendorPatterns raw
            (extract_date (normalize raw)
               (total_clean
                  (total_fallback (maxAmount raw)
                     (extract_total totalPatterns raw
                        (extract_taxAmount taxAmountPatterns
                           (extractionText (normalize raw))
                           (extract_taxPercentage taxPercentPatterns
                              (extractionText (normalize raw))
                              (extract_subtotal subtotalPatterns
                                 (extractionText (normalize raw))
                                 {| rawText := raw; amount := None;
                                    subtotalAmount := None; taxAmount := None;
                                    taxPercentage := None; invoiceNumber := None;
                                    date := None; vendorName := None |}))))))))).
Proof. reflexivity. Qed.

(** The post-processing steps touch the four numbers only. *)
Lemma postprocess_frame z sorted d :
  rawText (postprocess z sorted d) = rawText d
  /\ invoiceNumber (postprocess z sorted d) = invoiceNumber d
  /\ date (postprocess z sorted d) = date d
  /\ vendorName (postprocess z sorted d) = vendorName d.
Proof.
  assert (H1 : forall d, rawText (step1 z d) = rawText d
                         /\ invoiceNumber (step1 z d) = invoiceNumber d
                         /\ date (step1 z d) = date d
                         /\ vendorName (step1 z d) = vendorName d)
    by (intros; unfold step1; frame_cases).
  assert (H2 : forall d, rawText (step2 d) = rawText d
                         /\ invoiceNumber (step2 d) = invoiceNumber d
                         /\ date (step2 d) = date d
                         /\ vendorName (step2 d) = vendorName d)
    by (intros; unfold step2; frame_cases).
  assert (H25 : forall d, rawText (step2_5 d) = rawText d
                          /\ invoiceNumber (step2_5 d) = invoiceNumber d
                          /\ date (step2_5 d) = date d
                          /\ vendorName (step2_5 d) = vendorName d)
    by (intros; unfold step2_5; frame_cases).
  assert (H3 : forall d, rawText (step3 d) = rawText d
                         /\ invoiceNumber (step3 d) = invoiceNumber d
                         /\ date (step3 d) = date d
                         /\ vendorName (step3 d) = vendorName d)
    by (intros; unfold step3; frame_cases).
  assert (H4 : forall d, rawText (step4 d) = rawText d
                         /\ invoiceNumber (step4 d) = invoiceNumber d
                         /\ date (step4 d) = date d
                         /\ vendorName (step4 d) = vendorName d)
    by (intros; unfold step4; frame_cases).
  assert (H5 : forall d, rawText (step5 d) = rawText d
                         /\ invoiceNumber (step5 d) = invoiceNumber d
                         /\ date (step5 d) = date d
                         /\ vendorName (step5 d) = vendorName d)
    by (intros; unfold step5; frame_cases).
  assert (H6 : forall d, rawText (step6 d) = rawText d
                         /\ invoiceNumber (step6 d) = invoiceNumber d
                         /\ date (step6 d) = date d
                         /\ vendorName (step6 d) = vendorName d)
    by (intros; unfold step6; frame_cases).
  assert (H7 : forall d, rawText (step7 d) = rawText d
                         /\ invoiceNumber (step7 d) = invoiceNumber d
                         /\ date (step7 d) = date d
                         /\ vendorName (step7 d) = vendorName d)
    by (intros; unfold step7; frame_cases).
  assert (H8 : forall d, rawText (step8 sorted d) = rawText d
                         /\ invoiceNumber (step8 sorted d) = invoiceNumber d
                         /\ date (step8 sorted d) = date d
                         /\ vendorName (step8 sorted d) = vendorName d).
  { intros d0. unfold step8.
    destruct sorted as [|x [|y l]]; simpl; frame_cases. }
  unfold postprocess, reconcile.
  repeat match goal with
         | |- context [step8 sorted ?x] =>
             destruct (H8 x) as (-> & -> & -> & ->)
         | |- context [step7 ?x] => destruct (H7 x) as (-> & -> & -> & ->)
         | |- context [step6 ?x] => destruct (H6 x) as (-> & -> & -> & ->)
         | |- context [step5 ?x] => destruct (H5 x) as (-> & -> & -> & ->)
         | |- context [step4 ?x] => destruct (H4 x) as (-> & -> & -> & ->)
         | |- context [step3 ?x] => destruct (H3 x) as (-> & -> & -> & ->)
         | |- context [step2_5 ?x] => destruct (H25 x) as (-> & -> & -> & ->)
         | |- context [step2 ?x] => destruct (H2 x) as (-> & -> & -> & ->)
         | |- context [step1 z ?x] => destruct (H1 x) as (-> & -> & -> & ->)
         end.
  repeat split; reflexivity.
Qed.

Lemma extract_rawText raw : rawText (extract raw) = raw.
Proof.
  rewrite extract_eq.
  repeat match goal with
         | |- context [extract_invoice ?a ?b ?x] =>
             destruct (extract_invoice_frame a b x) as (-> & _)
         | |- context [vendor_fallback ?a ?x] =>
             destruct (vendor_fallback_frame a x) as (-> & _)
         | |- context [extract_vendor ?a ?b ?x] =>
             destruct (extract_vendor_frame a b x) as (-> & _)
         | |- context [extract_date ?a ?x] =>
             destruct (extract_date_frame a x) as (-> & _)
         | |- context [total_clean ?x] =>
             destruct (total_clean_frame x) as (-> & _)
         | |- context [total_fallback ?a ?x] =>
             destruct (total_fallback_frame a x) as (-> & _)
         | |- context [extract_total ?a ?b ?x] =>
             destruct (extract_total_frame a b x) as (-> & _)
         | |- context [extract_taxAmount ?a ?b ?x] =>
             destruct (extract_taxAmount_frame a b x) as (-> & _)
         | |- context [extract_taxPercentage ?a ?b ?x] =>
             destruct (extract_taxPercentage_frame a b x) as (-> & _)
         | |- context [extract_subtotal ?a ?b ?x] =>
             destruct (extract_subtotal_frame a b x) as (-> & _)
         end.
  reflexivity.
Qed.

(** X1.  The returned record carries the input text unchanged, and the
    post-processing never touches the vendor name, the invoice number or
    the date found by the extraction. *)
Theorem parse_keeps_text_and_labels raw :
  rawText (parse raw) = raw
  /\ vendorName (parse raw) = vendorName (extract raw)
  /\ invoiceNumber (parse raw) = invoiceNumber (extract raw)
  /\ date (parse raw) = date (extract raw).
Proof.
  unfold parse.
  destruct (postprocess_frame (zeroTaxMatch raw) (sortedAmounts raw) (extract raw))
    as (H1 & H2 & H3 & H4).
  rewrite H1, H2, H3, H4, extract_rawText. repeat split; reflexivity.
Qed.

(** ** The total found by extraction is trusted *)

Lemma step1_amount z d : amount (step1 z d) = amount d.
Proof. unfold step1. step_cases. Qed.

Lemma step2_amount d : amount (step2 d) = amount d.
Proof. unfold step2. step_cases. Qed.

Lemma step2_5_amount d : amount (step2_5 d) = amount d.
Proof. unfold step2_5. step_cases. Qed.

Lemma step3_amount d : amount (step3 d) = amount d.
Proof. unfold step3. step_cases. Qed.

Lemma step4_amount d : amount (step4 d) = amount d.
Proof. unfold step4. step_cases. Qed.

Lemma step5_amount d : amount (step5 d) = amount d.
Proof. unfold step5. step_cases. Qed.

Lemma step6_amount d a :
  amount d = Some a -> truthy a = true -> amount (step6 d) = Some a.
Proof.
  intros Ha Ht. unfold step6, present. rewrite Ha, Ht. simpl.
  destruct (subtotalAmount d), (taxAmount d); exact Ha.
Qed.

Lemma step7_amount d : amount (step7 d) = amount d.
Proof. unfold step7. step_cases. Qed.

Lemma postprocess_keeps_total z sorted d a :
  amount d = Some a -> truthy a = true ->
  amount (postprocess z sorted d) = Some a.
Proof.
  intros Ha Ht. unfold postprocess, reconcile.
  rewrite step8_amount, step7_amount.
  apply step6_amount; [|exact Ht].
  rewrite step5_amount, step4_amount, step3_amount, step2_5_amount,
    step2_amount, step1_amount. exact Ha.
Qed.

(** X2.  A non-zero total found by the extraction is never changed by the
    post-processing: the record returns it as it was extracted. *)
Theorem extracted_total_is_kept raw a :
  amount (extract raw) = Some a -> truthy a = true ->
  amount (parse raw) = Some a.
Proof. apply postprocess_keeps_total. Qed.

Lemma extracted_total_is_kept_witness :
  amount (parse scenarioC) = Some (dec 11000 (-2)).
Proof.
  apply (extracted_total_is_kept scenarioC (dec 11000 (-2)));
    vm_compute; reflexivity.
Defined.

(** ** Steps that do nothing *)

Lemma step1_idle d : step1 false d = d.
Proof. unfold step1. destruct (_ && _); reflexivity. Qed.

Lemma step2_idle d : taxAmount d = None -> step2 d = d.
Proof. intros H. unfold step2. rewrite H. destruct (amount d); reflexivity. Qed.

Lemma step2_idle_subtotal d :
  present (subtotalAmount d) = true -> step2 d = d.
Proof.
  intros H. unfold step2. rewrite H.
  destruct (amount d), (taxAmount d); reflexivity.
Qed.

Lemma step2_5_idle d : taxPercentage d = None -> step2_5 d = d.
Proof. intros H. unfold step2_5. rewrite H. destruct (amount d); reflexivity. Qed.

Lemma step2_5_idle_subtotal d :
  present (subtotalAmount d) = true -> step2_5 d = d.
Proof.
  intros H. unfold step2_5. rewrite H.
  destruct (amount d), (taxPercentage d); reflexivity.
Qed.

Lemma step3_idle d : taxPercentage d = None -> step3 d = d.
Proof.
  intros H. unfold step3. rewrite H. destruct (subtotalAmount d); reflexivity.
Qed.

Lemma step3_idle_subtotal d : subtotalAmount d = None -> step3 d = d.
Proof. intros H. unfold step3. rewrite H. reflexivity. Qed.

Lemma step4_idle d : subtotalAmount d = None -> step4 d = d.
Proof.
  intros H. unfold step4. rewrite H.
  destruct (taxAmount d), (amount d); reflexivity.
Qed.

Lemma step4_idle_tax d t : taxAmount d = Some t -> step4 d = d.
Proof. intros H. unfold step4. rewrite H. reflexivity. Qed.

Lemma step5_idle d : subtotalAmount d = None -> step5 d = d.
Proof.
  intros H. unfold step5. rewrite H. destruct (taxAmount d); reflexivity.
Qed.

Lemma step6_idle d : present (amount d) = true -> step6 d = d.
Proof.
  intros H. unfold step6. rewrite H.
  destruct (subtotalAmount d), (taxAmount d); reflexivity.
Qed.

Lemma step6_idle_subtotal d : subtotalAmount d = None -> step6 d = d.
Proof. intros H. unfold step6. rewrite H. reflexivity. Qed.

Lemma step7_idle d : subtotalAmount d = None -> step7 d = d.
Proof. intros H. unfold step7. rewrite H. reflexivity. Qed.

(** ** The last-resort fallback *)

(** With a total and nothing else, steps 1 to 7 do nothing. *)
Lemma reconcile_total_only d :
  subtotalAmount d = None -> taxAmount d = None -> taxPercentage d = None ->
  reconcile false d = d.
Proof.
  intros Hs Ht Hp. unfold reconcile.
  rewrite step1_idle, (step2_idle d Ht), (step2_5_idle d Hp),
    (step3_idle d Hp), (step4_idle d Hs), (step5_idle d Hs),
    (step6_idle_subtotal d Hs), (step7_idle d Hs).
  reflexivity.
Qed.

Lemma postprocess_total_only sorted d a :
  amount d = Some a -> subtotalAmount d = None -> taxAmount d = None ->
  taxPercentage d = None -> nth_error sorted 1 = None ->
  subtotalAmount (postprocess false sorted d) = Some a
  /\ amount (postprocess false sorted d) = Some a
  /\ taxAmount (postprocess false sorted d) = None
  /\ taxPercentage (postprocess false sorted d) = None.
Proof.
  intros Ha Hs Ht Hp Hn. unfold postprocess.
  rewrite (reconcile_total_only d Hs Ht Hp).
  unfold step8. rewrite Ha, Hs, Hn. simpl.
  repeat split; assumption.
Qed.

(** X3.  When the extraction finds a total and nothing else, the text has
    no explicit zero tax line and fewer than two money candidates, the
    record has the total as its subtotal and no tax fields (scenario D of
    the specification). *)
Theorem total_only_fallback raw a :
  amount (extract raw) = Some a ->
  subtotalAmount (extract raw) = None ->
  taxAmount (extract raw) = None ->
  taxPercentage (extract raw) = None ->
  zeroTaxMatch raw = false ->
  nth_error (sortedAmounts raw) 1 = None ->
  subtotalAmount (parse raw) = Some a
  /\ amount (parse raw) = Some a
  /\ taxAmount (parse raw) = None
  /\ taxPercentage (parse raw) = None.
Proof.
  intros Ha Hs Ht Hp Hz Hn. unfold parse. rewrite Hz.
  apply postprocess_total_only; assumption.
Qed.

Lemma total_only_fallback_witness :
  subtotalAmount (parse scenarioD) = Some (dec 8800 (-2))
  /\ amount (parse scenarioD) = Some (dec 8800 (-2))
  /\ taxAmount (parse scenarioD) = None
  /\ taxPercentage (parse scenarioD) = None.
Proof.
  apply (total_only_fallback scenarioD (dec 8800 (-2)));
    vm_compute; reflexivity.
Defined.

Lemma postprocess_second_candidate sorted d a s2 :
  amount d = Some a -> subtotalAmount d = None -> taxAmount d = None ->
  taxPercentage d = None -> nth_error sorted 1 = Some s2 ->
  ltb s2 a = true -> gtb s2 zero = true ->
  subtotalAmount (postprocess false sorted d) = Some s2
  /\ amount (postprocess false sorted d) = Some a
  /\ taxAmount (postprocess false sorted d) = Some (round2 (sub a s2))
  /\ taxPercentage (postprocess false sorted d) = None.
Proof.
  intros Ha Hs Ht Hp Hn Hlt Hgt. unfold postprocess.
  rewrite (reconcile_total_only d Hs Ht Hp).
  unfold step8. rewrite Ha, Hs, Hn, Hlt, Hgt. simpl. rewrite Ht. simpl.
  repeat split; assumption.
Qed.

(** X4.  When the extraction finds a total and nothing else, with no
    explicit zero tax line, and the second largest money candidate is
    positive and below the total, that candidate becomes the subtotal and
    the tax is [round2 (total - subtotal)]; no tax rate is derived, since
    the fallback runs after the step that derives it. *)
Theorem second_candidate_fallback raw a s2 :
  amount (extract raw) = Some a ->
  subtotalAmount (extract raw) = None ->
  taxAmount (extract raw) = None ->
  taxPercentage (extract raw) = None ->
  zeroTaxMatch raw = false ->
  nth_error (sortedAmounts raw) 1 = Some s2 ->
  ltb s2 a = true -> gtb s2 zero = true ->
  subtotalAmount (parse raw) = Some s2
  /\ amount (parse raw) = Some a
  /\ taxAmount (parse raw) = Some (round2 (sub a s2))
  /\ taxPercentage (parse raw) = None.
Proof.
  intros Ha Hs Ht Hp Hz Hn Hlt Hgt. unfold parse. rewrite Hz.
  apply postprocess_second_candidate; assumption.
Qed.

Lemma second_candidate_fallback_witness :
  subtotalAmount (parse desgloseText) = Some (dec 700 (-2))
  /\ amount (parse desgloseText) = Some (dec 10700 (-2))
  /\ taxAmount (parse desgloseText)
     = Some (round2 (sub (dec 10700 (-2)) (dec 700 (-2))))
  /\ taxPercentage (parse desgloseText) = None.
Proof.
  apply (second_candidate_fallback desgloseText (dec 10700 (-2)) (dec 700 (-2)));
    vm_compute; reflexivity.
Defined.

(** ** Validation at extraction *)

(** A positive number is truthy. *)
Lemma positive_truthy x : gtb x zero = true -> truthy x = true.
Proof. destruct x as [s|s| |s m e]; try reflexivity; discriminate. Qed.

Lemma extract_subtotal_positive ps txt d s :
  subtotalAmount d = None ->
  subtotalAmount (extract_subtotal ps txt d) = Some s -> gtb s zero = true.
Proof.
  revert d. induction ps as [|r ps IH]; intros d Hd; simpl.
  - rewrite Hd. discriminate.
  - destruct (exec r txt) as [m|]; [|apply IH; assumption].
    destruct (group_truthy m 1) as [g|]; [|apply IH; assumption].
    destruct (gtb (parseFloat (strip_commas g)) zero) eqn:E;
      [|apply IH; assumption].
    simpl. intros H. injection H as <-. exact E.
Qed.

Lemma extract_taxAmount_accepted ps txt d t :
  taxAmount d = None ->
  taxAmount (extract_taxAmount ps txt d) = Some t ->
  taxValue_accepted t d = true.
Proof.
  revert d. induction ps as [|r ps IH]; intros d Hd; simpl.
  - rewrite Hd. discriminate.
  - destruct (exec r txt) as [m|]; [|apply IH; assumption].
    destruct (taxValue_of m) as [v|]; [|apply IH; assumption].
    destruct (taxValue_accepted v d) eqn:E; [|apply IH; assumption].
    simpl. intros H. injection H as <-. exact E.
Qed.

(** The fields of [extract], stage by stage. *)
Lemma extract_subtotal_eq raw :
  subtotalAmount (extract raw)
  = subtotalAmount
      (extract_subtotal subtotalPatterns (extractionText (normalize raw))
         {| rawText := raw; amount := None; subtotalAmount := None;
            taxAmount := None; taxPercentage := None; invoiceNumber := None;
            date := None; vendorName := None |}).
Proof.
  rewrite extract_eq.
  destruct (extract_invoice_frame invoicePatterns raw
    (vendor_fallback (normalize raw)
       (extract_vendor vendorPatterns raw
          (extract_date (normalize raw)
             (total_clean
                (total_fallback (maxAmount raw)
                   (extract_total totalPatterns raw
                      (extract_taxAmount taxAmountPatterns
                         (extractionText (normalize raw))
                         (extract_taxPercentage taxPercentPatterns
                            (extractionText (normalize raw))
                            (extract_subtotal subtotalPatterns
                               (extractionText (normalize raw))
                               {| rawText := raw; amount := None;
                                  subtotalAmount := None; taxAmount := None;
                                  taxPercentage := None; invoiceNumber := None;
                                  date := None; vendorName := None |}))))))))))
    as (_ & _ & -> & _).
  repeat match goal with
         | |- context [vendor_fallback ?a ?x] =>
             destruct (vendor_fallback_frame a x) as (_ & _ & -> & _)
         | |- context [extract_vendor ?a ?b ?x] =>
             destruct (extract_vendor_frame a b x) as (_ & _ & -> & _)
         | |- context [extract_date ?a ?x] =>
             destruct (extract_date_frame a x) as (_ & _ & -> & _)
         | |- context [total_clean ?x] =>
             destruct (total_clean_frame x) as (_ & -> & _)
         | |- context [total_fallback ?a ?x] =>
             destruct (total_fallback_frame a x) as (_ & -> & _)
         | |- context [extract_total ?a ?b ?x] =>
             destruct (extract_total_frame a b x) as (_ & -> & _)
         | |- context [extract_taxAmount ?a ?b ?x] =>
             destruct (extract_taxAmount_frame a b x) as (_ & _ & -> & _)
         | |- context [extract_taxPercentage ?a ?b ?x] =>
             destruct (extract_taxPercentage_frame a b x) as (_ & _ & -> & _)
         end.
  reflexivity.
Qed.

Lemma extract_taxAmount_eq raw :
  taxAmount (extract raw)
  = taxAmount
      (extract_taxAmount taxAmountPatterns (extractionText (normalize raw))
         (extract_taxPercentage taxPercentPatterns
            (extractionText (normalize raw))
            (extract_subtotal subtotalPatterns (extractionText (normalize raw))
               {| rawText := raw; amount := None; subtotalAmount := None;
                  taxAmount := None; taxPercentage := None; invoiceNumber := None;
                  date := None; vendorName := None |}))).
Proof.
  rewrite extract_eq.
  destruct (extract_invoice_frame invoicePatterns raw
    (vendor_fallback (normalize raw)
       (extract_vendor vendorPatterns raw
          (extract_date (normalize raw)
             (total_clean
                (total_fallback (maxAmount raw)
                   (extract_total totalPatterns raw
                      (extract_taxAmount taxAmountPatterns
                         (extractionText (normalize raw))
                         (extract_taxPercentage taxPercentPatterns
                            (extractionText (normalize raw))
                            (extract_subtotal subtotalPatterns
                               (extractionText (normalize raw))
                               {| rawText := raw; amount := None;
                                  subtotalAmount := None; taxAmount := None;
                                  taxPercentage := None; invoiceNumber := None;
                                  date := None; vendorName := None |}))))))))))
    as (_ & _ & _ & -> & _).
  repeat match goal with
         | |- context [vendor_fallback ?a ?x] =>
             destruct (vendor_fallback_frame a x) as (_ & _ & _ & -> & _)
         | |- context [extract_vendor ?a ?b ?x] =>
             destruct (extract_vendor_frame a b x) as (_ & _ & _ & -> & _)
         | |- context [extract_date ?a ?x] =>
             destruct (extract_date_frame a x) as (_ & _ & _ & -> & _)
         | |- context [total_clean ?x] =>
             destruct (total_clean_frame x) as (_ & _ & -> & _)
         | |- context [total_fallback ?a ?x] =>
             destruct (total_fallback_frame a x) as (_ & _ & -> & _)
         | |- context [extract_total ?a ?b ?x] =>
             destruct (extract_total_frame a b x) as (_ & _ & -> & _)
         end.
  reflexivity.
Qed.

Lemma extracted_subtotal_positive_aux raw s :
  subtotalAmount (extract raw) = Some s -> gtb s zero = true.
Proof.
  rewrite extract_subtotal_eq.
  apply extract_subtotal_positive. reflexivity.
Qed.

(** X5.  The extraction stage assigns a subtotal only when it is
    positive (line 110). *)
Theorem extracted_subtotal_is_positive raw s :
  subtotalAmount (extract raw) = Some s -> gtb s zero = true.
Proof. apply extracted_subtotal_positive_aux. Qed.

Lemma extracted_subtotal_is_positive_witness :
  gtb (dec 10000 (-2)) zero = true.
Proof.
  apply (extracted_subtotal_is_positive scenarioC (dec 10000 (-2))).
  vm_compute. reflexivity.
Defined.

(** X6.  The extraction stage assigns a tax amount only when it is not
    negative and, if a subtotal was found, below that subtotal (lines
    170-172).  The total is extracted after the tax amount, so the
    comparison of the tax with the total (line 171) never rejects a
    candidate. *)
Theorem extracted_tax_is_validated raw t :
  taxAmount (extract raw) = Some t ->
  geb t zero = true
  /\ forall s, subtotalAmount (extract raw) = Some s -> ltb t s = true.
Proof.
  rewrite extract_taxAmount_eq, extract_subtotal_eq.
  set (d0 := {| rawText := raw; amount := None; subtotalAmount := None;
                taxAmount := None; taxPercentage := None;
                invoiceNumber := None; date := None; vendorName := None |}).
  set (d1 := extract_subtotal subtotalPatterns (extractionText (normalize raw)) d0).
  set (d2 := extract_taxPercentage taxPercentPatterns
               (extractionText (normalize raw)) d1).
  intros Ht.
  assert (Hacc : taxValue_accepted t d2 = true).
  { apply (extract_taxAmount_accepted taxAmountPatterns
             (extractionText (normalize raw)) d2 t); [|exact Ht].
    unfold d2.
    destruct (extract_taxPercentage_frame taxPercentPatterns
                (extractionText (normalize raw)) d1) as (_ & _ & _ & -> & _).
    unfold d1.
    destruct (extract_subtotal_frame subtotalPatterns
                (extractionText (normalize raw)) d0) as (_ & _ & -> & _).
    reflexivity. }
  unfold taxValue_accepted in Hacc.
  apply andb_true_iff in Hacc. destruct Hacc as [Hacc Hsub].
  apply andb_true_iff in Hacc. destruct Hacc as [Hge _].
  split; [exact Hge|].
  intros s Hs.
  assert (Hs2 : subtotalAmount d2 = Some s).
  { unfold d2.
    destruct (extract_taxPercentage_frame taxPercentPatterns
                (extractionText (normalize raw)) d1) as (_ & _ & -> & _).
    exact Hs. }
  assert (Hpos : gtb s zero = true).
  { apply (extract_subtotal_positive subtotalPatterns
             (extractionText (normalize raw)) d0 s); [reflexivity | exact Hs]. }
  rewrite Hs2 in Hsub. simpl in Hsub.
  rewrite (positive_truthy s Hpos) in Hsub. simpl in Hsub. exact Hsub.
Qed.

Lemma extracted_tax_is_validated_witness :
  geb (dec 500 (-2)) zero = true
  /\ forall s, subtotalAmount (extract scenarioC) = Some s ->
               ltb (dec 500 (-2)) s = true.
Proof.
  apply (extracted_tax_is_validated scenarioC (dec 500 (-2))).
  vm_compute. reflexivity.
Defined.

(** ** Tax derived from total and subtotal *)

Lemma step4_derives d s a :
  subtotalAmount d = Some s -> amount d = Some a -> taxAmount d = None ->
  truthy s = true -> truthy a = true ->
  step4 d = set_taxAmount (round2 (sub a s)) d.
Proof.
  intros Hs Ha Ht Hts Hta. unfold step4. rewrite Hs, Ha, Ht, Hts, Hta.
  reflexivity.
Qed.

Lemma step5_derives d s t :
  subtotalAmount d = Some s -> taxAmount d = Some t ->
  taxPercentage d = None -> gtb s zero = true ->
  step5 d = set_taxPercentage (round2 (mul (div t s) hundred)) d.
Proof.
  intros Hs Ht Hp Hpos. unfold step5. rewrite Hs, Ht, Hp, Hpos.
  rewrite (positive_truthy s Hpos). reflexivity.
Qed.

(** Step 7 on a record whose tax is already [round2 (total - subtotal)]
    and whose rate is already derived from it: both branches give the
    same fields. *)
Lemma step7_fields_fixed d s a :
  subtotalAmount d = Some s -> amount d = Some a ->
  taxAmount d = Some (round2 (sub a s)) ->
  taxPercentage d = Some (round2 (mul (div (round2 (sub a s)) s) hundred)) ->
  gtb s zero = true ->
  subtotalAmount (step7 d) = Some s
  /\ amount (step7 d) = Some a
  /\ taxAmount (step7 d) = Some (round2 (sub a s))
  /\ taxPercentage (step7 d)
     = Some (round2 (mul (div (round2 (sub a s)) s) hundred)).
Proof.
  intros Hs Ha Ht Hp Hpos. unfold step7. rewrite Hs, Ha, Ht.
  destruct (truthy s && truthy a); [|repeat split; assumption].
  destruct (gtb (abs (sub (round2 (add s (round2 (sub a s)))) a)) (dec 10 (-2)));
    [|repeat split; assumption].
  rewrite Hpos. simpl. repeat split; try assumption; reflexivity.
Qed.

Lemma postprocess_tax_from_total sorted d s a :
  subtotalAmount d = Some s -> amount d = Some a -> taxAmount d = None ->
  taxPercentage d = None -> gtb s zero = true -> truthy a = true ->
  subtotalAmount (postprocess false sorted d) = Some s
  /\ amount (postprocess false sorted d) = Some a
  /\ taxAmount (postprocess false sorted d) = Some (round2 (sub a s))
  /\ taxPercentage (postprocess false sorted d)
     = Some (round2 (mul (div (round2 (sub a s)) s) hundred)).
Proof.
  intros Hs Ha Ht Hp Hpos Hta.
  pose proof (positive_truthy s Hpos) as Hts.
  unfold postprocess, reconcile.
  rewrite step1_idle, (step2_idle d Ht), (step2_5_idle d Hp), (step3_idle d Hp).
  rewrite (step4_derives d s a Hs Ha Ht Hts Hta).
  rewrite (step5_derives _ s (round2 (sub a s))); try assumption; try reflexivity.
  rewrite step6_idle by (simpl; rewrite Ha; exact Hta).
  match goal with
  | |- context [step7 ?x] =>
      destruct (step7_fields_fixed x s a) as (H1 & H2 & H3 & H4);
        try assumption; try reflexivity
  end.
  rewrite step8_idle by (rewrite H1; exact Hts).
  repeat split; assumption.
Qed.

(** X7.  When the extraction finds a subtotal and a non-zero total but no
    tax amount and no tax rate, and the text has no explicit zero tax
    line, the record keeps subtotal and total, its tax amount is
    [round2 (total - subtotal)] and its rate is
    [round2 (tax / subtotal * 100)], whatever the check of step 7
    decides. *)
Theorem tax_derived_from_total_and_subtotal raw s a :
  subtotalAmount (extract raw) = Some s ->
  amount (extract raw) = Some a -> truthy a = true ->
  taxAmount (extract raw) = None ->
  taxPercentage (extract raw) = None ->
  zeroTaxMatch raw = false ->
  subtotalAmount (parse raw) = Some s
  /\ amount (parse raw) = Some a
  /\ taxAmount (parse raw) = Some (round2 (sub a s))
  /\ taxPercentage (parse raw)
     = Some (round2 (mul (div (round2 (sub a s)) s) hundred)).
Proof.
  intros Hs Ha Hta Ht Hp Hz.
  pose proof (extracted_subtotal_positive_aux raw s Hs) as Hpos.
  unfold parse. rewrite Hz.
  apply postprocess_tax_from_total; assumption.
Qed.

Lemma tax_derived_from_total_and_subtotal_witness :
  subtotalAmount (parse smallSubtotal) = Some (dec 1000 (-2))
  /\ amount (parse smallSubtotal) = Some (dec 10000 (-2))
  /\ taxAmount (parse smallSubtotal)
     = Some (round2 (sub (dec 10000 (-2)) (dec 1000 (-2))))
  /\ taxPercentage (parse smallSubtotal)
     = Some (round2 (mul (div (round2 (sub (dec 10000 (-2)) (dec 1000 (-2))))
                              (dec 1000 (-2))) hundred)).
Proof.
  apply (tax_derived_from_total_and_subtotal smallSubtotal
           (dec 1000 (-2)) (dec 10000 (-2)));
    vm_compute; reflexivity.
Defined.

(** ** Zero tax *)

Lemma round2_zero b : round2 (S754_zero b) = zero.
Proof. destruct b; vm_compute; reflexivity. Qed.

Lemma sub_self s m e :
  sub (S754_finite s m e) (S754_finite s m e) = S754_zero false.
Proof. unfold sub, SFsub. rewrite Z.sub_diag. reflexivity. Qed.

(** The tax computed from a rate of 0 never replaces a tax of 0. *)
Lemma zero_rate_keeps_zero_tax a :
  truthy a = true ->
  gtb (abs (sub (round2 (mul a (div zero hundred))) zero)) (dec 5 (-2)) = false.
Proof.
  intros Ha.
  destruct a as [s|s| |s m e]; try discriminate.
  - destruct s; vm_compute; reflexivity.
  - replace (mul (S754_finite s m e) (div zero hundred))
      with (S754_zero (xorb s false)) by (destruct s; reflexivity).
    rewrite round2_zero. vm_compute. reflexivity.
Qed.

(** The rate derived from a tax of 0 is 0. *)
Lemma zero_tax_rate a :
  gtb a zero = true -> round2 (mul (div zero a) hundred) = zero.
Proof.
  intros Ha.
  destruct a as [s|s| |s m e]; try discriminate; destruct s; try discriminate.
  - vm_compute. reflexivity.
  - replace (mul (div zero (S754_finite false m e)) hundred)
      with (S754_zero false) by reflexivity.
    apply round2_zero.
Qed.

(** When step 7 finds a discrepancy between a total and itself, the total
    is finite and the tax it writes is 0. *)
Lemma zero_tax_discrepancy a :
  truthy a = true ->
  gtb (abs (sub (round2 (add a zero)) a)) (dec 10 (-2)) = true ->
  round2 (sub a a) = zero.
Proof.
  intros Ha Hd.
  destruct a as [s|s| |s m e]; try discriminate.
  - destruct s; vm_compute in Hd; discriminate.
  - rewrite sub_self. apply round2_zero.
Qed.

Lemma step1_zero_tax d a :
  amount d = Some a -> truthy a = true ->
  present (taxAmount d) = false -> present (taxPercentage d) = false ->
  step1 true d
  = set_subtotalAmount a (set_taxPercentage zero (set_taxAmount zero d)).
Proof.
  intros Ha Hta Ht Hp. unfold step1. rewrite Ha, Ht, Hp. simpl.
  rewrite Hta. reflexivity.
Qed.

Lemma step3_zero_tax d a :
  subtotalAmount d = Some a -> truthy a = true ->
  taxAmount d = Some zero -> taxPercentage d = Some zero ->
  step3 d = d.
Proof.
  intros Hs Hta Ht Hp. unfold step3. rewrite Hs, Hp, Ht, Hta.
  rewrite (zero_rate_keeps_zero_tax a Hta). reflexivity.
Qed.

Lemma step5_zero_tax d a :
  subtotalAmount d = Some a -> amount d = Some a ->
  taxAmount d = Some zero -> taxPercentage d = Some zero ->
  subtotalAmount (step5 d) = Some a /\ amount (step5 d) = Some a
  /\ taxAmount (step5 d) = Some zero /\ taxPercentage (step5 d) = Some zero.
Proof.
  intros Hs Ha Ht Hp. unfold step5. rewrite Ht, Hs, Hp. simpl.
  destruct (truthy a && gtb a zero) eqn:E; [|repeat split; assumption].
  apply andb_true_iff in E. destruct E as [_ Hpos].
  simpl. rewrite (zero_tax_rate a Hpos). repeat split; assumption.
Qed.

Lemma step7_zero_tax d a :
  subtotalAmount d = Some a -> amount d = Some a ->
  taxAmount d = Some zero -> taxPercentage d = Some zero ->
  subtotalAmount (step7 d) = Some a /\ amount (step7 d) = Some a
  /\ taxAmount (step7 d) = Some zero /\ taxPercentage (step7 d) = Some zero.
Proof.
  intros Hs Ha Ht Hp. unfold step7. rewrite Hs, Ht, Ha.
  destruct (truthy a && truthy a) eqn:E; [|repeat split; assumption].
  apply andb_true_iff in E. destruct E as [Hta _].
  destruct (gtb (abs (sub (round2 (add a zero)) a)) (dec 10 (-2))) eqn:Hd;
    [|repeat split; assumption].
  rewrite (zero_tax_discrepancy a Hta Hd).
  destruct (gtb a zero) eqn:Hpos; simpl.
  - rewrite (zero_tax_rate a Hpos). repeat split; try assumption; reflexivity.
  - repeat split; try assumption; reflexivity.
Qed.

Lemma postprocess_zero_tax sorted d a :
  amount d = Some a -> truthy a = true ->
  present (taxAmount d) = false -> present (taxPercentage d) = false ->
  subtotalAmount (postprocess true sorted d) = Some a
  /\ amount (postprocess true sorted d) = Some a
  /\ taxAmount (postprocess true sorted d) = Some zero
  /\ taxPercentage (postprocess true sorted d) = Some zero.
Proof.
  intros Ha Hta Ht Hp. unfold postprocess, reconcile.
  rewrite (step1_zero_tax d a Ha Hta Ht Hp).
  set (d1 := set_subtotalAmount a (set_taxPercentage zero (set_taxAmount zero d))).
  assert (Hs1 : subtotalAmount d1 = Some a) by reflexivity.
  assert (Ha1 : amount d1 = Some a) by exact Ha.
  assert (Ht1 : taxAmount d1 = Some zero) by reflexivity.
  assert (Hp1 : taxPercentage d1 = Some zero) by reflexivity.
  assert (Hps : present (subtotalAmount d1) = true) by exact Hta.
  rewrite (step2_idle_subtotal d1 Hps), (step2_5_idle_subtotal d1 Hps).
  rewrite (step3_zero_tax d1 a Hs1 Hta Ht1 Hp1).
  rewrite (step4_idle_tax d1 zero Ht1).
  destruct (step5_zero_tax d1 a Hs1 Ha1 Ht1 Hp1) as (Hs5 & Ha5 & Ht5 & Hp5).
  rewrite step6_idle by (rewrite Ha5; exact Hta).
  destruct (step7_zero_tax (step5 d1) a Hs5 Ha5 Ht5 Hp5) as (Hs7 & Ha7 & Ht7 & Hp7).
  rewrite step8_idle by (rewrite Hs7; exact Hta).
  repeat split; assumption.
Qed.

(** X8.  Zero-tax detection: when the extraction finds a non-zero total and
    neither a tax amount nor a tax rate other than 0, and the text holds an
    explicit zero tax line, the record has tax amount 0, tax rate 0 and the
    total as its subtotal, whatever subtotal was extracted. *)
Theorem zero_tax_detection raw a :
  amount (extract raw) = Some a -> truthy a = true ->
  present (taxAmount (extract raw)) = false ->
  present (taxPercentage (extract raw)) = false ->
  zeroTaxMatch raw = true ->
  subtotalAmount (parse raw) = Some a
  /\ amount (parse raw) = Some a
  /\ taxAmount (parse raw) = Some zero
  /\ taxPercentage (parse raw) = Some zero.
Proof.
  intros Ha Hta Ht Hp Hz. unfold parse. rewrite Hz.
  apply postprocess_zero_tax; assumption.
Qed.

Lemma zero_tax_detection_witness :
  subtotalAmount (parse scenarioB) = Some (dec 5000 (-2))
  /\ amount (parse scenarioB) = Some (dec 5000 (-2))
  /\ taxAmount (parse scenarioB) = Some zero
  /\ taxPercentage (parse scenarioB) = Some zero.
Proof.
  apply (zero_tax_detection scenarioB (dec 5000 (-2)));
    vm_compute; reflexivity.
Defined.

(** ** Where the characters of a match come from *)

Lemma Forall_firstn_in (A : char -> Prop) n (s : str) :
  Forall A s -> Forall A (firstn n s).
Proof.
  intros H. rewrite <- (firstn_skipn n s) in H.
  apply Forall_app in H. exact (proj1 H).
Qed.

Lemma Forall_skipn_in (A : char -> Prop) n (s : str) :
  Forall A s -> Forall A (skipn n s).
Proof.
  intros H. rewrite <- (firstn_skipn n s) in H.
  apply Forall_app in H. exact (proj2 H).
Qed.

Lemma Forall_filter_in {T} (Q : T -> Prop) f (l : list T) :
  Forall Q l -> Forall Q (filter f l).
Proof.
  intros H. apply Forall_forall. intros x Hx.
  rewrite Forall_forall in H. apply H.
  apply filter_In in Hx. exact (proj1 Hx).
Qed.

(** A property of the states of the matcher that every step of a run
    keeps. *)
Section RunInvariant.

Variable Q : mstate -> Prop.
Hypothesis Q_advance : forall st, Q st -> Q (advance st).
Hypothesis Q_set_cap : forall i n st0 st,
  Q st0 -> Q st -> Q (set_cap i (firstn n (rest st0)) st).
Hypothesis Q_clear_caps : forall gs st, Q st -> Q (clear_caps gs st).
Hypothesis Q_look : forall st st',
  Q st -> Q st' ->
  Q {| prev := prev st; rest := rest st; left := left st;
       pos := pos st; caps := caps st' |}.

(** A successful run hands its continuation a state with the property. *)
Lemma rep_loop_invariant m gs greedy :
  (forall st k res, Q st -> m st k = Some res ->
                    exists st', Q st' /\ k st' = Some res) ->
  forall fuel mn mx st k res,
    Q st ->
    rep_loop m gs greedy fuel mn mx st k = Some res ->
    exists st', Q st' /\ k st' = Some res.
Proof.
  intros Hm. induction fuel as [|f IH]; intros mn mx st k res Hok H;
    [discriminate|].
  simpl in H.
  assert (Hk : k st = Some res -> exists st', Q st' /\ k st' = Some res)
    by (intros E; exists st; split; assumption).
  assert (Hit : forall mx',
    m (clear_caps gs st)
      (fun st' => if (mn =? 0)%nat && (pos st' =? pos st)%N then None
                  else rep_loop m gs greedy f (Nat.pred mn) mx' st' k)
    = Some res -> exists st', Q st' /\ k st' = Some res).
  { intros mx' E. apply Hm in E; [|apply Q_clear_caps; assumption].
    destruct E as (st1 & Hok1 & E1).
    destruct ((mn =? 0)%nat && (pos st1 =? pos st)%N); [discriminate|].
    exact (IH _ _ _ _ _ Hok1 E1). }
  destruct mx as [[|n]|]; [auto| |].
  - destruct (0 <? mn)%nat; [exact (Hit _ H)|].
    destruct greedy.
    + match type of H with
      | match ?e with _ => _ end = _ => destruct e eqn:E
      end; [|auto].
      injection H as <-. exact (Hit _ E).
    + destruct (k st) eqn:E; [injection H as <-; auto|exact (Hit _ H)].
  - destruct (0 <? mn)%nat; [exact (Hit _ H)|].
    destruct greedy.
    + match type of H with
      | match ?e with _ => _ end = _ => destruct e eqn:E
      end; [|auto].
      injection H as <-. exact (Hit _ E).
    + destruct (k st) eqn:E; [injection H as <-; auto|exact (Hit _ H)].
Qed.

Lemma run_invariant icase r : forall st k res,
  Q st -> run icase r st k = Some res ->
  exists st', Q st' /\ k st' = Some res.
Proof.
  induction r; intros st k res Hok H; simpl in H.
  - exists st; split; assumption.
  - destruct (rest st) eqn:E; [discriminate|].
    destruct (canon icase c0 =? canon icase c)%N; [|discriminate].
    exists (advance st); split; [apply Q_advance|]; assumption.
  - destruct (rest st) eqn:E; [discriminate|].
    destruct (is_line_terminator c); [discriminate|].
    exists (advance st); split; [apply Q_advance|]; assumption.
  - destruct (rest st) eqn:E; [discriminate|].
    destruct (xorb neg (cls_has icase items c)); [|discriminate].
    exists (advance st); split; [apply Q_advance|]; assumption.
  - apply IHr1 in H; [|assumption]. destruct H as (st1 & Hok1 & H1).
    exact (IHr2 _ _ _ Hok1 H1).
  - destruct (run icase r1 st k) eqn:E.
    + injection H as <-. exact (IHr1 _ _ _ Hok E).
    + exact (IHr2 _ _ _ Hok H).
  - exact (rep_loop_invariant _ _ _ IHr _ _ _ _ _ _ Hok H).
  - apply IHr in H; [|assumption]. destruct H as (st1 & Hok1 & H1).
    eexists; split; [|exact H1]. apply Q_set_cap; assumption.
  - destruct (run icase r st (fun st' => Some st')) eqn:E.
    + destruct positive; [|discriminate].
      apply IHr in E; [|assumption]. destruct E as (st1 & Hok1 & E1).
      injection E1 as ->.
      eexists; split; [|exact H]. apply Q_look; assumption.
    + destruct positive; [discriminate|]. exists st; split; assumption.
  - destruct (xorb neg _); [|discriminate]. exists st; split; assumption.
  - destruct (prev st); [discriminate|]. exists st; split; assumption.
  - destruct (rest st); [|discriminate]. exists st; split; assumption.
  - discriminate.
Qed.

(** A sequence fails where its second part fails at every state that has
    the property. *)
Lemma run_seq_none icase a b st k :
  Q st -> (forall st', Q st' -> run icase b st' k = None) ->
  run icase (Seq a b) st k = None.
Proof.
  intros Hok Hb. simpl.
  destruct (run icase a st (fun st' => run icase b st' k)) eqn:E;
    [|reflexivity].
  apply run_invariant in E; [|assumption].
  destruct E as (st1 & Hok1 & E). rewrite (Hb _ Hok1) in E. discriminate.
Qed.

End RunInvariant.

Section Provenance.

Variable A : char -> Prop.

Lemma chars_ok_advance st : chars_ok A st -> chars_ok A (advance st).
Proof.
  intros [H1 H2]. unfold advance.
  destruct (rest st) as [|c r] eqn:E; split; simpl; try assumption.
  - rewrite E. constructor.
  - inversion H1; assumption.
Qed.

Lemma chars_ok_set_cap i n st0 st :
  chars_ok A st0 -> chars_ok A st ->
  chars_ok A (set_cap i (firstn n (rest st0)) st).
Proof.
  intros [H0 _] [H1 H2]. split; simpl; [assumption|].
  constructor; [apply Forall_firstn_in; assumption|].
  apply Forall_filter_in; assumption.
Qed.

Lemma chars_ok_clear_caps gs st : chars_ok A st -> chars_ok A (clear_caps gs st).
Proof.
  intros [H1 H2]. split; simpl; [assumption|].
  apply Forall_filter_in; assumption.
Qed.

Lemma chars_ok_look st st' :
  chars_ok A st -> chars_ok A st' ->
  chars_ok A {| prev := prev st; rest := rest st; left := left st;
                pos := pos st; caps := caps st' |}.
Proof. intros [H1 _] [_ H2]. split; assumption. Qed.

Lemma run_inv icase r st k res :
  chars_ok A st -> run icase r st k = Some res ->
  exists st', chars_ok A st' /\ k st' = Some res.
Proof.
  apply (run_invariant (chars_ok A) chars_ok_advance chars_ok_set_cap
                       chars_ok_clear_caps chars_ok_look).
Qed.

Lemma match_here_chars r p s n i m :
  Forall A s -> match_here r p s n i = Some m ->
  Forall A (matched m) /\ Forall (fun c => Forall A (snd c)) (groups m).
Proof.
  intros Hs H. unfold match_here in H.
  destruct (run _ _ _ _) eqn:E; [|discriminate]. injection H as <-.
  apply run_inv in E; [|split; [exact Hs|constructor]].
  destruct E as (st' & [_ Hc] & E). injection E as ->. simpl.
  split; [apply Forall_firstn_in; assumption|assumption].
Qed.

Lemma search_chars r : forall s p n i m,
  Forall A s -> search r p s n i = Some m ->
  Forall A (matched m) /\ Forall (fun c => Forall A (snd c)) (groups m).
Proof.
  induction s as [|x s IH]; intros p n i m Hs H; simpl in H.
  - destruct (match_here r p [] n i) eqn:E; [|discriminate].
    injection H as <-. exact (match_here_chars _ _ _ _ _ _ Hs E).
  - destruct (match_here r p (x :: s) n i) eqn:E.
    + injection H as <-. exact (match_here_chars _ _ _ _ _ _ Hs E).
    + inversion Hs; subst. exact (IH _ _ _ _ H3 H).
Qed.

Lemma exec_chars r s m :
  Forall A s -> exec r s = Some m ->
  Forall A (matched m) /\ Forall (fun c => Forall A (snd c)) (groups m).
Proof. intros Hs H. exact (search_chars _ _ _ _ _ _ Hs H). Qed.

Lemma group_chars m i g :
  Forall (fun c => Forall A (snd c)) (groups m) -> group m i = Some g ->
  Forall A g.
Proof.
  intros Hc H. unfold group in H.
  destruct (find _ (groups m)) as [q|] eqn:E; [|discriminate].
  injection H as <-. apply find_some in E. destruct E as [E _].
  rewrite Forall_forall in Hc. exact (Hc _ E).
Qed.

Lemma group_truthy_chars m i g :
  Forall (fun c => Forall A (snd c)) (groups m) -> group_truthy m i = Some g ->
  Forall A g.
Proof.
  intros Hc H. unfold group_truthy in H.
  destruct (group m i) as [[|c r]|] eqn:E; try discriminate.
  injection H as <-. exact (group_chars _ _ _ Hc E).
Qed.

Lemma exec_group_chars r s m i g :
  Forall A s -> exec r s = Some m -> group_truthy m i = Some g -> Forall A g.
Proof.
  intros Hs He Hg. destruct (exec_chars _ _ _ Hs He) as [_ Hc].
  exact (group_truthy_chars _ _ _ Hc Hg).
Qed.

Lemma splice_chars repl : Forall A repl -> forall ms s i,
  Forall A s -> Forall A (splice ms s i repl).
Proof.
  intros Hr. induction ms as [|m ms IH]; intros s i Hs; simpl; [assumption|].
  apply Forall_app; split; [apply Forall_firstn_in; assumption|].
  apply Forall_app; split; [assumption|].
  apply IH. apply Forall_skipn_in; assumption.
Qed.

Lemma replace_all_chars r repl s :
  Forall A repl -> Forall A s -> Forall A (replace_all r repl s).
Proof. intros Hr Hs. apply splice_chars; assumption. Qed.

Lemma trimStart_chars s : Forall A s -> Forall A (trimStart s).
Proof.
  induction s as [|c s IH]; intros H; simpl; [constructor|].
  destruct (is_space c); [|assumption]. inversion H; auto.
Qed.

Lemma trim_chars s : Forall A s -> Forall A (trim s).
Proof.
  intros H. unfold trim, trimEnd.
  apply Forall_rev, trimStart_chars, Forall_rev, trimStart_chars, H.
Qed.

Lemma fold_replace_chars steps : forall s,
  Forall A (List.concat (List.map snd steps)) -> Forall A s ->
  Forall A (fold_left (fun t step => replace_all (fst step) (snd step) t)
                      steps s).
Proof.
  induction steps as [|[r repl] steps IH]; intros s Hw Hs; simpl; [assumption|].
  simpl in Hw. apply Forall_app in Hw. destruct Hw as [Hr Hw].
  apply IH; [assumption|]. apply replace_all_chars; assumption.
Qed.

Lemma normalize_chars s :
  Forall A normalizeWrites -> Forall A s -> Forall A (normalize s).
Proof.
  intros Hw Hs. unfold normalize. apply trim_chars.
  apply fold_replace_chars; assumption.
Qed.

Lemma extractionText_chars text :
  Forall A text -> Forall A (extractionText text).
Proof.
  intros Hs. unfold extractionText.
  destruct (exec totalsSectionPattern text) as [m|] eqn:E.
  - destruct (group m 2) eqn:G; [|constructor].
    destruct (exec_chars _ _ _ Hs E) as [_ Hc].
    exact (group_chars _ _ _ Hc G).
  - destruct (exec desglosePattern text) as [m|] eqn:E'; [|assumption].
    destruct (group m 2) eqn:G; [|constructor].
    destruct (exec_chars _ _ _ Hs E') as [_ Hc].
    exact (group_chars _ _ _ Hc G).
Qed.

End Provenance.

(** ** Patterns that need a character the text does not have *)

Lemma canon_backslash icase x :
  canon icase x = canon icase backslash -> x = backslash.
Proof.
  unfold canon, backslash. destruct icase; [|auto].
  change (upper 92%N) with 92%N. unfold upper.
  destruct ((97 <=? x) && (x <=? 122))%N eqn:E1.
  - apply andb_true_iff in E1. destruct E1 as [E1 E2].
    apply N.leb_le in E1, E2. lia.
  - destruct ((224 <=? x) && (x <=? 254) && negb (x =? 247))%N eqn:E2; [|auto].
    apply andb_true_iff in E2. destruct E2 as [E2 _].
    apply andb_true_iff in E2. destruct E2 as [E2 E3].
    apply N.leb_le in E2, E3. lia.
Qed.

Section Needs.

Variable icase : bool.
Variable c : char.
Hypothesis Hc : forall x, canon icase x = canon icase c -> x = c.

Lemma run_needs r : forall st k,
  needs c r = true -> chars_ok (fun x => x <> c) st -> run icase r st k = None.
Proof.
  induction r; intros st k Hn Hok; simpl in Hn; try discriminate; simpl.
  - apply N.eqb_eq in Hn. subst c0.
    destruct Hok as [Hr _]. destruct (rest st) as [|x s]; [reflexivity|].
    destruct (canon icase x =? canon icase c)%N eqn:E; [|reflexivity].
    apply N.eqb_eq in E. apply Hc in E. inversion Hr; subst. congruence.
  - destruct (needs c r1) eqn:E1; [exact (IHr1 _ _ eq_refl Hok)|].
    simpl in Hn.
    destruct (run icase r1 st (fun st' => run icase r2 st' k)) eqn:E;
      [|reflexivity].
    apply (run_inv (fun x => x <> c)) in E; [|assumption].
    destruct E as (st1 & Hok1 & E). rewrite (IHr2 _ _ Hn Hok1) in E.
    discriminate.
  - apply andb_true_iff in Hn. destruct Hn as [H1 H2].
    rewrite (IHr1 _ _ H1 Hok). exact (IHr2 _ _ H2 Hok).
  - apply andb_true_iff in Hn. destruct Hn as [Hn H3].
    apply andb_true_iff in Hn. destruct Hn as [H1 H2].
    rewrite Nat.add_succ_r. simpl.
    rewrite H1.
    assert (E : forall k', run icase r (clear_caps (groups_of r) st) k' = None)
      by (intros k'; apply IHr; [assumption|apply chars_ok_clear_caps; assumption]).
    destruct max as [[|n]|]; [discriminate| |]; apply E.
  - exact (IHr _ _ Hn Hok).
  - destruct positive; [|discriminate].
    rewrite (IHr _ _ Hn Hok). reflexivity.
Qed.

Lemma search_needs r : ignoreCase r = icase -> needs c (pattern r) = true ->
  forall s p n i, Forall (fun x => x <> c) s -> search r p s n i = None.
Proof.
  intros Hi Hn.
  assert (Hm : forall s p n i, Forall (fun x => x <> c) s ->
                               match_here r p s n i = None).
  { intros s p n i Hs. unfold match_here. rewrite Hi.
    rewrite run_needs; [reflexivity|assumption|].
    split; [exact Hs|constructor]. }
  induction s as [|x s IH]; intros p n i Hs; simpl; rewrite (Hm _ _ _ _ Hs).
  - reflexivity.
  - inversion Hs; subst. apply IH. assumption.
Qed.

End Needs.

Lemma exec_needs_backslash r s :
  needs backslash (pattern r) = true ->
  Forall (fun x => x <> backslash) s -> exec r s = None.
Proof.
  intros Hn Hs. unfold exec.
  apply (search_needs (ignoreCase r) backslash
           (canon_backslash (ignoreCase r)) r eq_refl Hn); assumption.
Qed.

Lemma contains_false c s :
  contains c s = false -> Forall (fun x => x <> c) s.
Proof.
  unfold contains. induction s as [|x s IH]; intros H; simpl in H;
    [constructor|].
  apply orb_false_iff in H. destruct H as [H1 H2].
  constructor; [apply N.eqb_neq; assumption|auto].
Qed.

Lemma Forall_contains c s :
  Forall (fun x => x <> c) s -> contains c s = false.
Proof.
  unfold contains. induction 1 as [|x s Hx Hs IH]; simpl; [reflexivity|].
  rewrite IH. apply N.eqb_neq in Hx. rewrite Hx. reflexivity.
Qed.

Lemma normalizeWrites_no_backslash :
  Forall (fun x => x <> backslash) normalizeWrites.
Proof. apply contains_false. vm_compute. reflexivity. Qed.

Lemma extract_taxAmount_skip p ps txt d :
  exec p txt = None ->
  extract_taxAmount (p :: ps) txt d = extract_taxAmount ps txt d.
Proof. intros H. simpl. rewrite H. reflexivity. Qed.

(** X9.  The first tax-amount pattern (written with doubled backslashes in
    a regular-expression literal) needs a backslash in the text: on a
    receipt text without one it never matches, and the tax amount is
    extracted as if the ladder began at its second pattern. *)
Theorem two_number_pattern_is_dead raw d :
  contains backslash raw = false ->
  (forall p, hd_error taxAmountPatterns = Some p ->
             exec p (extractionText (normalize raw)) = None)
  /\ extract_taxAmount taxAmountPatterns (extractionText (normalize raw)) d
     = extract_taxAmount (tl taxAmountPatterns)
                         (extractionText (normalize raw)) d.
Proof.
  intros Hraw.
  assert (Hs : Forall (fun x => x <> backslash)
                      (extractionText (normalize raw))).
  { apply extractionText_chars, normalize_chars;
      [exact normalizeWrites_no_backslash|apply contains_false; assumption]. }
  assert (He : forall p, hd_error taxAmountPatterns = Some p ->
                         exec p (extractionText (normalize raw)) = None).
  { intros p Hp. apply exec_needs_backslash; [|assumption].
    injection Hp as <-. vm_compute. reflexivity. }
  split; [exact He|].
  generalize dependent (extractionText (normalize raw)). intros txt _ He.
  apply extract_taxAmount_skip. apply He. reflexivity.
Qed.

Lemma two_number_pattern_is_dead_witness :
  (forall p, hd_error taxAmountPatterns = Some p ->
             exec p (extractionText (normalize scenarioC)) = None)
  /\ extract_taxAmount taxAmountPatterns
       (extractionText (normalize scenarioC)) (extract scenarioC)
     = extract_taxAmount (tl taxAmountPatterns)
         (extractionText (normalize scenarioC)) (extract scenarioC).
Proof.
  apply (two_number_pattern_is_dead scenarioC (extract scenarioC)).
  vm_compute. reflexivity.
Defined.

(** ** The text fields are cut out of the text *)

Section Labels.

Variable A : char -> Prop.

Lemma labels_ok_frame d d' :
  vendorName d' = vendorName d -> invoiceNumber d' = invoiceNumber d ->
  date d' = date d -> labels_ok A d -> labels_ok A d'.
Proof. intros H1 H2 H3 H. unfold labels_ok. rewrite H1, H2, H3. exact H. Qed.

Lemma labels_ok_set_date v d :
  Forall A v -> labels_ok A d -> labels_ok A (set_date v d).
Proof.
  intros Hv (H1 & H2 & H3). repeat split; simpl; auto.
  intros v' E. injection E as <-. exact Hv.
Qed.

Lemma labels_ok_set_vendorName v d :
  Forall A v -> labels_ok A d -> labels_ok A (set_vendorName v d).
Proof.
  intros Hv (H1 & H2 & H3). repeat split; simpl; auto.
  intros v' E. injection E as <-. exact Hv.
Qed.

Lemma labels_ok_set_invoiceNumber v d :
  Forall A v -> labels_ok A d -> labels_ok A (set_invoiceNumber v d).
Proof.
  intros Hv (H1 & H2 & H3). repeat split; simpl; auto.
  intros v' E. injection E as <-. exact Hv.
Qed.

Lemma extract_date_labels text d :
  Forall A text -> labels_ok A d -> labels_ok A (extract_date text d).
Proof.
  intros Ht Hd. unfold extract_date.
  assert (Hf : labels_ok A match exec datePattern text with
                           | Some m' => set_date (matched m') d
                           | None => d
                           end).
  { destruct (exec datePattern text) as [m'|] eqn:E; [|exact Hd].
    apply labels_ok_set_date; [|exact Hd].
    exact (proj1 (exec_chars A _ _ _ Ht E)). }
  destruct (exec labeledDatePattern text) as [m|] eqn:E; [|exact Hf].
  destruct (group_truthy m 1) as [g|] eqn:G; [|exact Hf].
  apply labels_ok_set_date; [|exact Hd].
  exact (exec_group_chars A _ _ _ _ _ Ht E G).
Qed.

Lemma extract_vendor_labels ps raw : forall d,
  Forall A raw -> labels_ok A d -> labels_ok A (extract_vendor ps raw d).
Proof.
  induction ps as [|p ps IH]; intros d Hr Hd; simpl; [exact Hd|].
  destruct (exec p raw) as [m|] eqn:E; [|auto].
  destruct (group_truthy m 1) as [g|] eqn:G; [|auto].
  apply labels_ok_set_vendorName; [|exact Hd].
  apply trim_chars. exact (exec_group_chars A _ _ _ _ _ Hr E G).
Qed.

Lemma split_lines_aux_chars s : forall cur,
  Forall A cur -> Forall A s -> Forall (Forall A) (split_lines_aux cur s).
Proof.
  induction s as [|c s IH]; intros cur Hc Hs; simpl.
  - constructor; [apply Forall_rev; exact Hc|constructor].
  - inversion Hs; subst. destruct (c =? LF)%N.
    + constructor; [apply Forall_rev; exact Hc|]. apply IH; [constructor|auto].
    + apply IH; [constructor|]; assumption.
Qed.

Lemma first_vendor_line_labels lines : forall d,
  Forall (Forall A) lines -> labels_ok A d ->
  labels_ok A (first_vendor_line lines d).
Proof.
  induction lines as [|l lines IH]; intros d Hl Hd; simpl; [exact Hd|].
  inversion Hl; subst.
  destruct (_ || _); [auto|].
  destruct (_ && _); [auto|].
  apply labels_ok_set_vendorName; assumption.
Qed.

Lemma vendor_fallback_labels text d :
  Forall A text -> labels_ok A d -> labels_ok A (vendor_fallback text d).
Proof.
  intros Ht Hd. unfold vendor_fallback.
  destruct (negb (present_str (vendorName d))); [|exact Hd].
  apply first_vendor_line_labels; [|exact Hd].
  apply Forall_filter_in. apply Forall_map.
  assert (H : Forall (Forall A) (split_lines text))
    by (apply split_lines_aux_chars; [constructor|exact Ht]).
  revert H. apply Forall_impl. intros l. apply trim_chars.
Qed.

Lemma extract_invoice_labels ps raw : forall d,
  Forall A raw -> labels_ok A d -> labels_ok A (extract_invoice ps raw d).
Proof.
  induction ps as [|p ps IH]; intros d Hr Hd; simpl; [exact Hd|].
  destruct (exec p raw) as [m|] eqn:E; [|auto].
  destruct (group_truthy m 1) as [g|] eqn:G; [|auto].
  destruct (_ && _); [|auto].
  apply labels_ok_set_invoiceNumber; [|exact Hd].
  apply trim_chars. exact (exec_group_chars A _ _ _ _ _ Hr E G).
Qed.

Lemma extract_labels raw :
  Forall A raw -> Forall A normalizeWrites -> labels_ok A (extract raw).
Proof.
  intros Hr Hw.
  assert (Ht : Forall A (normalize raw)) by (apply normalize_chars; assumption).
  rewrite extract_eq.
  apply extract_invoice_labels; [exact Hr|].
  apply vendor_fallback_labels; [exact Ht|].
  apply extract_vendor_labels; [exact Hr|].
  apply extract_date_labels; [exact Ht|].
  match goal with
  | |- labels_ok A (total_clean ?x) =>
      destruct (total_clean_frame x) as (_ & _ & _ & _ & H1 & H2 & H3);
      apply (labels_ok_frame x); auto; clear H1 H2 H3
  end.
  match goal with
  | |- labels_ok A (total_fallback ?a ?x) =>
      destruct (total_fallback_frame a x) as (_ & _ & _ & _ & H1 & H2 & H3);
      apply (labels_ok_frame x); auto; clear H1 H2 H3
  end.
  match goal with
  | |- labels_ok A (extract_total ?a ?b ?x) =>
      destruct (extract_total_frame a b x) as (_ & _ & _ & _ & H1 & H2 & H3);
      apply (labels_ok_frame x); auto; clear H1 H2 H3
  end.
  match goal with
  | |- labels_ok A (extract_taxAmount ?a ?b ?x) =>
      destruct (extract_taxAmount_frame a b x) as (_ & _ & _ & _ & H1 & H2 & H3);
      apply (labels_ok_frame x); auto; clear H1 H2 H3
  end.
  match goal with
  | |- labels_ok A (extract_taxPercentage ?a ?b ?x) =>
      destruct (extract_taxPercentage_frame a b x)
        as (_ & _ & _ & _ & H1 & H2 & H3);
      apply (labels_ok_frame x); auto; clear H1 H2 H3
  end.
  match goal with
  | |- labels_ok A (extract_subtotal ?a ?b ?x) =>
      destruct (extract_subtotal_frame a b x) as (_ & _ & _ & _ & H1 & H2 & H3);
      apply (labels_ok_frame x); auto; clear H1 H2 H3
  end.
  repeat split; simpl; discriminate.
Qed.

End Labels.

Lemma postprocess_labels (A : char -> Prop) z sorted d :
  labels_ok A d -> labels_ok A (postprocess z sorted d).
Proof.
  destruct (postprocess_frame z sorted d) as (_ & H2 & H3 & H4).
  exact (labels_ok_frame A d _ H4 H2 H3).
Qed.

Lemma parse_labels (A : char -> Prop) raw :
  Forall A raw -> Forall A normalizeWrites -> labels_ok A (parse raw).
Proof.
  intros Hr Hw. apply postprocess_labels. apply extract_labels; assumption.
Qed.

(** X10.  The vendor name, the invoice number and the date of the result
    are cut out of the text: each of their characters occurs in the input
    or is one of the characters that the normalisation writes (line feed,
    0, 1, 5, space, hyphen). *)
Theorem labels_come_from_the_text raw v x :
  vendorName (parse raw) = Some v \/ invoiceNumber (parse raw) = Some v
  \/ date (parse raw) = Some v ->
  In x v -> In x raw \/ In x normalizeWrites.
Proof.
  intros H Hx.
  assert (Hl : labels_ok (fun c => In c raw \/ In c normalizeWrites)
                         (parse raw))
    by (apply parse_labels; apply Forall_forall; auto).
  revert H Hl. generalize (parse raw). intros d H (L1 & L2 & L3).
  assert (Hv : Forall (fun c => In c raw \/ In c normalizeWrites) v)
    by (destruct H as [H|[H|H]]; auto).
  rewrite Forall_forall in Hv. exact (Hv x Hx).
Qed.

Lemma labels_come_from_the_text_witness :
  In 84%N scenarioC \/ In 84%N normalizeWrites.
Proof.
  apply (labels_come_from_the_text scenarioC (js "Total: 110.00") 84%N).
  - left. vm_compute. reflexivity.
  - vm_compute. left. reflexivity.
Defined.

(** ** [parseCurrency] reads the digits, commas, dots and minus signs only *)

Lemma parseCurrency_eq s :
  parseCurrency s
  = match s with
    | [] => NaN
    | _ => parseCleaned (replace_all symbolPattern [] (trim s))
    end.
Proof. destruct s; reflexivity. Qed.

Lemma space_not_kept c : is_space c = true -> kept c = false.
Proof.
  intros Hs. destruct (kept c) eqn:K; [|reflexivity].
  unfold kept in K.
  destruct (is_digit c) eqn:D;
    [rewrite (digit_not_space c D) in Hs; discriminate|].
  simpl in K.
  destruct (c =? 44)%N eqn:E1;
    [apply N.eqb_eq in E1; subst; discriminate|].
  destruct (c =? 46)%N eqn:E2;
    [apply N.eqb_eq in E2; subst; discriminate|].
  simpl in K. apply N.eqb_eq in K. subst. discriminate.
Qed.

Lemma kept_not_space c : kept c = true -> is_space c = false.
Proof.
  intros K. destruct (is_space c) eqn:E; [|reflexivity].
  rewrite (space_not_kept c E) in K. discriminate.
Qed.

Lemma filter_rev_comm {T} (f : T -> bool) l :
  filter f (rev l) = rev (filter f l).
Proof.
  induction l as [|x l IH]; simpl; [reflexivity|].
  rewrite filter_app, IH. simpl.
  destruct (f x); simpl; [reflexivity|apply app_nil_r].
Qed.

Lemma filter_trimStart s : filter kept (trimStart s) = filter kept s.
Proof.
  induction s as [|c s IH]; simpl; [reflexivity|].
  destruct (is_space c) eqn:E; [|reflexivity].
  rewrite (space_not_kept c E). exact IH.
Qed.

Lemma filter_trim s : filter kept (trim s) = filter kept s.
Proof.
  unfold trim, trimEnd.
  rewrite filter_rev_comm, filter_trimStart, filter_rev_comm, rev_involutive.
  apply filter_trimStart.
Qed.

Lemma remove_symbols s :
  flat_map (subst1 (fun x => negb (kept x)) []) s = filter kept s.
Proof.
  induction s as [|c s IH]; simpl; [reflexivity|].
  rewrite IH. unfold subst1. destruct (kept c); reflexivity.
Qed.

Lemma trimStart_kept s :
  Forall (fun x => kept x = true) s -> trimStart s = s.
Proof.
  intros H. destruct H as [|c s Hc _]; simpl; [reflexivity|].
  rewrite (kept_not_space c Hc). reflexivity.
Qed.

Lemma trim_kept s : Forall (fun x => kept x = true) s -> trim s = s.
Proof.
  intros H. unfold trim, trimEnd.
  rewrite (trimStart_kept s H).
  rewrite trimStart_kept by (apply Forall_rev; exact H).
  apply rev_involutive.
Qed.

Lemma filter_kept_all s : Forall (fun x => kept x = true) (filter kept s).
Proof.
  apply Forall_forall. intros x Hx. apply filter_In in Hx. exact (proj2 Hx).
Qed.

Lemma filter_id {T} (f : T -> bool) l :
  Forall (fun x => f x = true) l -> filter f l = l.
Proof.
  induction 1 as [|x l Hx _ IH]; simpl; [reflexivity|].
  rewrite Hx, IH. reflexivity.
Qed.

Lemma parseCleaned_nil : parseCleaned [] = NaN.
Proof. vm_compute. reflexivity. Qed.

(** On a text of kept characters, [parseCurrency] is its second half. *)
Lemma parseCurrency_kept s :
  s <> [] -> Forall (fun x => kept x = true) s ->
  parseCurrency s = parseCleaned s.
Proof.
  intros Hne H. rewrite parseCurrency_eq.
  destruct s as [|c s]; [congruence|].
  rewrite (trim_kept _ H).
  rewrite (replace_all_one_char symbolPattern _ symbolPattern_one_char).
  rewrite remove_symbols, (filter_id kept _ H). reflexivity.
Qed.

(** X11.  [parseCurrency] depends only on the digits, commas, dots and
    minus signs of its argument: every other character, such as a currency
    symbol, a letter or a space, is dropped before the text is read. *)
Theorem parseCurrency_ignores_other_characters s :
  parseCurrency s = parseCurrency (filter kept s).
Proof.
  rewrite (parseCurrency_eq s).
  destruct s as [|c s]; [reflexivity|].
  rewrite (replace_all_one_char symbolPattern _ symbolPattern_one_char).
  rewrite remove_symbols, filter_trim.
  destruct (filter kept (c :: s)) as [|x l] eqn:E.
  - rewrite parseCleaned_nil. reflexivity.
  - rewrite <- E. symmetry. apply parseCurrency_kept.
    + rewrite E. discriminate.
    + apply filter_kept_all.
Qed.

(** ** Patterns that end with a comma and two digits *)

Section Suffix.

Variable s : str.

Lemma suffix_of_advance st : suffix_of s st -> suffix_of s (advance st).
Proof.
  intros [pre E]. unfold advance.
  destruct (rest st) as [|c r] eqn:R; [exists pre; rewrite R; exact E|].
  exists (pre ++ [c]). simpl. rewrite <- app_assoc. exact E.
Qed.

Lemma suffix_of_set_cap i n (st0 st : mstate) :
  suffix_of s st0 -> suffix_of s st ->
  suffix_of s (set_cap i (firstn n (rest st0)) st).
Proof. intros _ H. exact H. Qed.

Lemma suffix_of_clear_caps gs st :
  suffix_of s st -> suffix_of s (clear_caps gs st).
Proof. intros H. exact H. Qed.

Lemma suffix_of_look (st st' : mstate) :
  suffix_of s st -> suffix_of s st' ->
  suffix_of s {| prev := prev st; rest := rest st; left := left st;
                 pos := pos st; caps := caps st' |}.
Proof. intros H _. exact H. Qed.

Lemma seq_none_in_text icase a b st k :
  suffix_of s st ->
  (forall st', suffix_of s st' -> run icase b st' k = None) ->
  run icase (Seq a b) st k = None.
Proof.
  apply (run_seq_none (suffix_of s) suffix_of_advance suffix_of_set_cap
                      suffix_of_clear_caps suffix_of_look).
Qed.

Lemma search_none_in_text r :
  (forall st, suffix_of s st ->
              run (ignoreCase r) (pattern r) st (fun st' => Some st') = None) ->
  forall s' pre p n i, s = pre ++ s' -> search r p s' n i = None.
Proof.
  intros Hrun.
  assert (Hm : forall s' pre p n i, s = pre ++ s' ->
                                    match_here r p s' n i = None).
  { intros s' pre p n i E. unfold match_here.
    rewrite Hrun; [reflexivity|]. exists pre. exact E. }
  induction s' as [|x s' IH]; intros pre p n i E; simpl;
    rewrite (Hm _ _ _ _ _ E); [reflexivity|].
  apply (IH (pre ++ [x])). rewrite <- app_assoc. exact E.
Qed.

End Suffix.

(** [,\d{2}$] matches a comma and two digits at the end of the text
    only. *)
Lemma comma_tail_only st k :
  run false
      (Seq (Chr 44%N) (Seq (Rep (Cls false [CDigit false]) 2 (Some 2) true) Eol))
      st k <> None ->
  exists a b, rest st = [44%N; a; b].
Proof.
  destruct st as [p r n i cs]. simpl rest.
  destruct r as [|x [|a [|b [|c r]]]]; intros H; simpl in H;
    try congruence; unfold canon in H;
    destruct (x =? 44)%N eqn:E; try congruence.
  - simpl in H. destruct (is_digit a); simpl in H; congruence.
  - apply N.eqb_eq in E. subst. exists a, b. reflexivity.
  - simpl in H. destruct (is_digit a); simpl in H; [|congruence].
    destruct (is_digit b); simpl in H; congruence.
Qed.

Lemma dotThousandsPattern2_node :
  pattern dotThousandsPattern2
  = Seq (Rep (Cls false [CDigit false]) 1 (Some 3) true)
      (Seq (Rep (Seq (Chr 46%N) (Rep (Cls false [CDigit false]) 3 (Some 3) true))
                1 None true)
           (Seq (Chr 44%N)
                (Seq (Rep (Cls false [CDigit false]) 2 (Some 2) true) Eol))).
Proof. vm_compute. reflexivity. Qed.

(** Neither dot-thousands pattern matches a text that does not end with a
    comma and two characters. *)
Lemma dotThousands_tests_false s :
  (forall pre a b, s <> pre ++ [44%N; a; b]) ->
  test dotThousandsPattern1 s = false /\ test dotThousandsPattern2 s = false.
Proof.
  intros Hs.
  assert (Htail : forall st k, suffix_of s st ->
    run false
      (Seq (Chr 44%N) (Seq (Rep (Cls false [CDigit false]) 2 (Some 2) true) Eol))
      st k = None).
  { intros st k [pre E].
    match goal with |- ?e = None => destruct e eqn:R; [|reflexivity] end.
    destruct (comma_tail_only st k) as (a & b & Hr); [congruence|].
    rewrite Hr in E. elim (Hs _ _ _ E). }
  split; unfold test, exec.
  - rewrite (search_none_in_text s dotThousandsPattern1) with (pre := []);
      [reflexivity| |reflexivity].
    intros st Hst. rewrite dotThousandsPattern1_node.
    change (ignoreCase dotThousandsPattern1) with false.
    apply (seq_none_in_text s); [exact Hst|]. intros st1 H1.
    apply (seq_none_in_text s); [exact H1|]. intros st2 H2.
    apply (seq_none_in_text s); [exact H2|]. intros st3 H3.
    apply Htail. exact H3.
  - rewrite (search_none_in_text s dotThousandsPattern2) with (pre := []);
      [reflexivity| |reflexivity].
    intros st Hst. rewrite dotThousandsPattern2_node.
    change (ignoreCase dotThousandsPattern2) with false.
    apply (seq_none_in_text s); [exact Hst|]. intros st1 H1.
    apply (seq_none_in_text s); [exact H1|]. intros st2 H2.
    apply Htail. exact H2.
Qed.

Lemma last_three (X Y : str) a b c a' b' c' :
  X ++ [a; b; c] = Y ++ [a'; b'; c'] -> a = a'.
Proof.
  intros E. apply (f_equal (@rev char)) in E.
  rewrite !rev_app_distr in E. simpl in E. congruence.
Qed.

(** ** Amounts with a decimal point *)

Lemma comma_groups_kept gs :
  Forall thousands_group gs ->
  Forall (fun x => kept x = true) (List.concat (List.map (cons (ch ",")) gs)).
Proof.
  induction 1 as [|g gs [_ Hg] _ IH]; simpl; [constructor|].
  constructor; [reflexivity|]. apply Forall_app. split; [|exact IH].
  revert Hg. apply Forall_impl. exact digit_kept.
Qed.

Lemma comma_thousands_kept g0 gs d1 d2 :
  digit_string g0 -> Forall thousands_group gs ->
  is_digit d1 = true -> is_digit d2 = true ->
  Forall (fun x => kept x = true) (comma_thousands g0 gs d1 d2).
Proof.
  intros Hg0 Hgs H1 H2. unfold comma_thousands.
  apply Forall_app. split; [revert Hg0; apply Forall_impl; exact digit_kept|].
  apply Forall_app. split; [apply comma_groups_kept; assumption|].
  repeat constructor; apply digit_kept; assumption.
Qed.

Lemma groups_without_commas gs :
  Forall thousands_group gs ->
  flat_map (subst1 (fun x => (x =? 44)%N) [])
           (List.concat (List.map (cons (ch ",")) gs))
  = List.concat gs.
Proof.
  induction 1 as [|g gs [_ Hg] _ IH]; simpl; [reflexivity|].
  simpl in IH. unfold str, char in *.
  rewrite flat_map_app, IH.
  rewrite subst1_digits; [reflexivity | | exact Hg].
  intros c Hc. apply digit_neq; [reflexivity | exact Hc].
Qed.

Lemma comma_thousands_without_commas g0 gs d1 d2 :
  digit_string g0 -> Forall thousands_group gs ->
  is_digit d1 = true -> is_digit d2 = true ->
  flat_map (subst1 (fun x => (x =? 44)%N) []) (comma_thousands g0 gs d1 d2)
  = (g0 ++ List.concat gs) ++ [46; d1; d2]%N.
Proof.
  intros Hg0 Hgs H1 H2. unfold comma_thousands.
  rewrite !flat_map_app, groups_without_commas by assumption.
  rewrite subst1_digits; [| |exact Hg0].
  - simpl. unfold subst1.
    rewrite (digit_neq 44%N d1 eq_refl H1), (digit_neq 44%N d2 eq_refl H2).
    simpl. rewrite <- app_assoc. reflexivity.
  - intros c Hc. apply digit_neq; [reflexivity | exact Hc].
Qed.

Lemma comma_thousands_tests g0 gs d1 d2 :
  test dotThousandsPattern1 (comma_thousands g0 gs d1 d2) = false
  /\ test dotThousandsPattern2 (comma_thousands g0 gs d1 d2) = false.
Proof.
  apply dotThousands_tests_false. intros pre a b E.
  unfold comma_thousands in E. rewrite app_assoc in E.
  apply last_three in E. discriminate.
Qed.

(** X12.  An amount written with commas between groups of three digits (or
    with no separator at all) and a decimal point with two decimals, such
    as 1,234.56, is read as that number of hundredths, correctly
    rounded. *)
Theorem comma_thousands_amount g0 gs d1 d2 :
  g0 <> [] -> digit_string g0 -> Forall thousands_group gs ->
  is_digit d1 = true -> is_digit d2 = true ->
  parseCurrency (comma_thousands g0 gs d1 d2)
  = of_decimal false (decimal_value (g0 ++ List.concat gs ++ [d1; d2])) (-2).
Proof.
  intros Hne Hg0 Hgs H1 H2.
  rewrite parseCurrency_kept;
    [| destruct g0; [congruence|discriminate]
     | apply comma_thousands_kept; assumption].
  assert (Hstrip : parseFloat (replace_all commaPattern []
                                 (comma_thousands g0 gs d1 d2))
                   = of_decimal false
                       (decimal_value (g0 ++ List.concat gs ++ [d1; d2])) (-2)).
  { rewrite (replace_all_one_char commaPattern _ commaPattern_one_char).
    rewrite comma_thousands_without_commas by assumption.
    rewrite parseFloat_two_decimals;
      [| destruct g0; [congruence | discriminate]
       | apply digit_string_app; [assumption | apply digit_string_concat; assumption]
       | assumption | assumption].
    rewrite <- app_assoc. reflexivity. }
  destruct (comma_thousands_tests g0 gs d1 d2) as [T1 T2].
  unfold parseCleaned. cbv zeta. rewrite T1, T2.
  assert (Hv : forall v : number, v = of_decimal false
                 (decimal_value (g0 ++ List.concat gs ++ [d1; d2])) (-2) ->
               (if isNaN v then NaN else v) = v)
    by (intros v ->; destruct (of_decimal _ _ _); reflexivity).
  assert (Hdot : contains (ch ".") (comma_thousands g0 gs d1 d2) = true).
  { unfold contains, comma_thousands. rewrite !existsb_app. simpl.
    rewrite !orb_true_r. reflexivity. }
  rewrite Hdot.
  destruct (contains (ch ",") (comma_thousands g0 gs d1 d2));
    simpl; rewrite Hv by exact Hstrip; exact Hstrip.
Qed.

Lemma comma_thousands_amount_witness :
  parseCurrency (comma_thousands (js "1") [js "234"] 53%N 54%N)
  = of_decimal false
      (decimal_value (js "1" ++ List.concat [js "234"] ++ [53%N; 54%N])) (-2).
Proof.
  apply (comma_thousands_amount (js "1") [js "234"] 53%N 54%N).
  - discriminate.
  - repeat constructor.
  - repeat constructor.
  - reflexivity.
  - reflexivity.
Defined.

(** X13.  An amount written with dots between groups of three digits and a
    decimal comma with two decimals, such as 1.234,56, is read as that
    number of hundredths, correctly rounded. *)
Theorem dot_thousands_amount g0 gs d1 d2 :
  g0 <> [] -> digit_string g0 ->
  gs <> [] -> Forall thousands_group gs ->
  is_digit d1 = true -> is_digit d2 = true ->
  parseCurrency (dot_thousands g0 gs d1 d2)
  = of_decimal false (decimal_value (g0 ++ List.concat gs ++ [d1; d2])) (-2).
Proof. exact (parseCurrency_dot_thousands g0 gs d1 d2). Qed.

Lemma dot_thousands_amount_witness :
  parseCurrency (dot_thousands (js "1") [js "234"] 53%N 54%N)
  = of_decimal false
      (decimal_value (js "1" ++ List.concat [js "234"] ++ [53%N; 54%N])) (-2).
Proof.
  apply (dot_thousands_amount (js "1") [js "234"] 53%N 54%N).
  - discriminate.
  - repeat constructor.
  - discriminate.
  - repeat constructor.
  - reflexivity.
  - reflexivity.
Defined.

(** ** Amounts with a decimal comma *)

Lemma commaDecimalPattern_node :
  pattern commaDecimalPattern
  = Seq (Rep (Cls false [CDigit false]) 1 None true)
      (Seq (Chr 44%N)
           (Seq (Rep (Cls false [CDigit false]) 1 (Some 2) true) Eol)).
Proof. vm_compute. reflexivity. Qed.

(** [\d{1,2}] on two digits at the end of the text takes both. *)
Lemma run_digits_upto_two p a b n i k :
  is_digit a = true -> is_digit b = true ->
  k (mstate0 (Some b) [] n (N.succ (N.succ i))) <> None ->
  run false (Rep (Cls false [CDigit false]) 1 (Some 2) true)
      (mstate0 p [a; b] (S (S n)) i) k <> None.
Proof.
  intros Ha Hb Hk. simpl. rewrite Ha. simpl. rewrite Hb. simpl.
  replace (N.succ (N.succ i) =? N.succ i)%N with false
    by (symmetry; apply N.eqb_neq; lia).
  destruct (k _); [discriminate|congruence].
Qed.

Lemma commaDecimalPattern_here p i d x y :
  is_digit d = true -> is_digit x = true -> is_digit y = true ->
  match_here commaDecimalPattern p [d; 44; x; y]%N 4 i <> None.
Proof.
  intros Hd Hx Hy. unfold match_here.
  rewrite commaDecimalPattern_node.
  change (ignoreCase commaDecimalPattern) with false.
  change {| prev := p; rest := [d; 44; x; y]%N; left := 4;
            pos := i; caps := [] |}
    with (mstate0 p [d; 44; x; y]%N 4 i).
  rewrite run_seq, (run_digits_one p d 44%N _ 4 i _ Hd is_digit_comma).
  rewrite run_seq, run_chr_hit.
  rewrite run_seq.
  match goal with
  | |- match ?e with _ => _ end <> None =>
      assert (H : e <> None);
      [|destruct e; [discriminate|congruence]]
  end.
  apply (run_digits_upto_two _ x y 0 _ _ Hx Hy).
  rewrite run_eol. discriminate.
Qed.

Lemma commaDecimalPattern_test D d1 d2 :
  D <> [] -> digit_string D -> is_digit d1 = true -> is_digit d2 = true ->
  test commaDecimalPattern (D ++ [44; d1; d2]%N) = true.
Proof.
  intros Hne HD H1 H2.
  destruct (exists_last Hne) as (pre & d & ->).
  apply Forall_app in HD. destruct HD as [_ Hd].
  inversion Hd as [|? ? Hd' _]; subst.
  rewrite <- app_assoc. simpl app.
  unfold test, exec.
  pose proof (search_suffix commaDecimalPattern [d; 44; d1; d2]%N
                (fun p i => commaDecimalPattern_here p i d d1 d2 Hd' H1 H2)
                pre None 0%N) as Hs.
  destruct (search _ _ _ _ _); [reflexivity|congruence].
Qed.

(** X14.  An amount written with a decimal comma and two decimals and no
    other separator, such as 1234,56, is read as that number of
    hundredths, correctly rounded. *)
Theorem comma_decimal_amount D d1 d2 :
  D <> [] -> digit_string D -> is_digit d1 = true -> is_digit d2 = true ->
  parseCurrency (D ++ [44; d1; d2]%N)
  = of_decimal false (decimal_value (D ++ [d1; d2])) (-2).
Proof.
  intros Hne HD H1 H2.
  assert (Hk : Forall (fun x => kept x = true) (D ++ [44; d1; d2]%N)).
  { apply Forall_app. split; [revert HD; apply Forall_impl; exact digit_kept|].
    repeat constructor; apply digit_kept; assumption. }
  rewrite parseCurrency_kept;
    [| destruct D; [congruence|discriminate] | exact Hk].
  assert (Hdot : contains (ch ".") (D ++ [44; d1; d2]%N) = false).
  { unfold contains. rewrite existsb_app. simpl.
    rewrite (digit_neq 46%N d1 eq_refl H1), (digit_neq 46%N d2 eq_refl H2).
    simpl. rewrite orb_false_r.
    clear Hne Hk. induction HD as [|c D Hc _ IH]; simpl; [reflexivity|].
    rewrite (digit_neq 46%N c eq_refl Hc). exact IH. }
  assert (Hcomma : contains (ch ",") (D ++ [44; d1; d2]%N) = true).
  { unfold contains. rewrite existsb_app. simpl.
    apply orb_true_r. }
  unfold parseCleaned. cbv zeta. rewrite Hdot, Hcomma. simpl andb. cbv iota.
  rewrite (commaDecimalPattern_test D d1 d2 Hne HD H1 H2).
  rewrite (replace_all_one_char commaPattern _ commaPattern_one_char).
  rewrite comma_to_point by assumption.
  rewrite parseFloat_two_decimals by assumption.
  destruct (of_decimal _ _ _); reflexivity.
Qed.

Lemma comma_decimal_amount_witness :
  parseCurrency (js "1234" ++ [44; 53; 54]%N)
  = of_decimal false (decimal_value (js "1234" ++ [53; 54]%N)) (-2).
Proof.
  apply (comma_decimal_amount (js "1234") 53%N 54%N).
  - discriminate.
  - repeat constructor.
  - reflexivity.
  - reflexivity.
Defined.

(** ** Reading a decimal text, in general *)

Lemma fold_digit_step F : forall acc,
  digit_string F ->
  fold_left digit_step F acc
  = (acc * 10 ^ Z.of_nat (List.length F) + fold_left digit_step F 0)%Z.
Proof.
  induction F as [|c F IH]; intros acc HF.
  - simpl. lia.
  - inversion HF as [|? ? Hc HF']; subst.
    simpl fold_left. rewrite (IH (digit_step acc c) HF').
    rewrite (IH (digit_step 0 c) HF').
    unfold digit_step. simpl List.length. rewrite Nat2Z.inj_succ, Z.pow_succ_r by lia.
    ring.
Qed.

Lemma decimal_value_app D F :
  digit_string F ->
  decimal_value (D ++ F)
  = (decimal_value D * 10 ^ Z.of_nat (List.length F) + decimal_value F)%Z.
Proof.
  intros HF. unfold decimal_value. rewrite fold_left_app.
  apply fold_digit_step. exact HF.
Qed.

(** The text [D.F] followed by something that is neither a digit nor an
    exponent mark reads as the integer [D F] divided by ten to the number
    of digits of [F]. *)
Lemma parseFloat_decimal (D F R : str) :
  D <> [] -> digit_string D -> digit_string F ->
  match R with
  | [] => True
  | x :: _ => is_digit x = false /\ x <> 101%N /\ x <> 69%N
  end ->
  parseFloat (D ++ 46%N :: F ++ R)
  = of_decimal false (decimal_value (D ++ F)) (- Z.of_nat (List.length F)).
Proof.
  intros Hne HD HF HR.
  destruct D as [|c D]; [congruence|].
  inversion HD as [|? ? Hc HD']; subst.
  unfold parseFloat.
  simpl app. simpl trimStart. rewrite (digit_not_space c Hc).
  rewrite (digit_neq 45%N c eq_refl Hc), (digit_neq 43%N c eq_refl Hc).
  rewrite js_Infinity.
  assert (Hinf : forall X, starts_with [73; 110; 102; 105; 110; 105; 116; 121]%N
                                       (c :: X) = false).
  { intros X. rewrite starts_with_cons, N.eqb_sym,
      (digit_neq 73%N c eq_refl Hc). reflexivity. }
  rewrite Hinf.
  change (c :: D ++ 46%N :: F ++ R) with ((c :: D) ++ 46%N :: F ++ R).
  rewrite digits_app by assumption.
  assert (Hstop : forall acc n,
             digits (46%N :: F ++ R) acc n = (acc, n, 46%N :: F ++ R))
    by reflexivity.
  rewrite Hstop. cbv beta iota zeta.
  rewrite N.eqb_refl.
  rewrite (digits_app F R 0 0 HF).
  assert (HstopR : forall acc n, digits R acc n = (acc, n, R)).
  { intros acc n. destruct R as [|x R]; [reflexivity|].
    simpl. destruct HR as [-> _]. reflexivity. }
  rewrite HstopR. cbv beta iota zeta.
  match goal with
  | |- context [((?a =? 0)%Z && _)%bool] =>
      assert (Hic : (a =? 0)%Z = false)
        by (apply Z.eqb_neq; simpl List.length; lia);
      rewrite Hic
  end.
  simpl andb. cbv beta iota zeta.
  assert (Hexp : exponent_part R = 0%Z).
  { destruct R as [|x R]; [reflexivity|].
    destruct HR as (_ & H1 & H2). unfold exponent_part.
    apply N.eqb_neq in H1, H2. rewrite H1, H2. reflexivity. }
  rewrite Hexp.
  match goal with
  | |- of_decimal false ?m ?e = of_decimal false ?m' ?e' =>
      replace m with m'; [replace e with e' by lia; reflexivity|]
  end.
  change (c :: D ++ F) with ((c :: D) ++ F).
  rewrite (decimal_value_app (c :: D) F HF). unfold decimal_value.
  rewrite Z.add_0_l. reflexivity.
Qed.

(** ** Dot-thousands amounts with one decimal *)

Lemma dot_groups_no_comma gs :
  Forall thousands_group gs ->
  Forall (fun x => (x =? 44)%N = false)
         (List.concat (List.map (cons (ch ".")) gs)).
Proof.
  induction 1 as [|g gs [_ Hg] _ IH]; simpl; [constructor|].
  constructor; [reflexivity|]. apply Forall_app. split; [|exact IH].
  revert Hg. apply Forall_impl. intros c Hc.
  exact (digit_neq 44%N c eq_refl Hc).
Qed.

Lemma dot_thousands_one_kept g0 gs d :
  digit_string g0 -> Forall thousands_group gs -> is_digit d = true ->
  Forall (fun x => kept x = true) (dot_thousands_one g0 gs d).
Proof.
  intros Hg0 Hgs Hd. unfold dot_thousands_one.
  apply Forall_app. split; [revert Hg0; apply Forall_impl; exact digit_kept|].
  apply Forall_app. split.
  - pose proof (groups_kept gs Hgs) as H. revert H. apply Forall_impl.
    intros x Hx. destruct (kept x); [reflexivity|discriminate].
  - repeat constructor. apply digit_kept; assumption.
Qed.

Lemma dot_thousands_one_without_commas g0 gs d :
  digit_string g0 -> Forall thousands_group gs -> is_digit d = true ->
  flat_map (subst1 (fun x => (x =? 44)%N) []) (dot_thousands_one g0 gs d)
  = g0 ++ List.concat (List.map (cons (ch ".")) gs) ++ [d].
Proof.
  intros Hg0 Hgs Hd. unfold dot_thousands_one.
  rewrite !flat_map_app.
  rewrite subst1_digits;
    [| intros c Hc; apply digit_neq; [reflexivity | exact Hc] | exact Hg0].
  rewrite (subst1_id _ _ _ (dot_groups_no_comma gs Hgs)).
  simpl. unfold subst1. rewrite (digit_neq 44%N d eq_refl Hd). reflexivity.
Qed.

Lemma dot_thousands_one_tests g0 gs d :
  gs <> [] -> Forall thousands_group gs ->
  test dotThousandsPattern1 (dot_thousands_one g0 gs d) = false
  /\ test dotThousandsPattern2 (dot_thousands_one g0 gs d) = false.
Proof.
  intros Hne Hgs. apply dotThousands_tests_false. intros pre x y E.
  destruct (exists_last Hne) as (gs' & g & ->).
  apply Forall_app in Hgs. destruct Hgs as [_ Hg].
  inversion Hg as [|g' l [Hlen Hdig] _]; subst.
  destruct g as [|a [|b [|c [|]]]]; try discriminate.
  assert (E' : (g0 ++ List.concat (List.map (cons (ch ".")) gs')
                   ++ [ch "."; a; b]) ++ [c; ch ","; d]
               = pre ++ [44%N; x; y]).
  { rewrite <- E. unfold dot_thousands_one.
    rewrite map_app, concat_app. simpl.
    rewrite <- !app_assoc. reflexivity. }
  clear E. rename E' into E.
  assert (Hc : is_digit c = true).
  { apply Forall_app with (l1 := [a; b]) (l2 := [c]) in Hdig.
    destruct Hdig as [_ Hdig]. inversion Hdig; assumption. }
  apply last_three in E. subst c. discriminate.
Qed.

(** X15.  A dot-thousands amount with a single decimal is not read as one:
    the dots are kept and the comma is dropped, so 1.234,5 is read as
    1.2345, and with more than one group, as in 1.234.567,5, the reading
    stops at the second dot and gives 1.234. *)
Theorem dot_thousands_one_decimal g0 g1 gs d :
  g0 <> [] -> digit_string g0 -> Forall thousands_group (g1 :: gs) ->
  is_digit d = true ->
  parseCurrency (dot_thousands_one g0 (g1 :: gs) d)
  = match gs with
    | [] => of_decimal false (decimal_value (g0 ++ g1 ++ [d])) (-4)
    | _ :: _ => of_decimal false (decimal_value (g0 ++ g1)) (-3)
    end.
Proof.
  intros Hne Hg0 Hgs Hd.
  rewrite parseCurrency_kept;
    [| destruct g0; [congruence|discriminate]
     | apply dot_thousands_one_kept; assumption].
  destruct (dot_thousands_one_tests g0 (g1 :: gs) d) as [T1 T2];
    [discriminate|assumption|].
  assert (Hdot : contains (ch ".") (dot_thousands_one g0 (g1 :: gs) d) = true).
  { unfold contains, dot_thousands_one. rewrite !existsb_app. simpl.
    rewrite orb_true_r. reflexivity. }
  assert (Hcomma : contains (ch ",") (dot_thousands_one g0 (g1 :: gs) d) = true).
  { unfold contains, dot_thousands_one. rewrite !existsb_app. simpl.
    rewrite !orb_true_r. reflexivity. }
  unfold parseCleaned. cbv zeta. rewrite Hdot, Hcomma, T1, T2.
  simpl andb. simpl orb. cbv iota.
  rewrite (replace_all_one_char commaPattern _ commaPattern_one_char).
  rewrite dot_thousands_one_without_commas by assumption.
  inversion Hgs as [|? ? [Hlen Hg1] Hgs']; subst.
  assert (Hv : forall v m e, v = of_decimal false m e ->
                             (if isNaN v then NaN else v) = of_decimal false m e)
    by (intros v m e ->; destruct (of_decimal _ _ _); reflexivity).
  destruct gs as [|g2 gs].
  - apply Hv. simpl. rewrite app_nil_r.
    assert (HF : digit_string (g1 ++ [d]))
      by (apply digit_string_app; [assumption|repeat constructor; assumption]).
    pose proof (parseFloat_decimal g0 (g1 ++ [d]) [] Hne Hg0 HF I) as HP.
    rewrite app_nil_r, length_app, Hlen in HP. exact HP.
  - apply Hv. simpl.
    assert (HR : is_digit 46%N = false /\ 46%N <> 101%N /\ 46%N <> 69%N)
      by (repeat split; discriminate).
    pose proof (parseFloat_decimal g0 g1
                  (46%N :: g2 ++ List.concat (List.map (cons 46%N) gs) ++ [d])
                  Hne Hg0 Hg1 HR) as HP.
    rewrite Hlen in HP. unfold str, char in *.
    repeat (rewrite <- app_assoc; simpl). exact HP.
Qed.

Lemma dot_thousands_one_decimal_witness :
  parseCurrency (dot_thousands_one (js "1") [js "234"] 53%N)
  = of_decimal false (decimal_value (js "1" ++ js "234" ++ [53%N])) (-4).
Proof.
  apply (dot_thousands_one_decimal (js "1") (js "234") [] 53%N).
  - discriminate.
  - repeat constructor.
  - repeat constructor.
  - reflexivity.
Defined.

(** ** Global replacements that leave no character of a kind *)

Section Removes.

Variable r : regexp.
Variable P : char -> bool.
Variable repl : str.

(** The pattern matches wherever a character of the kind stands, and no
    match is empty. *)
Hypothesis Hhit : forall p x s n i,
  P x = true -> match_here r p (x :: s) n i <> None.
Hypothesis Hnonempty : forall p s n i m,
  match_here r p s n i = Some m -> (i < lastIndex m)%N.
Hypothesis Hrepl : Forall (fun x => P x = false) repl.

Lemma match_here_index p s n i m :
  match_here r p s n i = Some m -> index m = i.
Proof.
  unfold match_here. destruct (run _ _ _ _); [|discriminate].
  intros H. injection H as <-. reflexivity.
Qed.

(** The text before the leftmost match has no character of the kind. *)
Lemma search_leftmost s : forall p n i,
  match search r p s n i with
  | None => Forall (fun x => P x = false) s
  | Some m =>
      exists j,
        index m = (i + N.of_nat j)%N
        /\ Forall (fun x => P x = false) (firstn j s)
        /\ (index m < lastIndex m)%N
  end.
Proof.
  induction s as [|x s IH]; intros p n i; simpl.
  - destruct (match_here r p [] n i) as [m|] eqn:E; [|constructor].
    exists 0%nat. rewrite (match_here_index _ _ _ _ _ E).
    repeat split; [lia|constructor|exact (Hnonempty _ _ _ _ _ E)].
  - destruct (match_here r p (x :: s) n i) as [m|] eqn:E.
    + exists 0%nat. rewrite (match_here_index _ _ _ _ _ E).
      repeat split; [lia|constructor|exact (Hnonempty _ _ _ _ _ E)].
    + assert (Hx : P x = false).
      { destruct (P x) eqn:Px; [|reflexivity].
        elim (Hhit p x s n i Px). exact E. }
      specialize (IH (Some x) (Nat.pred n) (N.succ i)).
      destruct (search r (Some x) s (Nat.pred n) (N.succ i)) as [m|].
      * destruct IH as (j & Hi & Hpre & Hl).
        exists (S j). repeat split; [lia| |exact Hl].
        simpl. constructor; assumption.
      * constructor; assumption.
Qed.

Lemma splice_removes f : forall s p i,
  (List.length s < f)%nat ->
  Forall (fun x => P x = false) (splice (exec_all f r p s i) s i repl).
Proof.
  induction f as [|f IH]; intros s p i Hlen; [lia|].
  rewrite exec_all_S.
  pose proof (search_leftmost s p (List.length s) i) as Hs.
  destruct (search r p s (List.length s) i) as [m|]; [|exact Hs].
  destruct Hs as (j & Hi & Hpre & Hl).
  assert (He : (lastIndex m =? index m)%N = false) by (apply N.eqb_neq; lia).
  cbv zeta. rewrite He.
  assert (Hj : N.to_nat (index m - i) = j) by lia.
  destruct (List.length s <? N.to_nat (lastIndex m - i))%nat eqn:Hd.
  - rewrite splice_cons, Hj. simpl splice.
    apply Forall_app. split; [exact Hpre|].
    apply Forall_app. split; [exact Hrepl|].
    apply Nat.ltb_lt in Hd. rewrite skipn_all2 by lia. constructor.
  - rewrite splice_cons, Hj.
    apply Forall_app. split; [exact Hpre|].
    apply Forall_app. split; [exact Hrepl|].
    apply IH. apply Nat.ltb_ge in Hd. rewrite length_skipn. lia.
Qed.

Lemma replace_all_removes s :
  Forall (fun x => P x = false) (replace_all r repl s).
Proof. unfold replace_all, matches_g. apply splice_removes. lia. Qed.

End Removes.

(** *** Tabs and no-break spaces *)

Lemma blankPattern_node :
  pattern (rx "[\u00A0\t]+")
  = Rep (Cls false [CChar 160%N; CChar 9%N]) 1 None true.
Proof. vm_compute. reflexivity. Qed.

Lemma pos_advance i st : (i <= pos st)%N -> (i <= pos (advance st))%N.
Proof.
  unfold advance. destruct (rest st); simpl; lia.
Qed.

Lemma blankPattern_hit p x s n i :
  (x =? 160)%N || (x =? 9)%N = true ->
  match_here (rx "[\u00A0\t]+") p (x :: s) n i <> None.
Proof.
  intros Hx. unfold match_here. rewrite blankPattern_node.
  change (ignoreCase (rx "[\u00A0\t]+")) with false.
  simpl. unfold cls_has. simpl. rewrite !orb_false_r. rewrite Hx. simpl.
  match goal with
  | |- match (match ?e with _ => _ end) with _ => _ end <> None =>
      destruct e; discriminate
  end.
Qed.

(** The first round of [a+]. *)
Lemma run_plus ic a st k g :
  run ic (Rep a 1 None g) st k
  = run ic a (clear_caps (groups_of a) st)
      (fun st' => rep_loop (run ic a) (groups_of a) g (S (left st)) 0 None st' k).
Proof. reflexivity. Qed.

Lemma run_cls ic neg items st k :
  run ic (Cls neg items) st k
  = match rest st with
    | x :: _ => if xorb neg (cls_has ic items x) then k (advance st) else None
    | [] => None
    end.
Proof. reflexivity. Qed.

(** A run never moves backwards. *)
Lemma run_forward icase r i st k res :
  (i < pos st)%N -> run icase r st k = Some res ->
  exists st', (i < pos st')%N /\ k st' = Some res.
Proof.
  apply (run_invariant (fun st => (i < pos st)%N)).
  - intros st0 H. unfold advance. destruct (rest st0); simpl; lia.
  - intros j n st0 st1 _ H. exact H.
  - intros gs st0 H. exact H.
  - intros st0 st1 H _. exact H.
Qed.

(** A match of [[\u00A0\t]+] ends after the position where it starts. *)
Lemma blankPattern_nonempty p s n i m :
  match_here (rx "[\u00A0\t]+") p s n i = Some m -> (i < lastIndex m)%N.
Proof.
  unfold match_here. rewrite blankPattern_node.
  change (ignoreCase (rx "[\u00A0\t]+")) with false.
  destruct (run _ _ _ _) as [st|] eqn:E; [|discriminate].
  intros H. injection H as <-. simpl.
  rewrite run_plus, run_cls in E. cbn [rest clear_caps xorb] in E.
  destruct s as [|x s]; [discriminate|].
  destruct (cls_has false [CChar 160%N; CChar 9%N] x); [|discriminate].
  apply (rep_loop_invariant (fun st => (i < pos st)%N)) in E.
  - destruct E as (st' & Hst & E). injection E as ->. exact Hst.
  - intros gs st0 H. exact H.
  - intros st0 k res H0 H1.
    exact (run_forward false (Cls false [CChar 160%N; CChar 9%N])
                       i st0 k res H0 H1).
  - unfold advance. simpl. lia.
Qed.

Lemma blankPattern_removes repl s :
  Forall (fun x => (x =? 160)%N || (x =? 9)%N = false) repl ->
  Forall (fun x => (x =? 160)%N || (x =? 9)%N = false)
         (replace_all (rx "[\u00A0\t]+") repl s).
Proof.
  intros H.
  exact (replace_all_removes (rx "[\u00A0\t]+")
           (fun x => (x =? 160)%N || (x =? 9)%N) repl
           blankPattern_hit blankPattern_nonempty H s).
Qed.

(** ** What [normalize] removes *)

Lemma crPattern_one_char : one_char (rx "\r") (fun x => (x =? 13)%N).
Proof.
  intros p s n i. unfold match_here.
  change (pattern (rx "\r")) with (Chr 13%N).
  change (ignoreCase (rx "\r")) with false.
  destruct s as [|x s]; simpl; [reflexivity|].
  unfold canon. destruct (x =? 13)%N; [apply one_char_result | reflexivity].
Qed.

Lemma dashPattern_one_char :
  one_char (rx "\u2013|\u2014") (fun x => (x =? 8211)%N || (x =? 8212)%N).
Proof.
  intros p s n i. unfold match_here.
  change (pattern (rx "\u2013|\u2014")) with (Alt (Chr 8211%N) (Chr 8212%N)).
  change (ignoreCase (rx "\u2013|\u2014")) with false.
  destruct s as [|x s]; simpl; [reflexivity|].
  unfold canon. destruct (x =? 8211)%N; [apply one_char_result|].
  destruct (x =? 8212)%N; [apply one_char_result | reflexivity].
Qed.

(** A global replacement by a one-character pattern leaves none of the
    characters it matches, when the replacement text has none. *)
Lemma subst1_removes (Q : char -> bool) repl s :
  Forall (fun x => Q x = false) repl ->
  Forall (fun x => Q x = false) (flat_map (subst1 Q repl) s).
Proof.
  intros Hr. induction s as [|x s IH]; simpl; [constructor|].
  apply Forall_app. split; [|exact IH].
  unfold subst1. destruct (Q x) eqn:E; [exact Hr|].
  constructor; [exact E|constructor].
Qed.

(** The chain of [normalize], cut at the steps that remove a kind of
    character. *)
Lemma normalize_eq raw :
  normalize raw
  = trim
      (fold_left (fun t step => replace_all (fst step) (snd step) t)
         (skipn 6 normalizeSteps)
         (replace_all (rx "\u2013|\u2014") (js "-")
            (replace_all (rx "[\u00A0\t]+") (js " ")
               (fold_left (fun t step => replace_all (fst step) (snd step) t)
                  (firstn 3 (skipn 1 normalizeSteps))
                  (replace_all (rx "\r") [LF] raw))))).
Proof.
  unfold normalize, normalizeSteps.
  cbn [fold_left fst snd skipn firstn]. reflexivity.
Qed.

(** What is written from some step on has none of the characters that
    [normalize] never writes. *)
Lemma later_writes c k :
  contains c normalizeWrites = false ->
  Forall (fun x => x <> c) (List.concat (List.map snd (skipn k normalizeSteps))).
Proof.
  intros Hc. apply contains_false in Hc. unfold normalizeWrites in Hc.
  rewrite <- (firstn_skipn k normalizeSteps), map_app, concat_app in Hc.
  apply Forall_app in Hc. exact (proj2 Hc).
Qed.

Lemma Forall_neq_of_eqb c s :
  Forall (fun x => (x =? c)%N = false) s -> Forall (fun x => x <> c) s.
Proof. apply Forall_impl. intros x Hx. apply N.eqb_neq. exact Hx. Qed.

(** X16.  The normalised text holds no carriage return, no tab, no
    no-break space, no en dash and no em dash: each is replaced by the
    step written for it, and no later step writes one of them. *)
Theorem normalize_removes raw :
  contains 13%N (normalize raw) = false
  /\ contains 9%N (normalize raw) = false
  /\ contains 160%N (normalize raw) = false
  /\ contains 8211%N (normalize raw) = false
  /\ contains 8212%N (normalize raw) = false.
Proof.
  rewrite normalize_eq.
  (* carriage returns *)
  assert (H0 : Forall (fun x => x <> 13%N) (replace_all (rx "\r") [LF] raw)).
  { rewrite (replace_all_one_char (rx "\r") _ crPattern_one_char).
    apply Forall_neq_of_eqb.
    apply (subst1_removes (fun x => (x =? 13)%N)). repeat constructor. }
  set (t0 := replace_all (rx "\r") [LF] raw) in *.
  assert (H1 : Forall (fun x => x <> 13%N)
                 (fold_left (fun t step => replace_all (fst step) (snd step) t)
                            (firstn 3 (skipn 1 normalizeSteps)) t0)).
  { apply fold_replace_chars; [|exact H0].
    apply contains_false. vm_compute. reflexivity. }
  set (t1 := fold_left _ (firstn 3 (skipn 1 normalizeSteps)) t0) in *.
  (* tabs and no-break spaces *)
  assert (Hb : Forall (fun x => (x =? 160)%N || (x =? 9)%N = false)
                      (replace_all (rx "[\u00A0\t]+") (js " ") t1))
    by (apply blankPattern_removes; repeat constructor).
  assert (H2 : Forall (fun x => x <> 13%N)
                      (replace_all (rx "[\u00A0\t]+") (js " ") t1))
    by (apply replace_all_chars; [repeat constructor; discriminate|exact H1]).
  set (t2 := replace_all (rx "[\u00A0\t]+") (js " ") t1) in *.
  assert (Hb9 : Forall (fun x => x <> 9%N) t2).
  { revert Hb. apply Forall_impl. intros x Hx.
    apply orb_false_iff in Hx. apply N.eqb_neq. exact (proj2 Hx). }
  assert (Hb160 : Forall (fun x => x <> 160%N) t2).
  { revert Hb. apply Forall_impl. intros x Hx.
    apply orb_false_iff in Hx. apply N.eqb_neq. exact (proj1 Hx). }
  (* dashes *)
  assert (Hd : Forall (fun x => (x =? 8211)%N || (x =? 8212)%N = false)
                      (replace_all (rx "\u2013|\u2014") (js "-") t2)).
  { rewrite (replace_all_one_char (rx "\u2013|\u2014") _ dashPattern_one_char).
    apply subst1_removes. repeat constructor. }
  assert (Hk : forall c, c <> 45%N -> Forall (fun x => x <> c) t2 ->
                 Forall (fun x => x <> c)
                        (replace_all (rx "\u2013|\u2014") (js "-") t2)).
  { intros c Hc Ht. apply replace_all_chars; [|exact Ht].
    change (js "-") with [45%N].
    constructor; [intros E; apply Hc; symmetry; exact E|constructor]. }
  set (t3 := replace_all (rx "\u2013|\u2014") (js "-") t2) in *.
  assert (Hd1 : Forall (fun x => x <> 8211%N) t3).
  { revert Hd. apply Forall_impl. intros x Hx.
    apply orb_false_iff in Hx. apply N.eqb_neq. exact (proj1 Hx). }
  assert (Hd2 : Forall (fun x => x <> 8212%N) t3).
  { revert Hd. apply Forall_impl. intros x Hx.
    apply orb_false_iff in Hx. apply N.eqb_neq. exact (proj2 Hx). }
  (* the last two steps and the trimming *)
  assert (Hend : forall c, contains c normalizeWrites = false ->
                   Forall (fun x => x <> c) t3 ->
                   contains c
                     (trim (fold_left
                              (fun t step => replace_all (fst step) (snd step) t)
                              (skipn 6 normalizeSteps) t3)) = false).
  { intros c Hc Ht. apply Forall_contains, trim_chars, fold_replace_chars;
      [apply later_writes; exact Hc|exact Ht]. }
  repeat split; apply Hend; try reflexivity; try assumption;
    apply Hk; try discriminate; assumption.
Qed.

(** ** Sorting the money candidates *)

Lemma binary_round_sign s m e :
  match binary_round prec emax s m e with
  | S754_zero s' | S754_infinity s' | S754_finite s' _ _ => s' = s
  | S754_nan => True
  end.
Proof.
  unfold binary_round. destruct (shl_align m e _) as [mz ez].
  unfold binary_round_aux.
  destruct (shr_fexp prec emax (Z.pos mz) ez loc_Exact) as [mrs' e'].
  destruct (shr_fexp prec emax _ e' loc_Exact) as [mrs'' e''].
  destruct (shr_m mrs''); [reflexivity| |exact I].
  destruct (Z.leb e'' _); reflexivity.
Qed.

Lemma negative_not_positive (r : number) :
  match r with
  | S754_zero s' | S754_infinity s' | S754_finite s' _ _ => s' = true
  | S754_nan => True
  end ->
  gtb r zero = false.
Proof. destruct r as [s|s| |s m e]; intros H; try subst s; reflexivity. Qed.

Lemma normalize_sign D e :
  gtb (binary_normalize prec emax D e false) zero = true ->
  gtb (binary_normalize prec emax (- D) e false) zero = false.
Proof.
  destruct D as [|p|p]; simpl; intros H.
  - reflexivity.
  - apply negative_not_positive. apply binary_round_sign.
  - rewrite negative_not_positive in H; [discriminate|].
    apply binary_round_sign.
Qed.

(** The comparator never asks for both orders. *)
Lemma sub_not_both_positive x y :
  gtb (sub y x) zero = true -> gtb (sub x y) zero = false.
Proof.
  destruct x as [sx|sx| |sx mx ex], y as [sy|sy| |sy my ey];
    try (destruct sx); try (destruct sy);
    try (intros _; reflexivity); try (intros H; discriminate H).
  all: unfold sub, SFsub; cbv zeta; rewrite (Z.min_comm ex ey);
    match goal with
    | |- gtb (binary_normalize _ _ (?B - ?A) _ _) _ = true -> _ =>
        replace (A - B)%Z with (- (B - A))%Z by ring
    end; apply normalize_sign.
Qed.

Lemma insert_desc_perm x l : Permutation (x :: l) (insert_desc x l).
Proof.
  induction l as [|y l IH]; simpl; [apply Permutation_refl|].
  destruct (gtb (sub y x) zero); [|apply Permutation_refl].
  eapply Permutation_trans; [apply perm_swap|].
  apply perm_skip. exact IH.
Qed.

Lemma sort_desc_perm l : Permutation l (sort_desc l).
Proof.
  induction l as [|x l IH]; simpl; [constructor|].
  eapply Permutation_trans; [apply perm_skip; exact IH|].
  apply insert_desc_perm.
Qed.

Lemma insert_desc_sorted x l :
  Sorted may_follow l -> Sorted may_follow (insert_desc x l).
Proof.
  induction l as [|y l IH]; intros H; simpl.
  - constructor; constructor.
  - inversion H as [|? ? Hl Hy]; subst.
    destruct (gtb (sub y x) zero) eqn:E.
    + constructor; [exact (IH Hl)|].
      destruct l as [|z l]; simpl.
      * constructor. exact (sub_not_both_positive x y E).
      * destruct (gtb (sub z x) zero).
        -- inversion Hy; subst. constructor. assumption.
        -- constructor. exact (sub_not_both_positive x y E).
    + constructor; [exact H|]. constructor. exact E.
Qed.

Lemma sort_desc_sorted l : Sorted may_follow (sort_desc l).
Proof.
  induction l as [|x l IH]; simpl; [constructor|].
  apply insert_desc_sorted. exact IH.
Qed.

Lemma moneyMatches_not_nan raw :
  Forall (fun x => isNaN x = false) (moneyMatches raw).
Proof.
  unfold moneyMatches. generalize (matches_g moneyPattern raw).
  intros ms. induction ms as [|m ms IH]; simpl; [constructor|].
  apply Forall_app. split; [|exact IH].
  destruct (group_truthy m 1) as [g|]; [|constructor].
  destruct (isNaN (parseFloat (strip_commas g))) eqn:E; [constructor|].
  constructor; [exact E|constructor].
Qed.

(** X17.  The sorted candidates are the money candidates of the text in
    another order; none of them is NaN, and no candidate is followed by
    one that the comparator [b - a] puts before it. *)
Theorem sorted_amounts raw :
  Permutation (moneyMatches raw) (sortedAmounts raw)
  /\ Sorted may_follow (sortedAmounts raw)
  /\ Forall (fun x => isNaN x = false) (sortedAmounts raw).
Proof.
  unfold sortedAmounts. pose proof (moneyMatches_not_nan raw) as Hn.
  revert Hn. generalize (moneyMatches raw). intros l Hn.
  split; [apply sort_desc_perm|]. split; [apply sort_desc_sorted|].
  apply Forall_forall. intros x Hx. rewrite Forall_forall in Hn. apply Hn.
  apply (Permutation_in x (Permutation_sym (sort_desc_perm l))). exact Hx.
Qed.

(** ** The invoice number *)

Lemma digitPattern_one_char : one_char digitPattern is_digit.
Proof.
  intros p s n i. unfold match_here.
  change (pattern digitPattern) with (Cls false [CDigit false]).
  change (ignoreCase digitPattern) with false.
  destruct s as [|x s]; simpl; [reflexivity|].
  destruct (is_digit x); [apply one_char_result | reflexivity].
Qed.

Lemma subst1_length (Q : char -> bool) s :
  (List.length (flat_map (subst1 Q []) s) <= List.length s)%nat.
Proof.
  induction s as [|x s IH]; simpl; [lia|].
  rewrite length_app. unfold subst1 at 1. destruct (Q x); simpl; lia.
Qed.

Lemma subst1_fixed (Q : char -> bool) s :
  flat_map (subst1 Q []) s = s -> existsb Q s = false.
Proof.
  induction s as [|x s IH]; simpl; [reflexivity|].
  unfold subst1 at 1. destruct (Q x) eqn:E; simpl; intros H.
  - pose proof (subst1_length Q s) as Hl. rewrite H in Hl. simpl in Hl. lia.
  - injection H as H. exact (IH H).
Qed.

(** [/\d/.test(s)] says whether [s] has a digit. *)
Lemma test_digitPattern s : test digitPattern s = existsb is_digit s.
Proof.
  unfold test, exec.
  pose proof (search_spec digitPattern is_digit digitPattern_one_char []
                          s None (List.length s) 0%N) as H.
  destruct (search digitPattern None s (List.length s) 0%N) as [m|].
  - destruct H as (pre & x & post & -> & _ & Hx & _).
    rewrite existsb_app. simpl. rewrite Hx, orb_true_r. reflexivity.
  - symmetry. apply subst1_fixed. exact H.
Qed.

Lemma extract_invoice_checked ps raw : forall d v,
  invoiceNumber d = None ->
  invoiceNumber (extract_invoice ps raw d) = Some v ->
  existsb is_digit v = true
  /\ test dateShapedPattern v = false
  /\ test genericWordPattern v = false
  /\ test cionPattern v = false.
Proof.
  induction ps as [|p ps IH]; intros d v Hd H; simpl in H.
  - rewrite Hd in H. discriminate.
  - destruct (exec p raw) as [m|]; [|exact (IH _ _ Hd H)].
    destruct (group_truthy m 1) as [g|]; [|exact (IH _ _ Hd H)].
    destruct (negb (test dateShapedPattern (trim g))
              && negb (test genericWordPattern (trim g))
              && negb (test cionPattern (trim g))
              && test digitPattern (trim g)) eqn:E; [|exact (IH _ _ Hd H)].
    simpl in H. injection H as <-.
    apply andb_true_iff in E. destruct E as [E E4].
    apply andb_true_iff in E. destruct E as [E E3].
    apply andb_true_iff in E. destruct E as [E1 E2].
    rewrite test_digitPattern in E4.
    apply negb_true_iff in E1, E2, E3. repeat split; assumption.
Qed.

Lemma extract_invoiceNumber_checked raw v :
  invoiceNumber (extract raw) = Some v ->
  existsb is_digit v = true
  /\ test dateShapedPattern v = false
  /\ test genericWordPattern v = false
  /\ test cionPattern v = false.
Proof.
  rewrite extract_eq. apply extract_invoice_checked.
  repeat match goal with
         | |- context [vendor_fallback ?a ?x] =>
             destruct (vendor_fallback_frame a x) as (_ & _ & _ & _ & _ & -> & _)
         | |- context [extract_vendor ?a ?b ?x] =>
             destruct (extract_vendor_frame a b x) as (_ & _ & _ & _ & _ & -> & _)
         | |- context [extract_date ?a ?x] =>
             destruct (extract_date_frame a x) as (_ & _ & _ & _ & _ & -> & _)
         | |- context [total_clean ?x] =>
             destruct (total_clean_frame x) as (_ & _ & _ & _ & -> & _)
         | |- context [total_fallback ?a ?x] =>
             destruct (total_fallback_frame a x) as (_ & _ & _ & _ & -> & _)
         | |- context [extract_total ?a ?b ?x] =>
             destruct (extract_total_frame a b x) as (_ & _ & _ & _ & -> & _)
         | |- context [extract_taxAmount ?a ?b ?x] =>
             destruct (extract_taxAmount_frame a b x) as (_ & _ & _ & _ & -> & _)
         | |- context [extract_taxPercentage ?a ?b ?x] =>
             destruct (extract_taxPercentage_frame a b x)
               as (_ & _ & _ & _ & -> & _)
         | |- context [extract_subtotal ?a ?b ?x] =>
             destruct (extract_subtotal_frame a b x) as (_ & _ & _ & _ & -> & _)
         end.
  reflexivity.
Qed.

Lemma postprocess_invoiceNumber z sorted d :
  invoiceNumber (postprocess z sorted d) = invoiceNumber d.
Proof. exact (proj1 (proj2 (postprocess_frame z sorted d))). Qed.

(** X18.  An invoice number in the result has passed the checks of the
    extraction: it holds a digit, is not shaped like a date, is not one of
    the generic words and does not end in [cion]. *)
Theorem invoice_number_is_checked raw v :
  invoiceNumber (parse raw) = Some v ->
  existsb is_digit v = true
  /\ test dateShapedPattern v = false
  /\ test genericWordPattern v = false
  /\ test cionPattern v = false.
Proof.
  unfold parse. rewrite postprocess_invoiceNumber.
  apply extract_invoiceNumber_checked.
Qed.

Lemma invoice_number_is_checked_witness :
  existsb is_digit (js "A-1234") = true
  /\ test dateShapedPattern (js "A-1234") = false
  /\ test genericWordPattern (js "A-1234") = false
  /\ test cionPattern (js "A-1234") = false.
Proof.
  apply (invoice_number_is_checked invoiceText (js "A-1234")).
  vm_compute. reflexivity.
Defined.

(** ** The receipt routes *)

Lemma str_eqb_eq a b : Str.eqb a b = true <-> a = b.
Proof.
  unfold Str.eqb. destruct (list_eq_dec N.eq_dec a b); split; congruence.
Qed.

Lemma str_eqb_refl a : Str.eqb a a = true.
Proof. apply str_eqb_eq. reflexivity. Qed.

Lemma str_eqb_neq a b : a <> b -> Str.eqb a b = false.
Proof.
  intros H. destruct (Str.eqb a b) eqn:E; [|reflexivity].
  apply str_eqb_eq in E. congruence.
Qed.

Lemma map_get_set_same k v m : Routes.map_get k (Routes.map_set k v m) = Some v.
Proof.
  induction m as [|[k' v'] m IH]; simpl.
  - rewrite str_eqb_refl. reflexivity.
  - destruct (Str.eqb k' k) eqn:E; simpl; rewrite E; [reflexivity|exact IH].
Qed.

Lemma map_get_set_other k k' v m :
  k' <> k -> Routes.map_get k' (Routes.map_set k v m) = Routes.map_get k' m.
Proof.
  intros Hk. induction m as [|[k0 v0] m IH]; simpl.
  - rewrite str_eqb_neq by congruence. reflexivity.
  - destruct (Str.eqb k0 k) eqn:E; simpl.
    + apply str_eqb_eq in E. subst k0.
      rewrite str_eqb_neq by congruence. reflexivity.
    + destruct (Str.eqb k0 k'); [reflexivity|exact IH].
Qed.

Lemma map_values_set_fresh k v m :
  Routes.map_get k m = None ->
  Routes.map_values (Routes.map_set k v m) = Routes.map_values m ++ [v].
Proof.
  unfold Routes.map_values.
  induction m as [|[k0 v0] m IH]; simpl; intros H; [reflexivity|].
  destruct (Str.eqb k0 k); [discriminate|]. simpl. rewrite (IH H). reflexivity.
Qed.

(** X19.  A receipt that was uploaded can be fetched: when the OCR gives a
    text, POST answers 200 with the id, the file name, the time and the
    parsed text, GET with that id answers the same, and what GET answers
    for every other id is as before. *)
Theorem upload_then_fetch f uuid now ocr receipts rawText :
  ocr (Routes.path f) = inr rawText ->
  let result :=
    {| Routes.id := uuid; Routes.filename := Routes.originalname f;
       Routes.uploadedAt := now; Routes.data := parse rawText |} in
  let out := Routes.post (Some f) uuid now ocr receipts in
  fst out = {| Routes.status := 200; Routes.json := Routes.Receipt result |}
  /\ Routes.get uuid (snd out) = fst out
  /\ forall other, other <> uuid ->
       Routes.get other (snd out) = Routes.get other receipts.
Proof.
  intros Hocr result out. unfold out, Routes.post. rewrite Hocr.
  cbv zeta. cbn [fst snd]. fold result.
  generalize result. clear result out. intros result.
  split; [reflexivity|]. split.
  - unfold Routes.get. rewrite map_get_set_same. reflexivity.
  - intros other Ho. unfold Routes.get.
    rewrite (map_get_set_other uuid other result receipts Ho). reflexivity.
Qed.

Lemma upload_then_fetch_witness :
  let result :=
    {| Routes.id := js "id-1";
       Routes.filename := Routes.originalname Routes.sampleFile;
       Routes.uploadedAt := js "2024-01-01T00:00:00.000Z";
       Routes.data := parse (js "MOCK TEXT: TOTAL $88.00") |} in
  let out := Routes.post (Some Routes.sampleFile) (js "id-1")
               (js "2024-01-01T00:00:00.000Z") Routes.mockOcr [] in
  fst out = {| Routes.status := 200; Routes.json := Routes.Receipt result |}
  /\ Routes.get (js "id-1") (snd out) = fst out
  /\ forall other, other <> js "id-1" ->
       Routes.get other (snd out) = Routes.get other [].
Proof.
  apply (upload_then_fetch Routes.sampleFile (js "id-1")
           (js "2024-01-01T00:00:00.000Z") Routes.mockOcr []
           (js "MOCK TEXT: TOTAL $88.00")).
  reflexivity.
Defined.

(** What the map holds under [key] after the uploads [all]. *)
Lemma serve_invariant ocr (all : list Routes.upload) :
  forall uploads receipts,
    incl uploads all ->
    (forall key r, Routes.map_get key receipts = Some r ->
       Routes.id r = key
       /\ exists u f rawText,
            In u all /\ Routes.file u = Some f
            /\ ocr (Routes.path f) = inr rawText
            /\ r = {| Routes.id := Routes.uuid u;
                      Routes.filename := Routes.originalname f;
                      Routes.uploadedAt := Routes.now u;
                      Routes.data := parse rawText |}) ->
    forall key r,
      Routes.map_get key
        (fold_left (fun receipts u =>
                      snd (Routes.post (Routes.file u) (Routes.uuid u)
                                       (Routes.now u) ocr receipts))
                   uploads receipts) = Some r ->
      Routes.id r = key
      /\ exists u f rawText,
           In u all /\ Routes.file u = Some f
           /\ ocr (Routes.path f) = inr rawText
           /\ r = {| Routes.id := Routes.uuid u;
                     Routes.filename := Routes.originalname f;
                     Routes.uploadedAt := Routes.now u;
                     Routes.data := parse rawText |}.
Proof.
  induction uploads as [|u uploads IH]; intros receipts Hin Hinv; simpl;
    [exact Hinv|].
  apply IH; [intros x Hx; apply Hin; right; exact Hx|].
  assert (Hu : In u all) by (apply Hin; left; reflexivity).
  unfold Routes.post.
  destruct (Routes.file u) as [f|] eqn:Hf; [|exact Hinv].
  destruct (ocr (Routes.path f)) as [e|rawText] eqn:Ho; [exact Hinv|].
  cbv zeta. cbn [snd]. intros key r Hget.
  destruct (list_eq_dec N.eq_dec key (Routes.uuid u)) as [->|Hne].
  - rewrite map_get_set_same in Hget. injection Hget as <-.
    split; [reflexivity|]. exists u, f, rawText. repeat split; assumption.
  - rewrite map_get_set_other in Hget by exact Hne. exact (Hinv _ _ Hget).
Qed.

(** X20.  Whatever uploads the server has received, a receipt that GET
    finds under an id carries that id and is the parsed OCR text of one of
    the uploaded files, with the name of that file. *)
Theorem stored_receipts_are_parsed ocr uploads key r :
  Routes.get key (Routes.serve ocr uploads)
  = {| Routes.status := 200; Routes.json := Routes.Receipt r |} ->
  Routes.id r = key
  /\ exists u f rawText,
       In u uploads /\ Routes.file u = Some f
       /\ ocr (Routes.path f) = inr rawText
       /\ r = {| Routes.id := Routes.uuid u;
                 Routes.filename := Routes.originalname f;
                 Routes.uploadedAt := Routes.now u;
                 Routes.data := parse rawText |}.
Proof.
  intros H. unfold Routes.get in H.
  destruct (Routes.map_get key (Routes.serve ocr uploads)) as [r'|] eqn:E;
    [|discriminate].
  injection H as ->.
  apply (serve_invariant ocr uploads uploads [] (incl_refl _)) in E;
    [exact E|].
  intros k x Hx. discriminate.
Qed.

Lemma stored_receipts_are_parsed_witness :
  Routes.id {| Routes.id := js "id-1";
               Routes.filename := js "receipt.png";
               Routes.uploadedAt := js "2024-01-01T00:00:00.000Z";
               Routes.data := parse (js "MOCK TEXT: TOTAL $88.00") |}
  = js "id-1"
  /\ exists u f rawText,
       In u [Routes.sampleUpload] /\ Routes.file u = Some f
       /\ Routes.mockOcr (Routes.path f) = inr rawText
       /\ {| Routes.id := js "id-1";
             Routes.filename := js "receipt.png";
             Routes.uploadedAt := js "2024-01-01T00:00:00.000Z";
             Routes.data := parse (js "MOCK TEXT: TOTAL $88.00") |}
          = {| Routes.id := Routes.uuid u;
               Routes.filename := Routes.originalname f;
               Routes.uploadedAt := Routes.now u;
               Routes.data := parse rawText |}.
Proof.
  apply (stored_receipts_are_parsed Routes.mockOcr [Routes.sampleUpload]
           (js "id-1")).
  reflexivity.
Defined.

(** X21.  A successful upload under an id that is not in the map yet is
    listed last: GET /api/receipts answers the receipts listed before,
    followed by the new one. *)
Theorem upload_is_listed_last f uuid now ocr receipts rawText :
  ocr (Routes.path f) = inr rawText ->
  Routes.map_get uuid receipts = None ->
  Routes.json
    (Routes.list_all (snd (Routes.post (Some f) uuid now ocr receipts)))
  = Routes.ReceiptList
      (Routes.map_values receipts
       ++ [{| Routes.id := uuid; Routes.filename := Routes.originalname f;
              Routes.uploadedAt := now; Routes.data := parse rawText |}]).
Proof.
  intros Hocr Hfresh. unfold Routes.post. rewrite Hocr. cbv zeta. cbn [snd].
  unfold Routes.list_all. cbn [Routes.json].
  rewrite (map_values_set_fresh uuid _ receipts Hfresh). reflexivity.
Qed.

Lemma upload_is_listed_last_witness :
  Routes.json
    (Routes.list_all
       (snd (Routes.post (Some Routes.sampleFile) (js "id-1")
               (js "2024-01-01T00:00:00.000Z") Routes.mockOcr [])))
  = Routes.ReceiptList
      (Routes.map_values []
       ++ [{| Routes.id := js "id-1";
              Routes.filename := Routes.originalname Routes.sampleFile;
              Routes.uploadedAt := js "2024-01-01T00:00:00.000Z";
              Routes.data := parse (js "MOCK TEXT: TOTAL $88.00") |}]).
Proof.
  apply (upload_is_listed_last Routes.sampleFile (js "id-1")
           (js "2024-01-01T00:00:00.000Z") Routes.mockOcr []
           (js "MOCK TEXT: TOTAL $88.00")).
  - reflexivity.
  - reflexivity.
Defined.

(** ** The extracted subtotal *)

Lemma step3_subtotal d : subtotalAmount (step3 d) = subtotalAmount d.
Proof. unfold step3. step_cases. Qed.

Lemma step4_subtotal d : subtotalAmount (step4 d) = subtotalAmount d.
Proof. unfold step4. step_cases. Qed.

Lemma step5_subtotal d : subtotalAmount (step5 d) = subtotalAmount d.
Proof. unfold step5. step_cases. Qed.

Lemma step6_subtotal d : subtotalAmount (step6 d) = subtotalAmount d.
Proof. unfold step6. step_cases. Qed.

Lemma step7_subtotal d : subtotalAmount (step7 d) = subtotalAmount d.
Proof. unfold step7. step_cases. Qed.

Lemma postprocess_keeps_subtotal sorted d s :
  subtotalAmount d = Some s -> truthy s = true ->
  subtotalAmount (postprocess false sorted d) = Some s.
Proof.
  intros Hs Ht.
  assert (Hp : present (subtotalAmount d) = true) by (rewrite Hs; exact Ht).
  unfold postprocess, reconcile.
  rewrite step1_idle, (step2_idle_subtotal d Hp), (step2_5_idle_subtotal d Hp).
  rewrite step8_idle.
  - rewrite step7_subtotal, step6_subtotal, step5_subtotal, step4_subtotal,
      step3_subtotal. exact Hs.
  - rewrite step7_subtotal, step6_subtotal, step5_subtotal, step4_subtotal,
      step3_subtotal. exact Hp.
Qed.

(** X22.  Unless the text has an explicit zero tax line, a subtotal found
    by the extraction is returned as it was found: no later step
    recomputes it. *)
Theorem extracted_subtotal_is_kept raw s :
  subtotalAmount (extract raw) = Some s ->
  zeroTaxMatch raw = false ->
  subtotalAmount (parse raw) = Some s.
Proof.
  intros Hs Hz. unfold parse. rewrite Hz.
  apply postprocess_keeps_subtotal; [exact Hs|].
  apply positive_truthy. exact (extracted_subtotal_positive_aux raw s Hs).
Qed.

Lemma extracted_subtotal_is_kept_witness :
  subtotalAmount (parse scenarioC) = Some (dec 10000 (-2)).
Proof.
  apply (extracted_subtotal_is_kept scenarioC (dec 10000 (-2)));
    vm_compute; reflexivity.
Defined.

(** ** The total taken from the money candidates *)

Lemma extract_total_none ps raw d :
  Forall (fun p => exec p raw = None) ps -> extract_total ps raw d = d.
Proof.
  induction 1 as [|p ps Hp _ IH]; simpl; [reflexivity|].
  rewrite Hp. exact IH.
Qed.

Lemma extract_amount_eq raw :
  amount (extract raw)
  = amount
      (total_clean
         (total_fallback (maxAmount raw)
            (extract_total totalPatterns raw
               (extract_taxAmount taxAmountPatterns
                  (extractionText (normalize raw))
                  (extract_taxPercentage taxPercentPatterns
                     (extractionText (normalize raw))
                     (extract_subtotal subtotalPatterns
                        (extractionText (normalize raw))
                        {| rawText := raw; amount := None;
                           subtotalAmount := None; taxAmount := None;
                           taxPercentage := None; invoiceNumber := None;
                           date := None; vendorName := None |})))))).
Proof.
  rewrite extract_eq.
  repeat match goal with
         | |- context [extract_invoice ?a ?b ?x] =>
             destruct (extract_invoice_frame a b x) as (_ & -> & _)
         | |- context [vendor_fallback ?a ?x] =>
             destruct (vendor_fallback_frame a x) as (_ & -> & _)
         | |- context [extract_vendor ?a ?b ?x] =>
             destruct (extract_vendor_frame a b x) as (_ & -> & _)
         | |- context [extract_date ?a ?x] =>
             destruct (extract_date_frame a x) as (_ & -> & _)
         end.
  reflexivity.
Qed.

(** X23.  When none of the total patterns matches the text and the largest
    money candidate is a non-zero number, the extraction takes that
    candidate, rounded to two decimals, as the total. *)
Theorem total_from_largest_candidate raw v :
  Forall (fun p => exec p raw = None) totalPatterns ->
  maxAmount raw = Some v -> truthy v = true ->
  amount (extract raw) = Some (round2 v).
Proof.
  intros Hnone Hmax Hv. rewrite extract_amount_eq.
  rewrite (extract_total_none totalPatterns raw _ Hnone).
  match goal with
  | |- context [extract_taxAmount ?a ?b ?x] =>
      pose proof (proj1 (proj2 (extract_taxAmount_frame a b x))) as H1;
      generalize dependent (extract_taxAmount a b x)
  end.
  intros d1 H1.
  match type of H1 with
  | _ = amount (extract_taxPercentage ?a ?b ?x) =>
      rewrite (proj1 (proj2 (extract_taxPercentage_frame a b x))) in H1;
      rewrite (proj1 (proj2 (extract_subtotal_frame _ _ _))) in H1
  end.
  simpl in H1.
  unfold total_fallback. rewrite Hmax, H1, Hv. simpl.
  unfold total_clean. simpl. rewrite Hv. reflexivity.
Qed.

Lemma total_from_largest_candidate_witness :
  amount (extract pricesText) = Some (round2 (dec 1250 (-2))).
Proof.
  apply (total_from_largest_candidate pricesText (dec 1250 (-2))).
  - repeat constructor.
  - vm_compute. reflexivity.
  - reflexivity.
Defined.

(** ** Records with a subtotal and a tax amount *)

Lemma step6_total d :
  present (subtotalAmount d) = true -> taxAmount d <> None ->
  amount (step6 d) <> None.
Proof.
  intros Hs Ht. unfold step6.
  apply present_some in Hs. destruct Hs as (s & Hs & Hts). rewrite Hs.
  destruct (taxAmount d) as [t|]; [|congruence].
  rewrite Hts.
  destruct (amount d) as [a|] eqn:Ha; simpl.
  - destruct (truthy a); simpl; [rewrite Ha|]; discriminate.
  - discriminate.
Qed.

Lemma step7_tax_back d : taxAmount (step7 d) <> None -> taxAmount d <> None.
Proof.
  intros H E. apply H. unfold step7. rewrite E.
  destruct (subtotalAmount d); exact E.
Qed.

Lemma step8_total sorted d :
  present (subtotalAmount (step8 sorted d)) = true ->
  present (subtotalAmount d) = true \/ amount d <> None.
Proof.
  unfold step8. destruct (amount d) as [a|]; [right; discriminate|].
  intros H. left. exact H.
Qed.

Lemma postprocess_total z sorted d :
  present (subtotalAmount (postprocess z sorted d)) = true ->
  taxAmount (postprocess z sorted d) <> None ->
  amount (postprocess z sorted d) <> None.
Proof.
  unfold postprocess, reconcile.
  generalize (step5 (step4 (step3 (step2_5 (step2 (step1 z d)))))).
  intros d5 Hs Ht. rewrite step8_amount, step7_amount.
  destruct (step8_total sorted _ Hs) as [Hs7|Ha];
    [|rewrite step7_amount in Ha; exact Ha].
  rewrite step8_idle in Ht by exact Hs7.
  rewrite step7_subtotal in Hs7. apply step7_tax_back in Ht.
  apply step6_total.
  - rewrite step6_subtotal in Hs7. exact Hs7.
  - intros E. apply Ht. unfold step6. rewrite E.
    destruct (subtotalAmount d5); exact E.
Qed.

(** X24.  A record never has a subtotal and a tax amount without a total:
    when the returned subtotal is a non-zero number and a tax amount is
    present, a total is present too. *)
Theorem subtotal_and_tax_imply_total raw s t :
  subtotalAmount (parse raw) = Some s -> truthy s = true ->
  taxAmount (parse raw) = Some t ->
  exists a, amount (parse raw) = Some a.
Proof.
  unfold parse. intros Hs Hts Ht.
  pose proof (postprocess_total (zeroTaxMatch raw) (sortedAmounts raw)
                                (extract raw)) as H.
  revert Hs Ht H.
  generalize (postprocess (zeroTaxMatch raw) (sortedAmounts raw) (extract raw)).
  intros d Hs Ht H.
  destruct (amount d) as [a|]; [exists a; reflexivity|].
  elim H; [rewrite Hs; exact Hts|rewrite Ht; discriminate|reflexivity].
Qed.

Lemma subtotal_and_tax_imply_total_witness :
  exists a, amount (parse scenarioC) = Some a.
Proof.
  apply (subtotal_and_tax_imply_total scenarioC (dec 10000 (-2))
                                      (dec 1000 (-2)));
    vm_compute; reflexivity.
Defined.

(** ** Receipts whose amounts agree *)

Lemma postprocess_consistent sorted d s t a :
  subtotalAmount d = Some s -> gtb s zero = true ->
  taxAmount d = Some t -> taxPercentage d = None ->
  amount d = Some a -> truthy a = true ->
  gtb (abs (sub (round2 (add s t)) a)) (dec 10 (-2)) = false ->
  postprocess false sorted d
  = set_taxPercentage (round2 (mul (div t s) hundred)) d.
Proof.
  intros Hs Hpos Ht Hp Ha Hta Hok.
  pose proof (positive_truthy s Hpos) as Hts.
  assert (Hps : present (subtotalAmount d) = true) by (rewrite Hs; exact Hts).
  unfold postprocess, reconcile.
  rewrite step1_idle, (step2_idle_subtotal d Hps), (step2_5_idle_subtotal d Hps).
  rewrite (step3_idle d Hp), (step4_idle_tax d t Ht).
  assert (E5 : step5 d = set_taxPercentage (round2 (mul (div t s) hundred)) d).
  { unfold step5. rewrite Ht, Hs, Hp, Hts, Hpos. reflexivity. }
  rewrite E5.
  set (d5 := set_taxPercentage (round2 (mul (div t s) hundred)) d).
  assert (Hs5 : subtotalAmount d5 = Some s) by exact Hs.
  assert (Ht5 : taxAmount d5 = Some t) by exact Ht.
  assert (Ha5 : amount d5 = Some a) by exact Ha.
  rewrite step6_idle by (rewrite Ha5; exact Hta).
  assert (E7 : step7 d5 = d5).
  { unfold step7. rewrite Hs5, Ht5, Ha5, Hts, Hta, Hok. reflexivity. }
  rewrite E7. apply step8_idle. rewrite Hs5. exact Hts.
Qed.

(** X25.  A receipt whose amounts agree is returned as extracted: when the
    extraction finds a subtotal, a tax amount and a non-zero total with
    subtotal plus tax within 0.10 of the total, and no tax rate (and the
    text has no zero-tax line), the result keeps the three amounts and its
    tax rate is tax divided by subtotal, times 100, rounded to two
    decimals. *)
Theorem consistent_receipt_is_kept raw s t a :
  subtotalAmount (extract raw) = Some s -> taxAmount (extract raw) = Some t ->
  amount (extract raw) = Some a -> truthy a = true ->
  taxPercentage (extract raw) = None -> zeroTaxMatch raw = false ->
  gtb (abs (sub (round2 (add s t)) a)) (dec 10 (-2)) = false ->
  subtotalAmount (parse raw) = Some s
  /\ taxAmount (parse raw) = Some t
  /\ amount (parse raw) = Some a
  /\ taxPercentage (parse raw) = Some (round2 (mul (div t s) hundred)).
Proof.
  intros Hs Ht Ha Hta Hp Hz Hok.
  pose proof (extracted_subtotal_positive_aux raw s Hs) as Hpos.
  unfold parse. rewrite Hz.
  rewrite (postprocess_consistent (sortedAmounts raw) (extract raw) s t a
             Hs Hpos Ht Hp Ha Hta Hok).
  simpl. repeat split; assumption.
Qed.

Lemma consistent_receipt_is_kept_witness :
  subtotalAmount (parse consistentText) = Some (dec 10000 (-2))
  /\ taxAmount (parse consistentText) = Some (dec 1000 (-2))
  /\ amount (parse consistentText) = Some (dec 11000 (-2))
  /\ taxPercentage (parse consistentText)
     = Some (round2 (mul (div (dec 1000 (-2)) (dec 10000 (-2))) hundred)).
Proof.
  apply (consistent_receipt_is_kept consistentText (dec 10000 (-2))
           (dec 1000 (-2)) (dec 11000 (-2)));
    vm_compute; reflexivity.
Defined.

(** ** White space before a line feed *)

Lemma spaceNewline_node :
  pattern (rx "\s+\n")
  = Seq (Rep (Cls false [CSpace false]) 1 None true) (Chr 10%N).
Proof. vm_compute. reflexivity. Qed.

Lemma cls_space x : cls_has false [CSpace false] x = is_space x.
Proof. unfold cls_has. simpl. rewrite !orb_false_r. reflexivity. Qed.

(** One round of the greedy loop of [\s+], after the first. *)
Lemma space_loop f st k :
  rep_loop (run false (Cls false [CSpace false])) [] true (S f) 0 None st k
  = match rest st with
    | x :: _ =>
        if is_space x then
          match rep_loop (run false (Cls false [CSpace false])) [] true f 0 None
                         (advance (clear_caps [] st)) k with
          | Some res => Some res
          | None => k st
          end
        else k st
    | [] => k st
    end.
Proof.
  cbn [rep_loop Nat.ltb Nat.leb]. rewrite run_cls. cbn [rest clear_caps xorb].
  destruct (rest st) as [|x r] eqn:E; [reflexivity|].
  rewrite cls_space. destruct (is_space x); [|reflexivity].
  cbn [Nat.eqb andb].
  replace (pos (advance (clear_caps [] st)) =? pos st)%N with false;
    [reflexivity|].
  symmetry. apply N.eqb_neq. unfold advance. cbn [rest clear_caps].
  rewrite E. simpl. lia.
Qed.

Lemma run_chr ic c st k :
  run ic (Chr c) st k
  = match rest st with
    | x :: _ => if (canon ic x =? canon ic c)%N then k (advance st) else None
    | [] => None
    end.
Proof. reflexivity. Qed.

Lemma rest_advance_clear st x r :
  rest st = x :: r -> rest (advance (clear_caps [] st)) = r.
Proof. intros E. unfold advance. cbn [rest clear_caps]. rewrite E. reflexivity. Qed.

Lemma space_lf : is_space 10%N = true.
Proof. reflexivity. Qed.

(** The line feed that ends a match of [\s+\n]. *)
Lemma newline_here st :
  run false (Chr 10%N) st (fun st' => Some st')
  = match rest st with
    | x :: _ => if (x =? 10)%N then Some (advance st) else None
    | [] => None
    end.
Proof. reflexivity. Qed.

(** On a quiet text the loop of [\s+] finds no line feed to stop at. *)
Lemma quiet_loop_none f : forall st,
  quiet (rest st) = true ->
  rep_loop (run false (Cls false [CSpace false])) [] true f 0 None st
           (fun st' => run false (Chr 10%N) st' (fun st'' => Some st''))
  = None.
Proof.
  induction f as [|f IH]; intros st Hq; [reflexivity|].
  rewrite space_loop, newline_here.
  destruct (rest st) as [|x r] eqn:E; [reflexivity|].
  simpl in Hq. unfold LF in Hq. destruct (is_space x) eqn:Hx.
  - apply andb_true_iff in Hq. destruct Hq as [Hn Hq].
    rewrite IH by (rewrite (rest_advance_clear st x r E); exact Hq).
    apply negb_true_iff in Hn. rewrite Hn. reflexivity.
  - destruct (x =? 10)%N eqn:Hn; [|reflexivity].
    apply N.eqb_eq in Hn. subst x. discriminate.
Qed.

(** Where the loop fails, the text is quiet. *)
Lemma loop_none_quiet f : forall st,
  (List.length (rest st) < f)%nat ->
  rep_loop (run false (Cls false [CSpace false])) [] true f 0 None st
           (fun st' => run false (Chr 10%N) st' (fun st'' => Some st''))
  = None ->
  quiet (rest st) = true.
Proof.
  induction f as [|f IH]; intros st Hf H; [lia|].
  rewrite space_loop, newline_here in H.
  destruct (rest st) as [|x r] eqn:E; [reflexivity|].
  simpl. unfold LF. destruct (is_space x) eqn:Hx; [|reflexivity].
  destruct (rep_loop _ _ _ f _ _ _ _) eqn:L; [discriminate|].
  apply IH in L; [|rewrite (rest_advance_clear st x r E); simpl in Hf; lia].
  rewrite (rest_advance_clear st x r E) in L. rewrite L.
  destruct (x =? 10)%N; [discriminate|reflexivity].
Qed.

(** Where the loop succeeds, it stops after the last line feed of the
    white space: what follows is quiet. *)
Lemma loop_some_quiet f : forall st res,
  (List.length (rest st) < f)%nat ->
  rep_loop (run false (Cls false [CSpace false])) [] true f 0 None st
           (fun st' => run false (Chr 10%N) st' (fun st'' => Some st''))
  = Some res ->
  quiet (rest res) = true.
Proof.
  induction f as [|f IH]; intros st res Hf H; [lia|].
  rewrite space_loop, newline_here in H.
  destruct (rest st) as [|x r] eqn:E; [discriminate|].
  simpl in Hf.
  destruct (is_space x) eqn:Hx.
  - destruct (rep_loop _ _ _ f _ _ _ _) as [res'|] eqn:L.
    + injection H as <-.
      apply (IH _ _) in L; [exact L|].
      rewrite (rest_advance_clear st x r E). lia.
    + destruct (x =? 10)%N; [|discriminate]. injection H as <-.
      apply loop_none_quiet in L;
        [|rewrite (rest_advance_clear st x r E); lia].
      rewrite (rest_advance_clear st x r E) in L.
      unfold advance. rewrite E. exact L.
  - destruct (x =? 10)%N eqn:Hn; [|discriminate].
    apply N.eqb_eq in Hn. subst x. discriminate.
Qed.

(** A match of [\s+\n] at the start of [s]: a white-space character, then
    the greedy loop. *)
Lemma spaceNewline_here p s n i :
  match_here (rx "\s+\n") p s n i
  = match
      match s with
      | x :: r =>
          if is_space x then
            rep_loop (run false (Cls false [CSpace false])) [] true (S n) 0 None
                     (mstate0 (Some x) r (Nat.pred n) (N.succ i))
                     (fun st' => run false (Chr 10%N) st' (fun st'' => Some st''))
          else None
      | [] => None
      end
    with
    | Some st =>
        Some {| index := i; lastIndex := pos st;
                matched := firstn (N.to_nat (pos st - i)) s; groups := caps st |}
    | None => None
    end.
Proof.
  unfold match_here. rewrite spaceNewline_node.
  change (ignoreCase (rx "\s+\n")) with false.
  rewrite run_seq, run_plus, run_cls. cbn [rest clear_caps xorb].
  destruct s as [|x r]; [reflexivity|].
  rewrite cls_space. destruct (is_space x); reflexivity.
Qed.

(** (a) White space followed by a line feed is matched. *)
Lemma spaceNewline_hit p w s n i :
  is_space w = true ->
  match_here (rx "\s+\n") p (w :: 10%N :: s) n i <> None.
Proof.
  intros Hw. rewrite spaceNewline_here, Hw, space_loop.
  cbn [rest mstate0]. rewrite space_lf, newline_here. cbn [rest mstate0].
  cbn [N.eqb Pos.eqb].
  destruct (rep_loop _ _ _ n _ _ _ _); discriminate.
Qed.

(** (b) A match that starts one character later can start here, when this
    character is white space. *)
Lemma spaceNewline_extend p x s n i :
  is_space x = true ->
  match_here (rx "\s+\n") (Some x) s n (N.succ i) <> None ->
  match_here (rx "\s+\n") p (x :: s) (S n) i <> None.
Proof.
  intros Hx H. rewrite spaceNewline_here in H. rewrite spaceNewline_here, Hx.
  destruct s as [|y r]; [elim H; reflexivity|].
  destruct (is_space y) eqn:Hy; [|elim H; reflexivity].
  rewrite space_loop. cbn [rest mstate0 Nat.pred]. rewrite Hy.
  change (advance (clear_caps [] (mstate0 (Some x) (y :: r) n (N.succ i))))
    with (mstate0 (Some y) r (Nat.pred n) (N.succ (N.succ i))).
  destruct (rep_loop _ _ _ (S n) _ _ _ _) eqn:L; [discriminate|].
  elim H. reflexivity.
Qed.

(** (c) A quiet text has no match at its start. *)
Lemma spaceNewline_quiet p s n i :
  quiet s = true -> match_here (rx "\s+\n") p s n i = None.
Proof.
  intros Hq. rewrite spaceNewline_here.
  destruct s as [|x r]; [reflexivity|].
  simpl in Hq. destruct (is_space x); [|reflexivity].
  apply andb_true_iff in Hq. destruct Hq as [_ Hq].
  rewrite quiet_loop_none by exact Hq. reflexivity.
Qed.

(** *** Where a run stands in the text *)

Lemma skipn_step {T} k (s : list T) x r :
  skipn k s = x :: r -> skipn (S k) s = r.
Proof.
  revert s. induction k as [|k IH]; intros s E.
  - simpl in E. subst s. reflexivity.
  - destruct s as [|y s]; [discriminate|]. simpl in E. exact (IH s E).
Qed.

Section Position.

Variable i : N.
Variable s : str.

(** The matcher is past position [i] and has the text from its position
    on ahead. *)
Let placed (st : mstate) : Prop :=
  (i < pos st)%N /\ rest st = skipn (N.to_nat (pos st - i)) s.

Lemma placed_advance st : placed st -> placed (advance st).
Proof.
  intros [Hp Hr]. unfold advance.
  destruct (rest st) as [|x r] eqn:E;
    [split; [exact Hp|rewrite E; exact Hr]|].
  split; simpl; [lia|].
  replace (N.to_nat (N.succ (pos st) - i)) with (S (N.to_nat (pos st - i)))
    by lia.
  symmetry. apply (skipn_step _ _ x). symmetry. exact Hr.
Qed.

Lemma run_placed icase r st k res :
  placed st -> run icase r st k = Some res ->
  exists st', placed st' /\ k st' = Some res.
Proof.
  apply (run_invariant placed placed_advance).
  - intros j n st0 st1 _ H. exact H.
  - intros gs st0 H. exact H.
  - intros st0 st1 H _. exact H.
Qed.

Lemma rep_loop_placed icase r gs greedy fuel mn mx st k res :
  placed st ->
  rep_loop (run icase r) gs greedy fuel mn mx st k = Some res ->
  exists st', placed st' /\ k st' = Some res.
Proof.
  apply (rep_loop_invariant placed).
  - intros gs0 st0 H. exact H.
  - intros st0 k0 res0. apply run_placed.
Qed.

End Position.

(** A match of [\s+\n] is not empty, and what follows it is quiet. *)
Lemma spaceNewline_match p s i m :
  match_here (rx "\s+\n") p s (List.length s) i = Some m ->
  index m = i /\ (i < lastIndex m)%N
  /\ quiet (skipn (N.to_nat (lastIndex m - i)) s) = true.
Proof.
  rewrite spaceNewline_here. intros H.
  destruct s as [|x r]; [discriminate|].
  destruct (is_space x); [|discriminate].
  destruct (rep_loop _ _ _ _ _ _ _ _) as [st|] eqn:L; [|discriminate].
  injection H as <-. cbn [index lastIndex].
  assert (Hq : quiet (rest st) = true)
    by (apply (loop_some_quiet _ _ _) in L; [exact L|simpl; lia]).
  apply (rep_loop_placed i (x :: r)) in L.
  - destruct L as (st' & Hst' & E). rewrite newline_here in E.
    pose proof (placed_advance i (x :: r) st' Hst') as [Hp Hr].
    destruct (rest st') as [|y t] eqn:R; [discriminate|].
    destruct (y =? 10)%N; [|discriminate]. injection E as <-.
    split; [reflexivity|]. split; [exact Hp|]. rewrite <- Hr. exact Hq.
  - split; simpl; [lia|].
    replace (N.to_nat (N.succ i - i)) with 1%nat by lia. reflexivity.
Qed.

(** *** Tidy texts *)

Lemma tidy_cons w c t :
  tidy (w :: c :: t) = negb (is_space w && (c =? 10)%N) && tidy (c :: t).
Proof. reflexivity. Qed.

Lemma tidy_tail x s : tidy (x :: s) = true -> tidy s = true.
Proof.
  destruct s as [|c t]; [reflexivity|]. rewrite tidy_cons.
  intros H. apply andb_true_iff in H. exact (proj2 H).
Qed.

Lemma tidy_suffix A B : tidy (A ++ B) = true -> tidy B = true.
Proof.
  induction A as [|a A IH]; intros H; [exact H|].
  apply IH. exact (tidy_tail a _ H).
Qed.

Lemma tidy_prefix A B : tidy (A ++ B) = true -> tidy A = true.
Proof.
  induction A as [|a A IH]; intros H; [reflexivity|].
  destruct A as [|a' A]; [reflexivity|].
  simpl app in *. rewrite tidy_cons in *.
  apply andb_true_iff in H. destruct H as [H1 H2].
  rewrite H1. exact (IH H2).
Qed.

Lemma tidy_join A c B :
  tidy (A ++ [c]) = true -> tidy (c :: B) = true -> tidy (A ++ c :: B) = true.
Proof.
  induction A as [|a A IH]; intros HA HB; [exact HB|].
  destruct A as [|a' A].
  - simpl app in *. rewrite tidy_cons in *.
    apply andb_true_iff in HA. destruct HA as [H1 _].
    rewrite H1. exact HB.
  - simpl app in *. rewrite tidy_cons in *.
    apply andb_true_iff in HA. destruct HA as [H1 H2].
    rewrite H1. exact (IH H2 HB).
Qed.

Lemma tidy_spec s :
  tidy s = true <->
  forall pre w post, s = pre ++ w :: 10%N :: post -> is_space w = false.
Proof.
  split.
  - intros H pre w post ->. apply tidy_suffix in H.
    rewrite tidy_cons in H. apply andb_true_iff in H. destruct H as [H _].
    rewrite N.eqb_refl, andb_true_r in H. apply negb_true_iff in H. exact H.
  - induction s as [|w s IH]; intros H; [reflexivity|].
    destruct s as [|c t]; [reflexivity|]. rewrite tidy_cons.
    apply andb_true_iff. split.
    + destruct (c =? 10)%N eqn:E; [|rewrite andb_false_r; reflexivity].
      apply N.eqb_eq in E. subst c.
      rewrite (H [] w t eq_refl). reflexivity.
    + apply IH. intros pre w' post E. apply (H (w :: pre) w' post).
      rewrite E. reflexivity.
Qed.

Lemma quiet_head s : quiet s = true -> hd_error s <> Some 10%N.
Proof.
  destruct s as [|c t]; [discriminate|]. simpl. intros H E.
  injection E as ->. discriminate.
Qed.

(** *** The leftmost match of [\s+\n] *)

Lemma spaceNewline_search s : forall p i,
  match search (rx "\s+\n") p s (List.length s) i with
  | None => tidy s = true
  | Some m =>
      exists j,
        (j <= List.length s)%nat
        /\ index m = (i + N.of_nat j)%N
        /\ (index m < lastIndex m)%N
        /\ quiet (skipn (N.to_nat (lastIndex m - i)) s) = true
        /\ tidy (firstn j s ++ [10%N]) = true
        /\ (j = 0%nat ->
            match_here (rx "\s+\n") p s (List.length s) i = Some m)
        /\ (j <> 0%nat -> hd_error (firstn j s) = hd_error s)
  end.
Proof.
  induction s as [|x s IH]; intros p i.
  - cbn [search]. rewrite spaceNewline_here. reflexivity.
  - cbn [search].
    destruct (match_here (rx "\s+\n") p (x :: s) (List.length (x :: s)) i)
      as [m|] eqn:M.
    + destruct (spaceNewline_match _ _ _ _ M) as (Hi & Hl & Hq).
      exists 0%nat. rewrite Hi.
      repeat split; try assumption; try lia; try reflexivity.
    + cbn [List.length Nat.pred].
      specialize (IH (Some x) (N.succ i)).
      destruct (search (rx "\s+\n") (Some x) s (List.length s) (N.succ i))
        as [m|].
      * destruct IH as (j & Hj & Hi & Hl & Hq & Ht & H0 & Hh).
        exists (S j). repeat split.
        -- simpl. lia.
        -- lia.
        -- exact Hl.
        -- replace (N.to_nat (lastIndex m - i))
             with (S (N.to_nat (lastIndex m - N.succ i))) by lia.
           exact Hq.
        -- cbn [firstn app].
           destruct j as [|j].
           ++ cbn [firstn app]. rewrite tidy_cons, N.eqb_refl, andb_true_r.
              destruct (is_space x) eqn:Hx; [|reflexivity].
              exfalso.
              apply (spaceNewline_extend p x s (List.length s) i Hx);
                [rewrite (H0 eq_refl); discriminate|exact M].
           ++ destruct s as [|c t]; [simpl in Hj; lia|].
              cbn [firstn app] in *. rewrite tidy_cons, Ht, andb_true_r.
              destruct (is_space x) eqn:Hx; [|reflexivity].
              destruct (c =? 10)%N eqn:Hc; [|reflexivity].
              exfalso. apply N.eqb_eq in Hc. subst c.
              exact (spaceNewline_hit p x t _ i Hx M).
        -- discriminate.
      * destruct s as [|c t]; [reflexivity|]. rewrite tidy_cons, IH, andb_true_r.
        destruct (is_space x) eqn:Hx; [|reflexivity].
        destruct (c =? 10)%N eqn:Hc; [|reflexivity].
        exfalso. apply N.eqb_eq in Hc. subst c.
        exact (spaceNewline_hit p x t _ i Hx M).
Qed.

(** *** Replacing every match of [\s+\n] by a line feed *)

Lemma spaceNewline_splice f : forall s p i,
  (List.length s < f)%nat ->
  tidy (splice (exec_all f (rx "\s+\n") p s i) s i [10%N]) = true
  /\ (match_here (rx "\s+\n") p s (List.length s) i = None ->
      hd_error (splice (exec_all f (rx "\s+\n") p s i) s i [10%N])
      = hd_error s).
Proof.
  induction f as [|f IH]; intros s p i Hlen; [lia|].
  rewrite exec_all_S.
  pose proof (spaceNewline_search s p i) as Hs.
  destruct (search (rx "\s+\n") p s (List.length s) i) as [m|];
    [|split; [exact Hs|reflexivity]].
  destruct Hs as (j & Hj & Hi & Hl & Hq & Ht & H0 & Hh).
  assert (He : (lastIndex m =? index m)%N = false) by (apply N.eqb_neq; lia).
  cbv zeta. rewrite He.
  assert (Hji : N.to_nat (index m - i) = j) by lia.
  assert (Hhd : forall R,
            match_here (rx "\s+\n") p s (List.length s) i = None ->
            hd_error (firstn j s ++ 10%N :: R) = hd_error s).
  { intros R M. destruct j as [|j]; [rewrite (H0 eq_refl) in M; discriminate|].
    destruct s as [|c t]; [simpl in Hj; lia|]. reflexivity. }
  destruct (List.length s <? N.to_nat (lastIndex m - i))%nat eqn:Hd.
  - rewrite splice_cons, Hji. cbn [splice app].
    apply Nat.ltb_lt in Hd. rewrite skipn_all2 by lia.
    split; [exact Ht|apply Hhd].
  - rewrite splice_cons, Hji. cbn [app].
    apply Nat.ltb_ge in Hd.
    match goal with
    | |- context [exec_all f ?r ?p' ?s' ?e] =>
        destruct (IH s' p' e) as [IH1 IH2];
          [rewrite length_skipn; lia|];
        specialize (IH2 (spaceNewline_quiet p' s' _ e Hq));
        pose proof (quiet_head s' Hq) as Hq';
        rewrite <- IH2 in Hq';
        generalize dependent (splice (exec_all f r p' s' e) s' e [10%N])
    end.
    intros R HR1 _ HR2.
    split; [|apply Hhd].
    apply tidy_join; [exact Ht|].
    destruct R as [|c R]; [reflexivity|].
    rewrite tidy_cons, HR1, andb_true_r.
    destruct (c =? 10)%N eqn:Hc; [|rewrite andb_false_r; reflexivity].
    apply N.eqb_eq in Hc. subst c. elim HR2. reflexivity.
Qed.

Lemma spaceNewline_tidy s : tidy (replace_all (rx "\s+\n") [10%N] s) = true.
Proof.
  unfold replace_all, matches_g.
  apply (spaceNewline_splice (S (S (List.length s))) s None 0%N). lia.
Qed.

(** *** [\n{2,}] finds nothing in a tidy text *)

Lemma newlines_node :
  pattern (rx "\n{2,}") = Rep (Chr 10%N) 2 None true.
Proof. vm_compute. reflexivity. Qed.

Lemma newlines_here p s n i :
  tidy s = true -> match_here (rx "\n{2,}") p s n i = None.
Proof.
  intros Ht. unfold match_here. rewrite newlines_node.
  change (ignoreCase (rx "\n{2,}")) with false.
  destruct s as [|a [|b t]]; [reflexivity| |].
  - simpl. unfold canon. destruct (a =? 10)%N; reflexivity.
  - rewrite tidy_cons in Ht. apply andb_true_iff in Ht. destruct Ht as [Ht _].
    simpl. unfold canon.
    destruct (a =? 10)%N eqn:Ha; [|reflexivity].
    apply N.eqb_eq in Ha. subst a. simpl.
    destruct (b =? 10)%N eqn:Hb; [|reflexivity].
    discriminate Ht.
Qed.

Lemma newlines_search s : tidy s = true ->
  forall p n i, search (rx "\n{2,}") p s n i = None.
Proof.
  induction s as [|x s IH]; intros Ht p n i; cbn [search].
  - rewrite (newlines_here p [] n i Ht). reflexivity.
  - rewrite (newlines_here p (x :: s) n i Ht).
    apply IH. exact (tidy_tail x s Ht).
Qed.

Lemma newlines_replace s :
  tidy s = true -> replace_all (rx "\n{2,}") [10%N] s = s.
Proof.
  intros Ht. unfold replace_all, matches_g.
  rewrite exec_all_S, (newlines_search s Ht). reflexivity.
Qed.

(** *** Trimming *)

Lemma trimStart_suffix s : exists A, s = A ++ trimStart s.
Proof.
  induction s as [|c s [A IH]]; [exists []; reflexivity|].
  simpl. destruct (is_space c).
  - exists (c :: A). simpl. rewrite <- IH. reflexivity.
  - exists []. reflexivity.
Qed.

Lemma trimEnd_prefix s : exists B, s = trimEnd s ++ B.
Proof.
  unfold trimEnd. destruct (trimStart_suffix (rev s)) as [A E].
  exists (rev A). apply (f_equal (@rev char)) in E.
  rewrite rev_involutive, rev_app_distr in E. exact E.
Qed.

Lemma tidy_trim s : tidy s = true -> tidy (trim s) = true.
Proof.
  intros H. unfold trim.
  destruct (trimStart_suffix s) as [A EA].
  destruct (trimEnd_prefix (trimStart s)) as [B EB].
  rewrite EA in H. apply tidy_suffix in H.
  rewrite EB in H. exact (tidy_prefix _ _ H).
Qed.

Lemma trimStart_head s c r : trimStart s = c :: r -> is_space c = false.
Proof.
  induction s as [|x s IH]; simpl; [discriminate|].
  destruct (is_space x) eqn:E; [exact IH|].
  intros H. injection H as <- _. exact E.
Qed.

Lemma trim_first s c r : trim s = c :: r -> is_space c = false.
Proof.
  unfold trim. intros H.
  destruct (trimEnd_prefix (trimStart s)) as [B EB].
  rewrite H in EB. exact (trimStart_head s c (r ++ B) EB).
Qed.

Lemma trim_last s c r : trim s = r ++ [c] -> is_space c = false.
Proof.
  unfold trim, trimEnd. intros H.
  apply (f_equal (@rev char)) in H.
  rewrite rev_involutive, rev_app_distr in H.
  exact (trimStart_head _ c (rev r) H).
Qed.

Lemma normalize_last_steps raw :
  normalize raw
  = trim
      (replace_all (rx "\n{2,}") [LF]
         (replace_all (rx "\s+\n") [LF]
            (fold_left (fun t step => replace_all (fst step) (snd step) t)
                       (firstn 6 normalizeSteps) raw))).
Proof.
  unfold normalize, normalizeSteps.
  cbn [fold_left fst snd firstn]. reflexivity.
Qed.

(** X26.  In the normalised text no line feed comes right after a
    white-space character, so no line ends with white space and no line
    is empty; and the text neither begins nor ends with white space. *)
Theorem normalize_is_tidy raw :
  (forall pre w post,
     normalize raw = pre ++ w :: LF :: post -> is_space w = false)
  /\ (forall c r, normalize raw = c :: r -> is_space c = false)
  /\ (forall c r, normalize raw = r ++ [c] -> is_space c = false).
Proof.
  rewrite normalize_last_steps.
  generalize (fold_left (fun t step => replace_all (fst step) (snd step) t)
                        (firstn 6 normalizeSteps) raw).
  intros t. change LF with 10%N.
  pose proof (newlines_replace _ (spaceNewline_tidy t)) as E.
  unfold str, char in *. rewrite E. clear E.
  split; [|split].
  - apply tidy_spec, tidy_trim, spaceNewline_tidy.
  - apply trim_first.
  - apply trim_last.
Qed.

(** ** A subtotal that is computed *)

Lemma later_steps_keep_subtotal sorted d s :
  subtotalAmount d = Some s -> truthy s = true ->
  subtotalAmount (step8 sorted (step7 (step6 (step5 (step4 (step3 d))))))
  = Some s.
Proof.
  intros Hs Ht.
  assert (H7 : subtotalAmount (step7 (step6 (step5 (step4 (step3 d)))))
               = Some s)
    by (rewrite step7_subtotal, step6_subtotal, step5_subtotal, step4_subtotal,
          step3_subtotal; exact Hs).
  rewrite step8_idle by (rewrite H7; exact Ht). exact H7.
Qed.

Lemma postprocess_subtotal_from_tax sorted d a t :
  amount d = Some a -> taxAmount d = Some t -> subtotalAmount d = None ->
  truthy (round2 (sub a t)) = true ->
  subtotalAmount (postprocess false sorted d) = Some (round2 (sub a t)).
Proof.
  intros Ha Ht Hs Hr. unfold postprocess, reconcile. rewrite step1_idle.
  assert (E2 : step2 d = set_subtotalAmount (round2 (sub a t)) d)
    by (unfold step2; rewrite Ha, Ht, Hs; reflexivity).
  rewrite E2.
  rewrite step2_5_idle_subtotal by (simpl; exact Hr).
  apply later_steps_keep_subtotal; [reflexivity|exact Hr].
Qed.

(** X27.  When the extraction finds a total and a tax amount but no
    subtotal (and the text has no zero-tax line), the subtotal of the
    result is total minus tax, rounded to two decimals, provided that
    difference is a non-zero number. *)
Theorem subtotal_from_total_and_tax raw a t :
  amount (extract raw) = Some a -> taxAmount (extract raw) = Some t ->
  subtotalAmount (extract raw) = None -> zeroTaxMatch raw = false ->
  truthy (round2 (sub a t)) = true ->
  subtotalAmount (parse raw) = Some (round2 (sub a t)).
Proof.
  intros Ha Ht Hs Hz Hr. unfold parse. rewrite Hz.
  apply postprocess_subtotal_from_tax; assumption.
Qed.

Lemma subtotal_from_total_and_tax_witness :
  subtotalAmount (parse totalAndTax)
  = Some (round2 (sub (dec 10700 (-2)) (dec 700 (-2)))).
Proof.
  apply (subtotal_from_total_and_tax totalAndTax (dec 10700 (-2))
                                     (dec 700 (-2)));
    vm_compute; reflexivity.
Defined.

Lemma postprocess_subtotal_from_rate z sorted d a p :
  amount d = Some a -> truthy a = true ->
  taxPercentage d = Some p -> truthy p = true ->
  taxAmount d = None -> subtotalAmount d = None ->
  truthy (round2 (div a (add one (div p hundred)))) = true ->
  subtotalAmount (postprocess z sorted d)
  = Some (round2 (div a (add one (div p hundred)))).
Proof.
  intros Ha Hta Hp Htp Ht Hs Hr. unfold postprocess, reconcile.
  rewrite (step1_keeps_percentage z d p Hp Htp), (step2_idle d Ht).
  assert (E : subtotalAmount (step2_5 d)
              = Some (round2 (div a (add one (div p hundred)))))
    by (unfold step2_5; rewrite Ha, Hp, Hs, Hta, Htp; simpl; rewrite Ht;
        reflexivity).
  exact (later_steps_keep_subtotal sorted (step2_5 d) _ E Hr).
Qed.

(** X28.  When the extraction finds a non-zero total and a non-zero tax
    rate but neither a subtotal nor a tax amount, the subtotal of the
    result is the total divided by one plus the rate over 100, rounded to
    two decimals, provided that quotient is a non-zero number. *)
Theorem subtotal_from_total_and_rate raw a p :
  amount (extract raw) = Some a -> truthy a = true ->
  taxPercentage (extract raw) = Some p -> truthy p = true ->
  taxAmount (extract raw) = None -> subtotalAmount (extract raw) = None ->
  truthy (round2 (div a (add one (div p hundred)))) = true ->
  subtotalAmount (parse raw)
  = Some (round2 (div a (add one (div p hundred)))).
Proof.
  intros Ha Hta Hp Htp Ht Hs Hr. unfold parse.
  apply postprocess_subtotal_from_rate; assumption.
Qed.

Lemma subtotal_from_total_and_rate_witness :
  subtotalAmount (parse totalAndRate)
  = Some (round2 (div (dec 10700 (-2)) (add one (div (dec 7 0) hundred)))).
Proof.
  apply (subtotal_from_total_and_rate totalAndRate (dec 10700 (-2)) (dec 7 0));
    vm_compute; reflexivity.
Defined.
